(** * Thesis-Extension: the L1 commit pipeline and the L2 session workflow

    A shallow embedding of the Go sources of the two-tier ledger
    (layer-1: repository, ABCI application, service registry, web server;
    layer-2: repository, service registry) together with the properties
    that the specification states about them.

    Conventions.
    - A Go [string] and a Go [[]byte] are both finite byte sequences; they
      are modelled by [string], whose characters are the 256 byte values.
    - [int64] values are integers in [-2^63, 2^63); operations that can
      leave that range are wrapped explicitly ([wrap_int64]).
    - Maps ([map[K]V], database tables keyed by their primary key, the
      key-value ledger) are [gmap]s.
    - Library calls whose result is not determined by the program
      (encoding/json, the consensus engine, the network) are parameters. *)

From Stdlib Require Import ZArith NArith Ascii String List Bool Lia.
From stdpp Require Import base option gmap strings pretty list fin_maps.

Local Open Scope string_scope.
Local Open Scope Z_scope.

(** [String.append] is not unfolded by [simpl]; this step exposes the
    leading characters of an append. *)
Ltac step_append := cbv [String.append]; fold String.append.

(** Route patterns are matched segment by segment ([Forall2] over the
    segments of the pattern and of the path).  A literal segment of the
    pattern fixes the segment of the path; a parameter segment leaves it
    free. *)
Ltac literal_segment HF :=
  let Hc := fresh "Hc" in
  apply Forall2_cons_inv_l in HF as (? & ? & [Hc | <-] & HF & ->);
  [cbv in Hc; discriminate Hc |].

Ltac parameter_segment HF :=
  apply Forall2_cons_inv_l in HF as (? & ? & _ & HF & ->).

(** ** Go values: bytes, integers, strings *)

Module Go.

(** [byte(x)]: conversion of an integer to a byte keeps the low 8 bits. *)
Definition byte_of_Z (z : Z) : ascii := ascii_of_N (Z.to_N (z mod 256)).

(** [int64(b)] for a byte [b]. *)
Definition Z_of_byte (a : ascii) : Z := Z.of_N (N_of_ascii a).

(** Two's complement wrap-around of [int64] arithmetic. *)
Definition wrap_int64 (z : Z) : Z := (z + 2 ^ 63) mod 2 ^ 64 - 2 ^ 63.

Definition int64_range (z : Z) : Prop := - 2 ^ 63 <= z < 2 ^ 63.

(** [x << n] on [int64]: bits shifted past bit 63 are lost. *)
Definition shl64 (x n : Z) : Z := wrap_int64 (Z.shiftl x n).

(** [x >> n] on [int64] is the arithmetic shift. *)
Definition shr64 (x n : Z) : Z := Z.shiftr x n.

(** [buf[k]] as an [int64]; the callers check [len(buf)] first, so the
    out-of-range case (a panic in Go) is not reached. *)
Definition at64 (buf : string) (k : nat) : Z :=
  match String.get k buf with
  | Some a => Z_of_byte a
  | None => 0
  end.

(** [strings.HasPrefix(s, ":")]. *)
Definition HasPrefixColon (s : string) : bool :=
  match s with
  | String c _ => Ascii.eqb c ":"%char
  | EmptyString => false
  end.

(** [strings.Split(s, "/")]: the segments between the separators; a string
    without separator (the empty string included) gives one segment. *)
Fixpoint Split (s : string) : list string :=
  match s with
  | EmptyString => [EmptyString]
  | String c rest =>
      if Ascii.eqb c "/"%char then EmptyString :: Split rest
      else match Split rest with
           | seg :: segs => String c seg :: segs
           | [] => [String c EmptyString]
           end
  end.

(** [strings.ToUpper] on the ASCII letters; the letters outside ASCII,
    which [strings.ToUpper] maps too, are left as they are. *)
Definition upper_ascii (c : ascii) : ascii :=
  let n := N_of_ascii c in
  if ((97 <=? n) && (n <=? 122))%N then ascii_of_N (n - 32) else c.

Fixpoint ToUpper (s : string) : string :=
  match s with
  | EmptyString => EmptyString
  | String c rest => String (upper_ascii c) (ToUpper rest)
  end.

(** [strings.Contains(s, sub)]. *)
Fixpoint Contains (s sub : string) : bool :=
  if String.prefix sub s then true
  else match s with
       | EmptyString => false
       | String _ rest => Contains rest sub
       end.

(** [s[:n]]: the first [n] bytes. *)
Definition take_str (n : nat) (s : string) : string := String.substring 0 n s.

(** [encoding/hex]: two lowercase hexadecimal digits per byte. *)
Definition hex_digit (n : N) : ascii :=
  if (n <? 10)%N then ascii_of_N (48 + n) else ascii_of_N (87 + n).

Fixpoint EncodeToString (bs : string) : string :=
  match bs with
  | EmptyString => EmptyString
  | String b rest =>
      let n := N_of_ascii b in
      String (hex_digit (n / 16)) (String (hex_digit (n mod 16)) (EncodeToString rest))
  end.

Definition is_lower_hex (c : ascii) : bool :=
  let n := N_of_ascii c in
  (((48 <=? n) && (n <=? 57)) || ((97 <=? n) && (n <=? 102)))%N.

(** The concatenation of a list of byte strings, in the order of the list. *)
Definition concat_strings (l : list string) : string := foldr String.append "" l.

Fixpoint all_chars (p : ascii -> bool) (s : string) : bool :=
  match s with
  | EmptyString => true
  | String c rest => p c && all_chars p rest
  end.

(** Characters other than the colon, and other than the slash. *)
Definition no_colon (c : ascii) : bool := negb (Ascii.eqb c ":"%char).
Definition no_slash (c : ascii) : bool := negb (Ascii.eqb c "/"%char).

(** A [[]byte] value: its elements and, behind them, the bytes of the
    backing array up to the capacity. *)
Record Slice := mkSlice {
  elems : string;
  spare : string }.

Definition len (s : Slice) : nat := String.length (elems s).

Definition cap (s : Slice) : nat := (String.length (elems s) + String.length (spare s))%nat.

(** [string(s[:hi])]: the first [hi] bytes of the backing array; the
    bound of a slice expression is the capacity, beyond it the expression
    panics ([None]). *)
Definition slice_to (s : Slice) (hi : nat) : option string :=
  if (hi <=? cap s)%nat then Some (take_str hi (elems s +:+ spare s)) else None.

(** [s[lo:]]: the elements from index [lo] on; a panic ([None]) when [lo]
    is beyond the length. *)
Definition slice_from (s : Slice) (lo : nat) : option string :=
  if (lo <=? len s)%nat then Some (String.substring lo (len s - lo) (elems s)) else None.

End Go.

(** ** The ABCI application's fixed-width height encoding
    (layer-1/app, [int64ToBytes] and [bytesToInt64]) *)

Module Height.
Import Go.

Definition int64ToBytes (i : Z) : string :=
  String (byte_of_Z (shr64 i 56))
 (String (byte_of_Z (shr64 i 48))
 (String (byte_of_Z (shr64 i 40))
 (String (byte_of_Z (shr64 i 32))
 (String (byte_of_Z (shr64 i 24))
 (String (byte_of_Z (shr64 i 16))
 (String (byte_of_Z (shr64 i 8))
 (String (byte_of_Z i) EmptyString))))))).

Definition bytesToInt64 (buf : string) : Z :=
  if (String.length buf <? 8)%nat then 0
  else
    Z.lor (Z.lor (Z.lor (Z.lor (Z.lor (Z.lor (Z.lor
      (shl64 (at64 buf 0) 56)
      (shl64 (at64 buf 1) 48))
      (shl64 (at64 buf 2) 40))
      (shl64 (at64 buf 3) 32))
      (shl64 (at64 buf 4) 24))
      (shl64 (at64 buf 5) 16))
      (shl64 (at64 buf 6) 8))
      (at64 buf 7).

End Height.


(** ** crypto/sha256

    The digest function of the Go standard library (FIPS 180-4), on 32-bit
    words held in [N] and reduced after every addition. *)

Module SHA256.

Local Open Scope N_scope.

Definition w32 (x : N) : N := x mod 4294967296.
Definition add32 (x y : N) : N := w32 (x + y).
Definition not32 (x : N) : N := N.lxor x 4294967295.
Definition rotr (n x : N) : N := N.lor (N.shiftr x n) (w32 (N.shiftl x (32 - n))).

Definition Ch (x y z : N) : N := N.lxor (N.land x y) (N.land (not32 x) z).
Definition Maj (x y z : N) : N :=
  N.lxor (N.lxor (N.land x y) (N.land x z)) (N.land y z).
Definition bsig0 (x : N) : N := N.lxor (N.lxor (rotr 2 x) (rotr 13 x)) (rotr 22 x).
Definition bsig1 (x : N) : N := N.lxor (N.lxor (rotr 6 x) (rotr 11 x)) (rotr 25 x).
Definition ssig0 (x : N) : N := N.lxor (N.lxor (rotr 7 x) (rotr 18 x)) (N.shiftr x 3).
Definition ssig1 (x : N) : N := N.lxor (N.lxor (rotr 17 x) (rotr 19 x)) (N.shiftr x 10).

(** The constants are derived as the standard defines them: the first 32
    bits of the fractional parts of the square roots (initial state) and of
    the cube roots (round constants) of the first primes. *)
Definition is_prime (n : nat) : bool :=
  (2 <=? n)%nat && forallb (fun d => negb (n mod d =? 0)%nat) (seq 2 (n - 2)).

Definition primes : list N := map N.of_nat (filter is_prime (seq 2 310)).

(** The largest [r] below [2^bits] with [r^k <= n], found bit by bit. *)
Fixpoint root_search (k : N) (n : N) (bits : nat) (r : N) : N :=
  match bits with
  | O => r
  | S bits' =>
      let r' := r + N.shiftl 1 (N.of_nat bits') in
      root_search k n bits' (if r' ^ k <=? n then r' else r)
  end.

(** The first 32 bits of the fractional part of the [k]-th root of [p]. *)
Definition root_fraction (k p : N) : N :=
  w32 (root_search k (p * 2 ^ (32 * k)) 40 0).

Definition K : list N := map (root_fraction 3) (firstn 64 primes).

Record state := State { ha : N; hb : N; hc : N; hd : N; he : N; hf : N; hg : N; hh : N }.

Definition init : state :=
  match map (root_fraction 2) (firstn 8 primes) with
  | [a; b; c; d; e; f; g; h] => State a b c d e f g h
  | _ => State 0 0 0 0 0 0 0 0
  end.

(** The padded message: the bytes, 0x80, zeros up to 56 modulo 64, and the
    bit length as a 64-bit big-endian number. *)
Definition be_bytes (n : nat) (x : N) : list N :=
  map (fun k => (N.shiftr x (8 * N.of_nat k)) mod 256) (rev (seq 0 n)).

Definition pad (msg : list N) : list N :=
  let len := N.of_nat (List.length msg) in
  let zeros := N.to_nat ((119 - len mod 64) mod 64) in
  msg ++ [128] ++ repeat 0 zeros ++ be_bytes 8 (8 * len).

Fixpoint words (bs : list N) : list N :=
  match bs with
  | b0 :: b1 :: b2 :: b3 :: rest =>
      (b0 * 16777216 + b1 * 65536 + b2 * 256 + b3) :: words rest
  | _ => []
  end.

Fixpoint chunks (n : nat) (ws : list N) : list (list N) :=
  match n with
  | O => []
  | S n' => match ws with
            | [] => []
            | _ => firstn 16 ws :: chunks n' (skipn 16 ws)
            end
  end.

(** The 64-entry message schedule of one block. *)
Fixpoint schedule (n : nat) (w : list N) : list N :=
  match n with
  | O => w
  | S n' =>
      let t := List.length w in
      let x := add32 (add32 (add32 (ssig1 (nth (t - 2) w 0)) (nth (t - 7) w 0))
                            (ssig0 (nth (t - 15) w 0))) (nth (t - 16) w 0) in
      schedule n' (w ++ [x])
  end.

Definition round (s : state) (kw : N * N) : state :=
  let t1 := add32 (add32 (add32 (add32 (hh s) (bsig1 (he s))) (Ch (he s) (hf s) (hg s)))
                         (fst kw)) (snd kw) in
  let t2 := add32 (bsig0 (ha s)) (Maj (ha s) (hb s) (hc s)) in
  State (add32 t1 t2) (ha s) (hb s) (hc s) (add32 (hd s) t1) (he s) (hf s) (hg s).

Definition compress (s : state) (block : list N) : state :=
  let r := fold_left round (combine K (schedule 48 block)) s in
  State (add32 (ha s) (ha r)) (add32 (hb s) (hb r)) (add32 (hc s) (hc r))
        (add32 (hd s) (hd r)) (add32 (he s) (he r)) (add32 (hf s) (hf r))
        (add32 (hg s) (hg r)) (add32 (hh s) (hh r)).

Definition digest_words (s : state) : list N :=
  [ha s; hb s; hc s; hd s; he s; hf s; hg s; hh s].

Definition bytes_of_string (s : string) : list N :=
  map N_of_ascii (list_ascii_of_string s).

Definition string_of_bytes (bs : list N) : string :=
  string_of_list_ascii (map ascii_of_N bs).

(** [sha256.Sum256(data)], as the 32 digest bytes. *)
Definition Sum256 (data : string) : string :=
  let ws := words (pad (bytes_of_string data)) in
  let s := fold_left compress (chunks (List.length ws) ws) init in
  string_of_bytes (flat_map (be_bytes 4) (digest_words s)).

End SHA256.

(** ** Text helpers for the JSON bodies that the handlers print *)

Module Text.

(** The double quote character. *)
Definition dq : string := String (ascii_of_nat 34) EmptyString.

(** A quoted JSON string or key, as the [%s] patterns of the sources print
    it between literal quotes. *)
Definition q (s : string) : string := dq +:+ s +:+ dq.

(** [fmt.Sprintf("%d", n)]. *)
Definition dec (z : Z) : string := pretty z.

(** The line breaks of the raw string literals of the handlers: a line
    feed and the tabs that indent the next line. *)
Definition lf : string := String (ascii_of_nat 10) EmptyString.
Definition tab : string := String (ascii_of_nat 9) EmptyString.
Definition line2 : string := lf +:+ tab +:+ tab.
Definition line3 : string := lf +:+ tab +:+ tab +:+ tab.

(** [{"error":"<msg>"}] *)
Definition error_body (msg : string) : string :=
  "{" +:+ q "error" +:+ ":" +:+ q msg +:+ "}".

End Text.

(** ** Values decoded by encoding/json into [interface{}] *)

Local Set Warnings "-register-all".

Inductive json : Type :=
| JNull
| JBool (b : bool)
| JNumber (literal : string)
| JString (s : string)
| JArray (items : list json)
| JObject (members : list (string * json)).

(** ** Layer 1: data model (layer-1/repository/models and repository) *)

Module L1.
Import Go Text.

(** [models.ShardInfo]; the automatic time stamps are left out. *)
Record ShardInfo := mkShardInfo {
  sh_ShardID : string;
  sh_ClientGroup : string;
  sh_L2NodeID : string;
  sh_Status : string }.

(** [models.Session]: the L1 session index row. [TxHash] is a nullable
    column ([*string]). *)
Record Session := mkSession {
  se_ID : string;
  se_ShardID : string;
  se_ClientGroup : string;
  se_OperatorID : string;
  se_Status : string;
  se_IsCommitted : bool;
  se_TxHash : option string;
  se_SessionData : string }.

(** [models.Transaction], keyed by [session_id]. *)
Record Transaction := mkTransaction {
  tr_TxHash : string;
  tr_SessionID : string;
  tr_ShardID : string;
  tr_ClientGroup : string;
  tr_BlockHeight : Z;
  tr_Status : string }.

(** [repository.ShardedCommitRequest]. *)
Record ShardedCommitRequest := mkCommitRequest {
  ShardID : string;
  ClientGroup : string;
  SessionID : string;
  OperatorID : string;
  SessionData : json;
  L2NodeID : string;
  Timestamp : string }.

(** [repository.RepositoryError]. *)
Record RepositoryError := mkRepoError {
  Code : string;
  Message : string;
  Detail : string }.

(** [repository.ConsensusResult]. *)
Record ConsensusResult := mkConsensusResult {
  cr_TxHash : string;
  cr_BlockHeight : Z;
  cr_Code : N }.

(** What encoding/json does for the program: decoding a commit request
    (the value, or the text of the error), encoding one, encoding the
    session data, [json.Compact], and decoding a text into an
    [interface{}] or a map.  The library is not part of the
    repository.  Encoding a request that was decoded from JSON does not
    fail, so the [SERIALIZATION_ERROR] branches of the repository are not
    reached and are left out. *)
Class Codec := {
  Unmarshal : string -> ShardedCommitRequest + string;
  Marshal : ShardedCommitRequest -> string;
  MarshalData : json -> string;
  Compact : string -> option string;
  Decode : string -> option json }.

(** *** The ledger store (badger)

    A write transaction collects its writes; [Commit] applies them to the
    store.  [Txn.Set] can refuse a write (the sources test its error);
    when it does is decided by the store, so it is a parameter. *)
Class Ledger := {
  set_err : gmap string string -> string -> string -> option string;
  commit_err : gmap string string -> gmap string string -> option string }.

Abbreviation Txn := (gmap string string).

(** [txn.Set(key, value)]: the transaction afterwards and the error. *)
Definition Txn_Set `{Ledger} (txn : Txn) (key value : string) : Txn * option string :=
  match set_err txn key value with
  | Some e => (txn, Some e)
  | None => (<[key := value]> txn, None)
  end.

(** [abcitypes.EventAttribute], [abcitypes.Event], [abcitypes.ExecTxResult]. *)
Record EventAttribute := mkAttr { Key : string; Value : string; Index : bool }.
Record Event := mkEvent { Type_ : string; Attributes : list EventAttribute }.
Record ExecTxResult := mkExecTxResult {
  tx_Code : N;
  tx_Data : string;
  tx_Log : string;
  tx_Events : list Event }.

Record FinalizeBlockRequest := mkFinalizeBlockRequest {
  Txs : list string;
  Height : Z }.

Record FinalizeBlockResponse := mkFinalizeBlockResponse {
  TxResults : list ExecTxResult;
  AppHash : string }.

(** [app.Application]: the store and the write transaction of the block
    being built ([nil] before the first block). *)
Record Application := mkApplication {
  badgerDB : gmap string string;
  onGoingBlock : option Txn }.

(** *** layer-1/app: helper functions *)

Definition generateTxID (sessionID shardID : string) : string :=
  EncodeToString (SHA256.Sum256 (sessionID +:+ shardID)).

Definition calculateAppHash (txResults : list ExecTxResult) : string :=
  let allData := fold_left (fun acc result => acc +:+ tx_Data result) txResults "" in
  SHA256.Sum256 allData.

Section App.
Context `{Codec} `{Ledger}.

(** [storeShardCommit]: three writes into the block's transaction and
    the result with its event.  A refused first write ends the function
    with code 3; a refused second or third write is only logged. *)
Definition storeShardCommit (txn : Txn) (txID : string)
    (shardCommit : ShardedCommitRequest) (status rawTx : string)
    : Txn * ExecTxResult :=
  let txKey := "tx:" +:+ txID in
  match Txn_Set txn txKey rawTx with
  | (_, Some err) =>
      (txn, mkExecTxResult 3 "" ("Database error: " +:+ err) [])
  | (txn1, None) =>
      let shardKey := "shard:" +:+ ShardID shardCommit +:+ ":session:"
                      +:+ SessionID shardCommit in
      let txn2 := fst (Txn_Set txn1 shardKey rawTx) in
      let statusKey := "status:" +:+ txID in
      let txn3 := fst (Txn_Set txn2 statusKey status) in
      let events :=
        [ mkEvent "l1_shard_commit"
            [ mkAttr "session_id" (SessionID shardCommit) true;
              mkAttr "shard_id" (ShardID shardCommit) true;
              mkAttr "client_group" (ClientGroup shardCommit) true;
              mkAttr "tx_id" txID true;
              mkAttr "status" status true ] ] in
      (txn3, mkExecTxResult 0 txID status events)
  end.

(** One iteration of the loop of [FinalizeBlock]. *)
Definition finalizeTx (txn : Txn) (txBytes : string) : Txn * ExecTxResult :=
  match Unmarshal txBytes with
  | inr _ => (txn, mkExecTxResult 1 "" "Invalid shard commit format" [])
  | inl shardCommit =>
      let txID := generateTxID (SessionID shardCommit) (ShardID shardCommit) in
      storeShardCommit txn txID shardCommit "accepted" txBytes
  end.

(** The loop over [req.Txs], in the order of the request. *)
Fixpoint finalizeTxs (txn : Txn) (txs : list string) : Txn * list ExecTxResult :=
  match txs with
  | [] => (txn, [])
  | txBytes :: rest =>
      let '(txn1, r) := finalizeTx txn txBytes in
      let '(txn2, rs) := finalizeTxs txn1 rest in
      (txn2, r :: rs)
  end.

Definition FinalizeBlock (app : Application) (req : FinalizeBlockRequest)
    : FinalizeBlockResponse * Application :=
  let fresh : Txn := ∅ in
  let '(txn1, txResults) := finalizeTxs fresh (Txs req) in
  let blockHeight := Height req in
  let appHash := calculateAppHash txResults in
  let txn2 := fst (Txn_Set txn1 "last_block_height" (Height.int64ToBytes blockHeight)) in
  let txn3 := fst (Txn_Set txn2 "last_block_app_hash" appHash) in
  (mkFinalizeBlockResponse txResults appHash,
   mkApplication (badgerDB app) (Some txn3)).

(** [Commit]: the writes of the block reach the store unless the
    store's commit fails, which is only logged.  [None]: the nil
    dereference of a [Commit] before any [FinalizeBlock]. *)
Definition Commit (app : Application) : option Application :=
  match onGoingBlock app with
  | None => None
  | Some txn =>
      match commit_err (badgerDB app) txn with
      | Some _ => Some app
      | None => Some (mkApplication (txn ∪ badgerDB app) (Some txn))
      end
  end.

(** [Info]: the last height and app hash read from the store. *)
Definition Info (app : Application) : Z * option string :=
  match badgerDB app !! "last_block_height" with
  | None => (0, None)
  | Some val => (Height.bytesToInt64 val, badgerDB app !! "last_block_app_hash")
  end.

(** [CheckTx]: the response code. *)
Definition CheckTx (txBytes : string) : N :=
  match Unmarshal txBytes with
  | inr _ => 1%N
  | inl shardCommit =>
      if bool_decide (ShardID shardCommit = "" \/ SessionID shardCommit = ""
                      \/ ClientGroup shardCommit = "")
      then 1%N else 0%N
  end.

(** [ProcessProposal]: [true] for ACCEPT. *)
Fixpoint ProcessProposal (txs : list string) : bool :=
  match txs with
  | [] => true
  | txBytes :: rest =>
      match Unmarshal txBytes with
      | inr _ => false
      | inl shardCommit =>
          if bool_decide (ShardID shardCommit = "" \/ SessionID shardCommit = "")
          then false else ProcessProposal rest
      end
  end.

End App.

(** [PrepareProposal]: the transactions of the request, as they are. *)
Definition PrepareProposal (txs : list string) : list string := txs.

(** *** layer-1/app: queries

    The reads run inside [badgerDB.View].  [txn.Get] and [item.Value] can
    fail for reasons outside the data; those errors are parameters, one
    optional error text per key. *)
Record ReadFaults := mkReadFaults {
  get_fault : string -> option string;
  value_fault : string -> option string }.

Definition no_read_faults : ReadFaults :=
  mkReadFaults (fun _ => None) (fun _ => None).

(** The result of [txn.Get]: the item, [badger.ErrKeyNotFound], or
    another error. *)
Inductive GetResult :=
| Item (val : string)
| ErrKeyNotFound
| GetFailed (err : string).

Definition txn_Get (rf : ReadFaults) (db : gmap string string) (key : string)
    : GetResult :=
  match get_fault rf key with
  | Some err => GetFailed err
  | None =>
      match db !! key with
      | Some val => Item val
      | None => ErrKeyNotFound
      end
  end.

(** [item.Value(fn)]: the value handed to [fn], or the error. *)
Definition item_Value (rf : ReadFaults) (key val : string) : string + string :=
  match value_fault rf key with
  | Some err => inr err
  | None => inl val
  end.

(** [abcitypes.QueryResponse], the fields that are set. *)
Record QueryResponse := mkQueryResponse {
  qr_Code : N;
  qr_Log : string;
  qr_Key : string;
  qr_Value : string }.

Definition database_error (err : string) : QueryResponse :=
  mkQueryResponse 2 ("Database error: " +:+ err) "" "".

(** [verifyTransaction]. *)
Definition verifyTransaction (rf : ReadFaults) (app : Application) (txID : string)
    : QueryResponse :=
  let txKey := "tx:" +:+ txID in
  match txn_Get rf (badgerDB app) txKey with
  | ErrKeyNotFound => mkQueryResponse 1 "Transaction not found" "" ""
  | GetFailed err => database_error err
  | Item val =>
      match item_Value rf txKey val with
      | inr err => database_error err
      | inl txData =>
          let statusKey := "status:" +:+ txID in
          match txn_Get rf (badgerDB app) statusKey with
          | Item sval =>
              match item_Value rf statusKey sval with
              | inr err => database_error err
              | inl status => mkQueryResponse 0 status "" txData
              end
          | _ => mkQueryResponse 0 "confirmed" "" txData
          end
      end
  end.

(** [queryShardData]. *)
Definition queryShardData (rf : ReadFaults) (app : Application) (shardID : string)
    : QueryResponse :=
  let shardKey := "shard:" +:+ shardID in
  match txn_Get rf (badgerDB app) shardKey with
  | ErrKeyNotFound => mkQueryResponse 1 "Shard not found" "" ""
  | GetFailed err => database_error err
  | Item val =>
      match item_Value rf shardKey val with
      | inr err => database_error err
      | inl v => mkQueryResponse 0 "found" "" v
      end
  end.

(** [Query]; [None] is the panic of a slice expression out of range. *)
Definition Query (rf : ReadFaults) (app : Application) (Data : Slice)
    : option QueryResponse :=
  if (len Data =? 0)%nat then Some (mkQueryResponse 1 "Empty query data" "" "")
  else
    match slice_to Data 7 with
    | None => None
    | Some head7 =>
        if String.eqb head7 "verify:" then
          match slice_from Data 7 with
          | None => None
          | Some txID => Some (verifyTransaction rf app txID)
          end
        else
          match slice_to Data 6 with
          | None => None
          | Some head6 =>
              if String.eqb head6 "shard:" then
                match slice_from Data 6 with
                | None => None
                | Some shardID => Some (queryShardData rf app shardID)
                end
              else
                match txn_Get rf (badgerDB app) (elems Data) with
                | GetFailed err => Some (database_error err)
                | ErrKeyNotFound =>
                    Some (mkQueryResponse 0 "key doesn't exist" (elems Data) "")
                | Item val =>
                    match item_Value rf (elems Data) val with
                    | inr err => Some (database_error err)
                    | inl v => Some (mkQueryResponse 0 "exists" (elems Data) v)
                    end
                end
          end
    end.

(** The ledgers that the application can reach: it starts on an empty
    store and then finalizes and commits blocks. *)
Inductive ledger_reachable `{Codec} `{Ledger} : Application -> Prop :=
| ledger_start (app : Application) : badgerDB app = ∅ -> ledger_reachable app
| ledger_block (app app' : Application) (req : FinalizeBlockRequest) :
    ledger_reachable app ->
    Commit (snd (FinalizeBlock app req)) = Some app' ->
    ledger_reachable app'.

(** The keys of [storeShardCommit] ([txKey], [shardKey], [statusKey]). *)
Definition txKey (txID : string) : string := "tx:" +:+ txID.
Definition shardKey (shardID sessionID : string) : string :=
  "shard:" +:+ shardID +:+ ":session:" +:+ sessionID.
Definition statusKey (txID : string) : string := "status:" +:+ txID.

(** The keys that the application writes. *)
Definition ledger_key (key : string) : Prop :=
  key = "last_block_height" \/ key = "last_block_app_hash"
  \/ (exists txID, key = "tx:" +:+ txID)
  \/ (exists txID, key = "status:" +:+ txID)
  \/ (exists shardID sessionID,
        key = "shard:" +:+ shardID +:+ ":session:" +:+ sessionID).

(** *** layer-1/repository: the relational index (PostgreSQL through gorm)

    The tables are maps from the primary key to the row.  A gorm
    transaction works on its own copy of the tables: [Commit] publishes
    the copy, [Rollback] drops it. *)
Record DB := mkDB {
  shards : gmap string ShardInfo;
  sessions : gmap string Session;
  transactions : gmap string Transaction }.

(** Errors a statement returns for reasons outside the data (connection
    loss and the like), one optional error text per statement of
    [ReceiveShardCommit]; the error of the delete is the one that the
    function does not inspect. *)
Record DbFaults := mkDbFaults {
  f_begin : option string;
  f_find_shard : option string;
  f_create_session : option string;
  f_commit_first : option string;
  f_delete : option string;
  f_save_session : option string;
  f_create_tx : option string;
  f_commit_final : option string }.

Definition no_faults : DbFaults :=
  mkDbFaults None None None None None None None None.

(** [context.Context]: the background context is never done; a context
    with a deadline or a cancellation is done from some instant on, and
    [ctx.Err()] then says which of the two it was. *)
Inductive Cause := DeadlineExceeded | Canceled.

Inductive Context := Background | DoneAt (d : nat) (cause : Cause).

Definition Done (ctx : Context) : option nat :=
  match ctx with
  | Background => None
  | DoneAt d _ => Some d
  end.

(** [ctx.Err().Error()]; the error of the background context is nil and
    is never read, its channel is never ready. *)
Definition ctx_Err (ctx : Context) : string :=
  match ctx with
  | Background => ""
  | DoneAt _ DeadlineExceeded => "context deadline exceeded"
  | DoneAt _ Canceled => "context canceled"
  end.

(** [cmtrpctypes.ResultBroadcastTxCommit], the fields that are read. *)
Record ResultBroadcastTxCommit := mkBroadcastResult {
  CheckTx_Code : N;
  Hash : string;
  bh_Height : Z }.

(** One call of [rpcClient.BroadcastTxCommit]: the instant at which it
    returns ([None]: it never does) and what it returns, an error text or
    a result.  [tie_done] is the choice of [select] when both of its
    channels are ready at the same instant. *)
Record Broadcast := mkBroadcast {
  returns_at : option nat;
  outcome : string + ResultBroadcastTxCommit;
  tie_done : bool }.

Inductive Selected := SelDone | SelResult | SelBlocked.

(** The [select] of [RunConsensus] over [ctx.Done()] and [done]. *)
Definition select (ctx : Context) (bc : Broadcast) : Selected :=
  match Done ctx, returns_at bc with
  | None, None => SelBlocked
  | Some _, None => SelDone
  | None, Some _ => SelResult
  | Some d, Some t =>
      if (d <? t)%nat then SelDone
      else if (t <? d)%nat then SelResult
      else if tie_done bc then SelDone else SelResult
  end.

Section Repository.
Context `{Codec}.

(** The consensus engine, as seen from the repository: the answer to
    the broadcast of a serialized transaction. *)
Variable rpcClient : string -> Broadcast.

(** [RunConsensus(ctx, payload)]; [None] when it never returns. *)
Definition RunConsensus (ctx : Context) (payload : ShardedCommitRequest)
    : option (ConsensusResult + RepositoryError) :=
  let payloadBytes := Marshal payload in
  let bc := rpcClient payloadBytes in
  match select ctx bc with
  | SelBlocked => None
  | SelDone =>
      Some (inr (mkRepoError "CONSENSUS_TIMEOUT" "Consensus operation timed out"
                   (ctx_Err ctx)))
  | SelResult =>
      match outcome bc with
      | inl err =>
          Some (inr (mkRepoError "CONSENSUS_ERROR" "Failed to commit to blockchain" err))
      | inr result =>
          if negb (CheckTx_Code result =? 0)%N then
            Some (inr (mkRepoError "CONSENSUS_ERROR" "Blockchain rejected transaction"
                         ("CheckTx code: " +:+ pretty (CheckTx_Code result))))
          else
            Some (inl (mkConsensusResult (EncodeToString (Hash result))
                         (bh_Height result) (CheckTx_Code result)))
      end
  end.

(** [db.Delete(&session)]: deletes the row with the primary key of the
    value; gorm refuses a delete without a condition, which is what an
    empty primary key amounts to, and the statement can fail like every
    other one.  The error is not inspected: a delete that fails leaves
    the row where it is, and nothing tells. *)
Definition Delete_session (faults : DbFaults) (db : DB) (session : Session) : DB :=
  match f_delete faults with
  | Some _ => db
  | None =>
      if bool_decide (se_ID session = "") then db
      else mkDB (shards db) (delete (se_ID session) (sessions db)) (transactions db)
  end.

(** The first transaction of [ReceiveShardCommit]: the shard check and
    the insertion of the session row, committed before consensus runs.
    The result is the error, or the store with the new row. *)
Definition preInsert (faults : DbFaults) (db : DB) (commitReq : ShardedCommitRequest)
    : RepositoryError + (DB * Session) :=
  match f_begin faults with
  | Some e => inl (mkRepoError "DATABASE_ERROR" "Failed to start transaction" e)
  | None =>
  match f_find_shard faults with
  | Some e => inl (mkRepoError "DATABASE_ERROR" "Database error" e)
  | None =>
  match shards db !! ShardID commitReq with
  | None =>
      inl (mkRepoError "SHARD_NOT_FOUND" "Unknown shard"
             ("Shard " +:+ ShardID commitReq +:+ " not registered in L1"))
  | Some _ =>
  let sessionDataBytes := MarshalData (SessionData commitReq) in
  let session :=
    mkSession (SessionID commitReq) (ShardID commitReq) (ClientGroup commitReq)
              (OperatorID commitReq) "committed" true None sessionDataBytes in
  match sessions db !! se_ID session with
  | Some _ =>
      inl (mkRepoError "SESSION_EXISTS" "Session already exists"
             ("Session " +:+ SessionID commitReq +:+ " already committed"))
  | None =>
  match f_create_session faults with
  | Some e => inl (mkRepoError "DATABASE_ERROR" "Failed to create session" e)
  | None =>
  match f_commit_first faults with
  | Some e =>
      inl (mkRepoError "DATABASE_ERROR" "Failed to commit database transaction" e)
  | None =>
      inr (mkDB (shards db) (<[se_ID session := session]> (sessions db))
                (transactions db), session)
  end end end end end end.

(** The second transaction: the session row gets the transaction hash
    and the transaction row is created; any error rolls both back. *)
Definition record_tx (faults : DbFaults) (db : DB) (commitReq : ShardedCommitRequest)
    (session : Session) (consensusResult : ConsensusResult)
    : (Transaction + RepositoryError) * DB :=
  let session' :=
    mkSession (se_ID session) (se_ShardID session) (se_ClientGroup session)
              (se_OperatorID session) (se_Status session) (se_IsCommitted session)
              (Some (cr_TxHash consensusResult)) (se_SessionData session) in
  match f_save_session faults with
  | Some e =>
      (inr (mkRepoError "DATABASE_ERROR" "Failed to update session with tx hash" e), db)
  | None =>
  let transaction :=
    mkTransaction (cr_TxHash consensusResult) (SessionID commitReq)
                  (ShardID commitReq) (ClientGroup commitReq)
                  (cr_BlockHeight consensusResult) "confirmed" in
  match transactions db !! tr_SessionID transaction with
  | Some _ =>
      (inr (mkRepoError "DATABASE_ERROR" "Failed to create transaction record"
              "duplicate key value violates unique constraint"), db)
  | None =>
  match f_create_tx faults with
  | Some e =>
      (inr (mkRepoError "DATABASE_ERROR" "Failed to create transaction record" e), db)
  | None =>
  match f_commit_final faults with
  | Some e =>
      (inr (mkRepoError "DATABASE_ERROR" "Failed to commit final transaction" e), db)
  | None =>
      (inl transaction,
       mkDB (shards db) (<[se_ID session' := session']> (sessions db))
            (<[tr_SessionID transaction := transaction]> (transactions db)))
  end end end end.

(** The part of [ReceiveShardCommit] after the first commit: consensus
    under the background context, then the rollback of the session row
    or the second transaction.  [None]: the call never returns. *)
Definition settle (faults : DbFaults) (db : DB) (commitReq : ShardedCommitRequest)
    (session : Session) : option (Transaction + RepositoryError) * DB :=
  match RunConsensus Background commitReq with
  | None => (None, db)
  | Some (inr repoErr) => (Some (inr repoErr), Delete_session faults db session)
  | Some (inl consensusResult) =>
      let '(r, db') := record_tx faults db commitReq session consensusResult in
      (Some r, db')
  end.

(** [ReceiveShardCommit]. *)
Definition ReceiveShardCommit (faults : DbFaults) (db : DB)
    (commitReq : ShardedCommitRequest)
    : option (Transaction + RepositoryError) * DB :=
  match preInsert faults db commitReq with
  | inl repoErr => (Some (inr repoErr), db)
  | inr (db1, session) => settle faults db1 commitReq session
  end.

End Repository.

(** *** layer-1/repository: cross-shard queries *)

(** A session with its preloaded shard and transaction, and a
    transaction with its preloaded session and shard. *)
Record SessionView := mkSessionView {
  sv_Session : Session;
  sv_Shard : option ShardInfo;
  sv_Transaction : option Transaction }.

Record TransactionView := mkTransactionView {
  tv_Transaction : Transaction;
  tv_Session : option Session;
  tv_Shard : option ShardInfo }.

(** The rows of a table; the enumeration of the map stands for the order
    in which the database returns them. *)
Definition rows {A} (t : gmap string A) : list A := snd <$> map_to_list t.

Definition preload_session (db : DB) (s : Session) : SessionView :=
  mkSessionView s (shards db !! se_ShardID s) (transactions db !! se_ID s).

(** [GetSessionsByClientGroup]; [fault] is the error of the statement, if
    it fails. *)
Definition GetSessionsByClientGroup (fault : option string) (db : DB)
    (clientGroup : string) : list SessionView + RepositoryError :=
  match fault with
  | Some e => inr (mkRepoError "DATABASE_ERROR" "Failed to query sessions" e)
  | None =>
      inl (preload_session db
           <$> filter (fun s => se_ClientGroup s = clientGroup) (rows (sessions db)))
  end.

(** [GetSessionsByShard]. *)
Definition GetSessionsByShard (fault : option string) (db : DB) (shardID : string)
    : list SessionView + RepositoryError :=
  match fault with
  | Some e => inr (mkRepoError "DATABASE_ERROR" "Failed to query sessions by shard" e)
  | None =>
      inl (preload_session db
           <$> filter (fun s => se_ShardID s = shardID) (rows (sessions db)))
  end.

(** [GetTransactionByHash]: the first row with the hash. *)
Definition GetTransactionByHash (fault : option string) (db : DB) (txHash : string)
    : TransactionView + RepositoryError :=
  match fault with
  | Some e => inr (mkRepoError "DATABASE_ERROR" "Failed to query transaction" e)
  | None =>
      match head (filter (fun t => tr_TxHash t = txHash) (rows (transactions db))) with
      | None =>
          inr (mkRepoError "TRANSACTION_NOT_FOUND" "Transaction not found"
                 ("Transaction with hash " +:+ txHash +:+ " not found"))
      | Some transaction =>
          inl (mkTransactionView transaction
                 (sessions db !! tr_SessionID transaction)
                 (shards db !! tr_ShardID transaction))
      end
  end.

(** *** The index under concurrent commit requests

    A call of [ReceiveShardCommit] works on the index twice: it admits the
    session (first transaction) and, when consensus has answered, settles
    it (rollback or second transaction).  Between the two, other requests
    run.  The reachable indexes are those built from the seeded index,
    which has no session and no transaction, by admissions and by
    settlements of rows that are still as their admission left them. *)
Definition pending_row `{Codec} (commitReq : ShardedCommitRequest) : Session :=
  mkSession (SessionID commitReq) (ShardID commitReq) (ClientGroup commitReq)
            (OperatorID commitReq) "committed" true None
            (MarshalData (SessionData commitReq)).

Inductive reachable `{Codec} : DB -> Prop :=
| reachable_seeded (db : DB) :
    sessions db = ∅ -> transactions db = ∅ -> reachable db
| reachable_admitted (faults : DbFaults) (db db1 : DB)
    (commitReq : ShardedCommitRequest) (session : Session) :
    reachable db ->
    preInsert faults db commitReq = inr (db1, session) ->
    reachable db1
| reachable_settled (rpcClient : string -> Broadcast) (faults : DbFaults) (db : DB)
    (commitReq : ShardedCommitRequest) :
    reachable db ->
    sessions db !! SessionID commitReq = Some (pending_row commitReq) ->
    reachable (snd (settle rpcClient faults db commitReq (pending_row commitReq))).

(** Referential integrity of the index: every session row is stored
    under its id, belongs to a registered shard and carries the committed
    flag; every transaction row is stored under the id of a session row
    with the same hash, shard and group; and a session row has a hash
    only together with its transaction row. *)
Definition consistent (db : DB) : Prop :=
  (forall id s, sessions db !! id = Some s ->
     se_ID s = id /\ is_Some (shards db !! se_ShardID s)
     /\ se_IsCommitted s = true /\ se_Status s = "committed")
  /\ (forall id t, transactions db !! id = Some t ->
        tr_SessionID t = id
        /\ exists s, sessions db !! id = Some s
                     /\ se_TxHash s = Some (tr_TxHash t)
                     /\ se_ShardID s = tr_ShardID t
                     /\ se_ClientGroup s = tr_ClientGroup t)
  /\ (forall id s h, sessions db !! id = Some s -> se_TxHash s = Some h ->
        exists t, transactions db !! id = Some t /\ tr_TxHash t = h).

(** *** layer-1/srvreg: requests, responses, routes *)

Record Request := mkRequest {
  Method : string;
  Path : string;
  Headers : gmap string string;
  Body : string;
  RemoteAddr : string;
  RequestID : string }.

Record Response := mkResponse {
  StatusCode : nat;
  rs_Headers : gmap string string;
  rs_Body : string }.

Definition defaultHeaders : gmap string string :=
  {[ "Content-Type" := "application/json" ]}.

(** [RouteKey]: method and path. *)
Definition RouteKey : Type := string * string.

(** The handlers that [RegisterDefaultServices] installs. *)
Inductive HandlerName :=
| HReceiveShardCommit
| HGetSessionsByGroup
| HGetSessionsByShard
| HGetTransaction
| HStatus
| HGetShards.

Record ServiceRegistry := mkServiceRegistry {
  handlers : gmap RouteKey HandlerName;
  exactRoutes : gmap RouteKey bool }.

Definition NewServiceRegistry : ServiceRegistry := mkServiceRegistry ∅ ∅.

Definition RegisterHandler (sr : ServiceRegistry) (method path : string)
    (isExactPath : bool) (handler : HandlerName) : ServiceRegistry :=
  let key : RouteKey := (ToUpper method, path) in
  mkServiceRegistry (<[key := handler]> (handlers sr))
                    (<[key := isExactPath]> (exactRoutes sr)).

(** The loop of [matchPath] over the segments; the lengths are equal when
    it runs. *)
Fixpoint matchParts (patternParts pathParts : list string) : bool :=
  match patternParts, pathParts with
  | [], _ => true
  | p :: ps, s :: ss =>
      if HasPrefixColon p then matchParts ps ss
      else if negb (String.eqb p s) then false
      else matchParts ps ss
  | _ :: _, [] => false
  end.

Definition matchPath (pattern path : string) : bool :=
  let patternParts := Split pattern in
  let pathParts := Split path in
  if negb (List.length patternParts =? List.length pathParts)%nat then false
  else matchParts patternParts pathParts.

(** The pattern loop of [GetHandlerForPath]; [visit] is the order in which
    the runtime enumerates the keys of the map. *)
Fixpoint matchRoutes (sr : ServiceRegistry) (visit : list RouteKey)
    (method path : string) : option HandlerName :=
  match visit with
  | [] => None
  | routeKey :: rest =>
      match handlers sr !! routeKey with
      | None => matchRoutes sr rest method path
      | Some handler =>
          if negb (String.eqb (fst routeKey) (ToUpper method))
          then matchRoutes sr rest method path
          else if default false (exactRoutes sr !! routeKey)
          then matchRoutes sr rest method path
          else if matchPath (snd routeKey) path then Some handler
          else matchRoutes sr rest method path
      end
  end.

Definition GetHandlerForPath (sr : ServiceRegistry) (visit : list RouteKey)
    (method path : string) : option HandlerName :=
  let key : RouteKey := (ToUpper method, path) in
  match handlers sr !! key with
  | Some handler =>
      if default false (exactRoutes sr !! key) then Some handler
      else matchRoutes sr visit method path
  | None => matchRoutes sr visit method path
  end.

Definition RegisterDefaultServices (sr : ServiceRegistry) : ServiceRegistry :=
  let sr := RegisterHandler sr "POST" "/l1/commit" true HReceiveShardCommit in
  let sr := RegisterHandler sr "GET" "/l1/sessions/group/:group" false HGetSessionsByGroup in
  let sr := RegisterHandler sr "GET" "/l1/sessions/shard/:shard" false HGetSessionsByShard in
  let sr := RegisterHandler sr "GET" "/l1/transaction/:hash" false HGetTransaction in
  let sr := RegisterHandler sr "GET" "/l1/status" true HStatus in
  RegisterHandler sr "GET" "/l1/shards" true HGetShards.

(** What one request meets outside the program: the store's faults, the
    consensus engine, and the enumeration order of the route map. *)
Record World := mkWorld {
  faults : DbFaults;
  rpcClient : string -> Broadcast;
  visit : list RouteKey }.

(** A handler's result ([response, err]) and the index afterwards;
    [None]: the handler never returns. *)
Definition Handled : Type := option (Response * option string) * DB.

Section Service.
Context `{Codec}.

(** The query handlers ([GetSessionsByGroupHandler] and the others)
    read the index and leave it as it is; their responses are not used
    below. *)
Variable queryHandler : HandlerName -> Request -> DB -> Response * option string.

Definition ReceiveShardCommitHandler (w : World) (db : DB) (req : Request) : Handled :=
  match Unmarshal (Body req) with
  | inr err =>
      (Some (mkResponse 400 defaultHeaders
               (error_body ("Invalid request format: " +:+ err)), Some err), db)
  | inl commitReq =>
      if bool_decide (ShardID commitReq = "" \/ SessionID commitReq = ""
                      \/ ClientGroup commitReq = "")
      then
        (Some (mkResponse 400 defaultHeaders
                 (error_body "Missing required fields: shard_id, session_id, client_group"),
               Some "missing required fields"), db)
      else
        match ReceiveShardCommit (rpcClient w) (faults w) db commitReq with
        | (None, db') => (None, db')
        | (Some (inr repoErr), db') =>
            if String.eqb (Code repoErr) "SHARD_NOT_FOUND" then
              (Some (mkResponse 400 defaultHeaders (error_body (Detail repoErr)),
                     Some ("shard not found: " +:+ Detail repoErr)), db')
            else if String.eqb (Code repoErr) "SESSION_EXISTS" then
              (Some (mkResponse 409 defaultHeaders (error_body (Detail repoErr)),
                     Some ("session exists: " +:+ Detail repoErr)), db')
            else
              (Some (mkResponse 500 defaultHeaders (error_body "Internal server error"),
                     Some ("repository error: " +:+ Detail repoErr)), db')
        | (Some (inl transaction), db') =>
            (Some (mkResponse 202 defaultHeaders
                     ("{" +:+ line3 +:+ q "message" +:+ ": "
                          +:+ q "Shard commit processed successfully" +:+ ","
                          +:+ line3 +:+ q "tx_hash" +:+ ": "
                          +:+ q (tr_TxHash transaction) +:+ ","
                          +:+ line3 +:+ q "session_id" +:+ ": "
                          +:+ q (tr_SessionID transaction) +:+ ","
                          +:+ line3 +:+ q "shard_id" +:+ ": "
                          +:+ q (tr_ShardID transaction) +:+ ","
                          +:+ line3 +:+ q "block_height" +:+ ": "
                          +:+ dec (tr_BlockHeight transaction) +:+ line2 +:+ "}"),
                   None), db')
        end
  end.

Definition runHandler (h : HandlerName) (w : World) (db : DB) (req : Request) : Handled :=
  match h with
  | HReceiveShardCommit => ReceiveShardCommitHandler w db req
  | _ => (Some (queryHandler h req db), db)
  end.

(** The method [GenerateResponse] of [Request]. *)
Definition GenerateResponse (services : ServiceRegistry) (w : World) (db : DB)
    (req : Request) : Handled :=
  match GetHandlerForPath services (visit w) (Method req) (Path req) with
  | None =>
      (Some (mkResponse 404 defaultHeaders
               (error_body ("Service not found for " +:+ Method req +:+ " "
                            +:+ Path req)), None), db)
  | Some handler => runHandler handler w db req
  end.

(** *** layer-1/server: the HTTP surface *)

(** [http.Request], the parts that are read; [hr_ctx] is the request's
    own context ([r.Context()]), done when the client goes away or the
    deadline of the request passes. *)
Record HttpRequest := mkHttpRequest {
  hr_Method : string;
  hr_Path : string;
  hr_Header : gmap string (list string);
  hr_Body : string;
  hr_RemoteAddr : string;
  hr_ctx : Context }.

(** What is written to the [http.ResponseWriter]: the status line and
    either the body of [JSONError] or the [L1Response] envelope around
    the handler's response ([consensus]: the envelope of a commit that
    went through consensus, with [meta.status = "confirmed"]). *)
Inductive Written :=
| JSONError (message : string) (statusCode : nat)
| L1Response (consensus : bool) (inner : Response).

Definition status_of (wr : Written) : nat :=
  match wr with
  | JSONError _ statusCode => statusCode
  | L1Response _ inner => StatusCode inner
  end.

Definition is_space (c : ascii) : bool :=
  let n := N_of_ascii c in ((n =? 32) || ((9 <=? n) && (n <=? 13)))%N.

Fixpoint trim_left (s : string) : string :=
  match s with
  | String c rest => if is_space c then trim_left rest else s
  | EmptyString => EmptyString
  end.

(** [strings.TrimSpace] for the ASCII white space. *)
Definition TrimSpace (s : string) : string :=
  String.rev (trim_left (String.rev (trim_left s))).

Definition compactJSON (body : string) : string :=
  match Compact body with
  | None => TrimSpace body
  | Some compacted => compacted
  end.

(** [ConvertHttpRequestToConsensusRequest]: the context of the HTTP
    request is not carried over. *)
Definition ConvertHttpRequestToConsensusRequest (r : HttpRequest) (requestID : string)
    : Request :=
  let headers := omap head (hr_Header r) in
  let body := compactJSON (TrimSpace (hr_Body r)) in
  mkRequest (hr_Method r) (hr_Path r) headers body (hr_RemoteAddr r) requestID.

(** The member that a Go map decoded from a JSON object holds under
    [key]: the last one of that name. *)
Fixpoint member_of (key : string) (members : list (string * json)) : option json :=
  match members with
  | [] => None
  | (k, v) :: rest =>
      match member_of key rest with
      | Some later => Some later
      | None => if String.eqb k key then Some v else None
      end
  end.

(** The type assertion [txInfo["block_height"].(float64)] of
    [handleL1API] holds: the body decodes to an object whose member
    [block_height] is a number.  The error of [json.Unmarshal] is not
    read there, and on any other body the assertion panics. *)
Definition block_height_is_number (body : string) : bool :=
  match Decode body with
  | Some (JObject members) =>
      match member_of "block_height" members with
      | Some (JNumber _) => true
      | _ => false
      end
  | _ => false
  end.

(** [handleL1API]; [requestID] is the result of [generateRequestID]
    ([None] when the random source fails).  The result is what is
    written and the index afterwards; nothing is written ([None]) when
    the handler never returned, and when it panicked at the type
    assertion on the body of a 202 answer. *)
Definition handleL1API (services : ServiceRegistry) (w : World) (db : DB)
    (requestID : option string) (r : HttpRequest) : option Written * DB :=
  match requestID with
  | None => (Some (JSONError "Internal Server Error" 500), db)
  | Some requestID =>
      let request := ConvertHttpRequestToConsensusRequest r requestID in
      match GenerateResponse services w db request with
      | (None, db') => (None, db')
      | (Some (_, Some err), db') =>
          (Some (JSONError ("Failed to generate response: " +:+ err) 422), db')
      | (Some (response, None), db') =>
          if Contains (hr_Path r) "/commit" && (StatusCode response =? 202)%nat
          then
            if block_height_is_number (rs_Body response)
            then (Some (L1Response true response), db')
            else (None, db')
          else (Some (L1Response false response), db')
      end
  end.

End Service.

(** *** layer-1/srvreg: the query handlers

    [json.Marshal] of the query results is a parameter (the text, or the
    error); so are the two handlers that do not read the routes' path
    ([StatusHandler], [GetShardsHandler]) and the error of the query
    statement. *)
Section Queries.

Variable MarshalSessions : list SessionView -> string + string.
Variable MarshalTransaction : TransactionView -> string + string.
Variable systemHandler : HandlerName -> Request -> DB -> Response * option string.
Variable fault : option string.

Definition internal_error (repoErr : RepositoryError) : Response * option string :=
  (mkResponse 500 defaultHeaders (error_body "Internal server error"),
   Some ("repository error: " +:+ Detail repoErr)).

Definition invalid_path : Response * option string :=
  (mkResponse 400 defaultHeaders (error_body "Invalid path format"),
   Some "invalid path format").

Definition sessions_response (result : list SessionView + RepositoryError)
    : Response * option string :=
  match result with
  | inr repoErr => internal_error repoErr
  | inl found =>
      match MarshalSessions found with
      | inr err =>
          (mkResponse 500 defaultHeaders (error_body "Failed to serialize sessions"),
           Some err)
      | inl sessionsJSON => (mkResponse 200 defaultHeaders sessionsJSON, None)
      end
  end.

Definition GetSessionsByGroupHandler (db : DB) (req : Request)
    : Response * option string :=
  let pathParts := Split (Path req) in
  if negb (List.length pathParts =? 5)%nat then invalid_path
  else
    let clientGroup := nth 4 pathParts "" in
    sessions_response (GetSessionsByClientGroup fault db clientGroup).

Definition GetSessionsByShardHandler (db : DB) (req : Request)
    : Response * option string :=
  let pathParts := Split (Path req) in
  if negb (List.length pathParts =? 5)%nat then invalid_path
  else
    let shardID := nth 4 pathParts "" in
    sessions_response (GetSessionsByShard fault db shardID).

Definition transaction_response (result : TransactionView + RepositoryError)
    : Response * option string :=
  match result with
  | inr repoErr =>
      if String.eqb (Code repoErr) "TRANSACTION_NOT_FOUND" then
        (mkResponse 404 defaultHeaders (error_body (Detail repoErr)),
         Some ("transaction not found: " +:+ Detail repoErr))
      else internal_error repoErr
  | inl transaction =>
      match MarshalTransaction transaction with
      | inr err =>
          (mkResponse 500 defaultHeaders (error_body "Failed to serialize transaction"),
           Some err)
      | inl txJSON => (mkResponse 200 defaultHeaders txJSON, None)
      end
  end.

Definition GetTransactionHandler (db : DB) (req : Request)
    : Response * option string :=
  let pathParts := Split (Path req) in
  if negb (List.length pathParts =? 4)%nat then invalid_path
  else
    let txHash := nth 3 pathParts "" in
    transaction_response (GetTransactionByHash fault db txHash).

(** The handlers of the query routes, by name. *)
Definition queryHandlers (h : HandlerName) (req : Request) (db : DB)
    : Response * option string :=
  match h with
  | HGetSessionsByGroup => GetSessionsByGroupHandler db req
  | HGetSessionsByShard => GetSessionsByShardHandler db req
  | HGetTransaction => GetTransactionHandler db req
  | _ => systemHandler h req db
  end.

End Queries.

(** A route that the pattern loop of [GetHandlerForPath] accepts for a
    request: a registered key with the method of the request, not marked
    exact, whose pattern matches the path. *)
Definition pattern_route (sr : ServiceRegistry) (method path : string)
    (routeKey : RouteKey) (handler : HandlerName) : Prop :=
  handlers sr !! routeKey = Some handler
  /\ fst routeKey = ToUpper method
  /\ default false (exactRoutes sr !! routeKey) = false
  /\ matchPath (snd routeKey) path = true.

(** The routes of [RegisterDefaultServices], read as a table: the
    requests that each handler is registered for. *)
Definition default_route (h : HandlerName) (method path : string) : Prop :=
  match h with
  | HReceiveShardCommit => ToUpper method = "POST" /\ path = "/l1/commit"
  | HStatus => ToUpper method = "GET" /\ path = "/l1/status"
  | HGetShards => ToUpper method = "GET" /\ path = "/l1/shards"
  | HGetSessionsByGroup =>
      ToUpper method = "GET" /\ exists group, Split path = [""; "l1"; "sessions"; "group"; group]
  | HGetSessionsByShard =>
      ToUpper method = "GET" /\ exists shard, Split path = [""; "l1"; "sessions"; "shard"; shard]
  | HGetTransaction =>
      ToUpper method = "GET" /\ exists hash, Split path = [""; "l1"; "transaction"; hash]
  end.

(** *** layer-1 main and server: helper functions *)

(** The loop of [extractPortFromAddress], from index [i - 1] down to 0. *)
Fixpoint scan_port (address : string) (i : nat) : string :=
  match i with
  | O => ""
  | S j =>
      match String.get j address with
      | Some c =>
          if Ascii.eqb c ":"%char
          then String.substring (S j) (String.length address - S j) address
          else scan_port address j
      | None => scan_port address j
      end
  end.

Definition extractPortFromAddress (address : string) : string :=
  scan_port address (String.length address).

End L1.

(** ** github.com/google/uuid

    [uuid.New()] fills 16 bytes from the random source and stamps the
    version and variant bits; [String()] prints them as five groups of
    lowercase hexadecimal digits separated by hyphens. *)

Module UUID.
Import Go.

Definition stamp (i : nat) (c : ascii) : ascii :=
  let n := N_of_ascii c in
  match i with
  | 6%nat => ascii_of_N (N.lor (N.land n 15) 64)
  | 8%nat => ascii_of_N (N.lor (N.land n 63) 128)
  | _ => c
  end.

Fixpoint stamp_from (i : nat) (s : string) : string :=
  match s with
  | EmptyString => EmptyString
  | String c rest => String (stamp i c) (stamp_from (S i) rest)
  end.

(** [uuid.New()] from the 16 bytes that the random source delivers. *)
Definition New (random : string) : string := stamp_from 0 random.

(** [u.String()]. *)
Definition String_ (u : string) : string :=
  EncodeToString (String.substring 0 4 u) +:+ "-" +:+
  EncodeToString (String.substring 4 2 u) +:+ "-" +:+
  EncodeToString (String.substring 6 2 u) +:+ "-" +:+
  EncodeToString (String.substring 8 2 u) +:+ "-" +:+
  EncodeToString (String.substring 10 6 u).

End UUID.

(** ** Layer 2: session store (layer-2/repository)

    Each operation runs in one database transaction.  A statement that
    fails rolls the transaction back and the tables stay as they were: the
    failures that the rows decide (a missing row, a key or a unique index
    that is taken, a foreign key without its row) are modelled, and
    failures for other reasons would add no state that is not reached
    without them.  The texts are taken to fit their columns ([fits]
    below): what the database does with a text that is too long for its
    [varchar] column or is not valid in its encoding is not modelled. *)

Module L2.
Import Go Text.

Record Session := mkSession {
  ID : string;
  OperatorID : string;
  Status : string;
  IsCommitted : bool;
  PackageID : option string;
  L1TxHash : option string;
  L1BlockHeight : option Z;
  L1CommitTime : option nat }.

Record Package := mkPackage {
  pk_ID : string;
  pk_Signature : string;
  pk_SupplierID : string;
  pk_Status : string;
  pk_IsTrusted : bool;
  pk_SessionID : option string }.

Record QCRecord := mkQCRecord {
  qc_ID : string;
  qc_SessionID : string;
  qc_Passed : bool;
  qc_Issues : string }.

Record Label := mkLabel {
  lb_ID : string;
  lb_SessionID : string;
  lb_CourierID : string;
  lb_TrackingNo : string }.

Record Courier := mkCourier {
  co_ID : string;
  co_Name : string }.

Record RepositoryError := mkRepoError {
  Code : string;
  Message : string;
  Detail : string }.

(** The tables, keyed by their primary keys.  Suppliers and items are
    only read for display and are left out. *)
Record DB := mkDB {
  sessions : gmap string Session;
  packages : gmap string Package;
  qc_records : gmap string QCRecord;
  labels : gmap string Label;
  couriers : gmap string Courier }.

Definition set_sessions (db : DB) (s : gmap string Session) : DB :=
  mkDB s (packages db) (qc_records db) (labels db) (couriers db).
Definition set_packages (db : DB) (p : gmap string Package) : DB :=
  mkDB (sessions db) p (qc_records db) (labels db) (couriers db).
Definition set_qc_records (db : DB) (r : gmap string QCRecord) : DB :=
  mkDB (sessions db) (packages db) r (labels db) (couriers db).
Definition set_labels (db : DB) (l : gmap string Label) : DB :=
  mkDB (sessions db) (packages db) (qc_records db) l (couriers db).

(** The identifiers: a prefix and the first characters of a fresh UUID. *)
Definition new_id (prefix : string) (n : nat) (random : string) : string :=
  prefix +:+ take_str n (UUID.String_ (UUID.New random)).

(** [First] with a condition on a column that is not the key: the first
    matching row; the enumeration of the table stands for the order of the
    primary key. *)
Definition first_where {A} (p : A -> bool) (t : gmap string A) : option A :=
  head (filter (fun a => p a = true) (snd <$> map_to_list t)).

(** [CreateSession]. *)
Definition CreateSession (random : string) (db : DB) (operatorID : string)
    : (Session + RepositoryError) * DB :=
  let sessionID := new_id "SES-" 8 random in
  let session := mkSession sessionID operatorID "active" false None None None None in
  match sessions db !! sessionID with
  | Some _ =>
      (inr (mkRepoError "CREATE_FAILED" "Failed to create session"
              "duplicate key value violates unique constraint"), db)
  | None => (inl session, set_sessions db (<[sessionID := session]> (sessions db)))
  end.

(** [Update("package_id", packageID)] and the other single-column updates
    of the session with the given key; no row, no change. *)
Definition update_session (db : DB) (sessionID : string) (f : Session -> Session) : DB :=
  set_sessions db (alter f sessionID (sessions db)).

Definition with_package_id (packageID : string) (s : Session) : Session :=
  mkSession (ID s) (OperatorID s) (Status s) (IsCommitted s) (Some packageID)
            (L1TxHash s) (L1BlockHeight s) (L1CommitTime s).

Definition with_status (status : string) (s : Session) : Session :=
  mkSession (ID s) (OperatorID s) status (IsCommitted s) (PackageID s)
            (L1TxHash s) (L1BlockHeight s) (L1CommitTime s).

(** The [Updates] of [MarkSessionCommitted]: five columns at once. *)
Definition with_commit (txHash : string) (blockHeight : Z) (commitTime : nat)
    (s : Session) : Session :=
  mkSession (ID s) (OperatorID s) "committed" true (PackageID s)
            (Some txHash) (Some blockHeight) (Some commitTime).

(** [ScanPackage]. *)
Definition ScanPackage (db : DB) (sessionID packageID : string)
    : (Package + RepositoryError) * DB :=
  match packages db !! packageID with
  | None =>
      (inr (mkRepoError "NOT_FOUND" "Package not found"
              ("Package " +:+ packageID +:+ " does not exist")), db)
  | Some pkg =>
      let pkg' := mkPackage (pk_ID pkg) (pk_Signature pkg) (pk_SupplierID pkg)
                            "pending_validation" (pk_IsTrusted pkg) (Some sessionID) in
      let db1 := set_packages db (<[pk_ID pkg' := pkg']> (packages db)) in
      let db2 := update_session db1 sessionID (with_package_id packageID) in
      (inl pkg', db2)
  end.

(** [ValidatePackage]: every signature is accepted. *)
Definition ValidatePackage (db : DB) (signature packageID sessionID : string)
    : (Package + RepositoryError) * DB :=
  match packages db !! packageID with
  | None =>
      (inr (mkRepoError "NOT_FOUND" "Package not found"
              ("Package " +:+ packageID +:+ " does not exist")), db)
  | Some pkg =>
      let pkg' := mkPackage (pk_ID pkg) (pk_Signature pkg) (pk_SupplierID pkg)
                            "validated" true (Some sessionID) in
      (inl pkg', set_packages db (<[pk_ID pkg' := pkg']> (packages db)))
  end.

(** [QualityCheck]; [issuesJSON] is the encoded list of issues. *)
Definition QualityCheck (random : string) (db : DB) (sessionID : string)
    (passed : bool) (issuesJSON : string)
    : (Package * QCRecord + RepositoryError) * DB :=
  match sessions db !! sessionID with
  | None =>
      (inr (mkRepoError "NOT_FOUND" "Session not found"
              ("Session " +:+ sessionID +:+ " does not exist")), db)
  | Some _ =>
  match first_where (fun p => bool_decide (pk_SessionID p = Some sessionID)) (packages db) with
  | None =>
      (inr (mkRepoError "NOT_FOUND" "Package not found for session"
              ("No package linked to session " +:+ sessionID)), db)
  | Some pkg =>
      let qcRecord := mkQCRecord (new_id "QC-" 8 random) sessionID passed issuesJSON in
      if bool_decide (is_Some (qc_records db !! qc_ID qcRecord))
         || bool_decide (is_Some (first_where
               (fun r => String.eqb (qc_SessionID r) sessionID) (qc_records db)))
      then
        (inr (mkRepoError "CREATE_FAILED" "Failed to create QC record"
                "duplicate key value violates unique constraint"), db)
      else
        let db1 := set_qc_records db (<[qc_ID qcRecord := qcRecord]> (qc_records db)) in
        let pkg' := mkPackage (pk_ID pkg) (pk_Signature pkg) (pk_SupplierID pkg)
                              (if passed then "qc_passed" else "qc_failed")
                              (pk_IsTrusted pkg) (pk_SessionID pkg) in
        (inl (pkg', qcRecord), set_packages db1 (<[pk_ID pkg' := pkg']> (packages db1)))
  end end.

Definition label_package (sessionID : string) (p : Package) : Package :=
  if bool_decide (pk_SessionID p = Some sessionID)
  then mkPackage (pk_ID p) (pk_Signature p) (pk_SupplierID p) "labeled"
                 (pk_IsTrusted p) (pk_SessionID p)
  else p.

(** [LabelPackage]; two UUIDs are drawn, for the label id and for the
    tracking number.  The insertion of the label fails when its key or
    the unique index on [session_id] is taken, and when the foreign key
    from [labels.session_id] to the sessions finds no session. *)
Definition LabelPackage (random1 random2 : string) (db : DB)
    (sessionID courierID : string) : (Label + RepositoryError) * DB :=
  match couriers db !! courierID with
  | None =>
      (inr (mkRepoError "NOT_FOUND" "Courier not found"
              ("Courier " +:+ courierID +:+ " does not exist")), db)
  | Some _ =>
      let label := mkLabel (new_id "LBL-" 8 random1) sessionID courierID
                           (new_id "TRK-" 12 random2) in
      if bool_decide (is_Some (labels db !! lb_ID label))
         || bool_decide (is_Some (first_where
               (fun l => String.eqb (lb_SessionID l) sessionID) (labels db)))
      then
        (inr (mkRepoError "CREATE_FAILED" "Failed to create label"
                "duplicate key value violates unique constraint"), db)
      else
        match sessions db !! sessionID with
        | None =>
            (inr (mkRepoError "CREATE_FAILED" "Failed to create label"
                    "insert or update on table violates foreign key constraint"), db)
        | Some _ =>
            let db1 := set_labels db (<[lb_ID label := label]> (labels db)) in
            let db2 := set_packages db1 (label_package sessionID <$> packages db1) in
            let db3 := update_session db2 sessionID (with_status "completed") in
            (inl label, db3)
        end
  end.

(** [MarkSessionCommitted]; [commitTime] is [time.Now()]. *)
Definition MarkSessionCommitted (commitTime : nat) (db : DB) (sessionID txHash : string)
    (blockHeight : Z) : option RepositoryError * DB :=
  (None, update_session db sessionID (with_commit txHash blockHeight commitTime)).

(** [GetSession]: the row, or [NOT_FOUND]. *)
Definition GetSession (db : DB) (sessionID : string) : Session + RepositoryError :=
  match sessions db !! sessionID with
  | Some session => inl session
  | None =>
      inr (mkRepoError "NOT_FOUND" "Session not found"
             ("Session " +:+ sessionID +:+ " does not exist"))
  end.

(** *** layer-2/srvreg: the router and the commit handler *)

Record Request := mkRequest {
  Method : string;
  Path : string;
  Body : string;
  Headers : gmap string string }.

Record Response := mkResponse {
  StatusCode : nat;
  rs_Headers : gmap string string;
  rs_Body : string }.

Definition defaultHeaders : gmap string string :=
  {[ "Content-Type" := "application/json" ]}.

(** The handlers that [RegisterDefaultServices] installs. *)
Inductive HandlerName :=
| HCreateSession
| HScanPackage
| HValidatePackage
| HQualityCheck
| HLabelPackage
| HCommitSession
| HInfo.

(** [handlers] is the map from the method to the map from the pattern to
    the handler. *)
Record ServiceRegistry := mkServiceRegistry {
  handlers : gmap string (gmap string HandlerName);
  shardID : string;
  clientGroup : string }.

Definition NewServiceRegistry (shardID clientGroup : string) : ServiceRegistry :=
  mkServiceRegistry ∅ shardID clientGroup.

Definition RegisterHandler (sr : ServiceRegistry) (method path : string)
    (handler : HandlerName) : ServiceRegistry :=
  let methodHandlers := default ∅ (handlers sr !! method) in
  mkServiceRegistry (<[method := <[path := handler]> methodHandlers]> (handlers sr))
                    (shardID sr) (clientGroup sr).

(** The loop of [matchPath] over the segments; the lengths are equal when
    it runs. *)
Fixpoint matchParts (patternParts pathParts : list string) : bool :=
  match patternParts, pathParts with
  | [], _ => true
  | p :: ps, s :: ss =>
      if HasPrefixColon p then matchParts ps ss
      else if negb (String.eqb p s) then false
      else matchParts ps ss
  | _ :: _, [] => false
  end.

Definition matchPath (pattern path : string) : bool :=
  let patternParts := Split pattern in
  let pathParts := Split path in
  if negb (List.length patternParts =? List.length pathParts)%nat then false
  else matchParts patternParts pathParts.

(** A pattern segment and a path segment agree: the pattern segment is a
    parameter (it starts with a colon) or the two are equal. *)
Definition segment_matches (p s : string) : Prop :=
  HasPrefixColon p = true \/ p = s.

(** The pattern loop of [GetHandlerForPath]; [visit] is the order in which
    the runtime enumerates the patterns of the map. *)
Fixpoint matchPatterns (methodHandlers : gmap string HandlerName) (visit : list string)
    (path : string) : option HandlerName :=
  match visit with
  | [] => None
  | pattern :: rest =>
      match methodHandlers !! pattern with
      | Some handler =>
          if matchPath pattern path then Some handler
          else matchPatterns methodHandlers rest path
      | None => matchPatterns methodHandlers rest path
      end
  end.

Definition GetHandlerForPath (sr : ServiceRegistry) (visit : list string)
    (method path : string) : option HandlerName :=
  match handlers sr !! method with
  | None => None
  | Some methodHandlers =>
      match methodHandlers !! path with
      | Some handler => Some handler
      | None => matchPatterns methodHandlers visit path
      end
  end.

Definition RegisterDefaultServices (sr : ServiceRegistry) : ServiceRegistry :=
  let sr := RegisterHandler sr "POST" "/session/start" HCreateSession in
  let sr := RegisterHandler sr "GET" "/session/:id/scan" HScanPackage in
  let sr := RegisterHandler sr "POST" "/session/:id/validate" HValidatePackage in
  let sr := RegisterHandler sr "POST" "/session/:id/qc" HQualityCheck in
  let sr := RegisterHandler sr "POST" "/session/:id/label" HLabelPackage in
  let sr := RegisterHandler sr "POST" "/session/:id/commit" HCommitSession in
  RegisterHandler sr "GET" "/info" HInfo.

(** The entry of the shard registry that [l1Client.GetShardByClientGroup]
    returns. *)
Record ShardInfo := mkShardInfo {
  sh_ShardID : string;
  sh_ClientGroup : string;
  sh_L2Endpoint : string }.

(** [l1client.CommitResponse], the fields that are read. *)
Record CommitResponse := mkCommitResponse {
  Data_TxHash : string;
  Meta_BlockHeight : Z }.

(** What one request meets outside the shard: the enumeration order of
    the pattern map, the shard registry of the L1 client, the network to
    the other shards (the status and body of the answer, or an error), the
    answer of L1 to a commit, and the clock. *)
Record World := mkWorld {
  visit : list string;
  GetShardByClientGroup : string -> option ShardInfo;
  forward : string -> string -> string -> gmap string string -> (nat * string) + string;
  CommitSession : Session -> string -> CommitResponse + string;
  now : nat }.

(** The result of a handler call: the response, the error, or the panic of
    a nil dereference. *)
Inductive Outcome :=
| Ok (response : Response)
| Err (err : string)
| Panic.

Definition CheckShardAndRedirect (sr : ServiceRegistry) (w : World)
    (clientGroup' : string) : bool * string :=
  if String.eqb clientGroup' (clientGroup sr) then (true, "")
  else match GetShardByClientGroup w clientGroup' with
       | None => (true, "")
       | Some shard => (false, sh_L2Endpoint shard)
       end.

Definition ForwardToCorrectShard (w : World) (req : Request) (targetURL : string)
    : Outcome :=
  let fullURL := targetURL +:+ Path req in
  match forward w (Method req) fullURL (Body req) (Headers req) with
  | inr err => Err ("failed to forward request: " +:+ err)
  | inl (statusCode, body) => Ok (mkResponse statusCode defaultHeaders body)
  end.

(** [CommitSessionHandler]. *)
Definition CommitSessionHandler (sr : ServiceRegistry) (w : World) (db : DB)
    (req : Request) : Outcome * DB :=
  let pathParts := Split (Path req) in
  if negb (List.length pathParts =? 4)%nat then
    (Ok (mkResponse 400 defaultHeaders (error_body "Invalid path format")), db)
  else
    let sessionID := nth 2 pathParts "" in
    match GetSession db sessionID with
    | inr dbErr =>
        let statusCode := if String.eqb (Code dbErr) "NOT_FOUND" then 404%nat else 500%nat in
        (Ok (mkResponse statusCode defaultHeaders (error_body (Message dbErr))), db)
    | inl session =>
        if IsCommitted session then
          match L1TxHash session with
          | None => (Panic, db)
          | Some txHash =>
              (Ok (mkResponse 409 defaultHeaders
                     ("{" +:+ q "error" +:+ ":" +:+ q "Session already committed" +:+ ","
                          +:+ q "tx_hash" +:+ ":" +:+ q txHash +:+ "}")), db)
          end
        else if negb (String.eqb (Status session) "completed") then
          (Ok (mkResponse 400 defaultHeaders
                 ("{" +:+ q "error" +:+ ":"
                      +:+ q "Session must be completed before committing" +:+ ","
                      +:+ q "current_status" +:+ ":" +:+ q (Status session) +:+ "}")), db)
        else
          match CommitSession w session (clientGroup sr) with
          | inr err =>
              (Ok (mkResponse 502 defaultHeaders
                     (error_body ("Failed to commit to L1: " +:+ err))), db)
          | inl l1Response =>
              match MarkSessionCommitted (now w) db sessionID (Data_TxHash l1Response)
                                         (Meta_BlockHeight l1Response) with
              | (Some dbErr, db') =>
                  (Ok (mkResponse 500 defaultHeaders
                         (error_body ("Failed to update session: " +:+ Message dbErr))), db')
              | (None, db') =>
                  (Ok (mkResponse 200 defaultHeaders
                         ("{" +:+ line3 +:+ q "message" +:+ ":"
                              +:+ q "Session committed to L1 successfully" +:+ ","
                              +:+ line3 +:+ q "session_id" +:+ ":" +:+ q sessionID +:+ ","
                              +:+ line3 +:+ q "tx_hash" +:+ ":"
                              +:+ q (Data_TxHash l1Response) +:+ ","
                              +:+ line3 +:+ q "block_height" +:+ ":"
                              +:+ dec (Meta_BlockHeight l1Response) +:+ ","
                              +:+ line3 +:+ q "shard_id" +:+ ":" +:+ q (shardID sr) +:+ ","
                              +:+ line3 +:+ q "status" +:+ ":" +:+ q "committed"
                              +:+ line2 +:+ "}")), db')
              end
          end
    end.

Section Router.

(** The handlers of the workflow stages other than the commit; they
    decode the body and call the repository. *)
Variable stageHandler : HandlerName -> World -> DB -> Request -> Outcome * DB.

Definition runHandler (sr : ServiceRegistry) (h : HandlerName) (w : World) (db : DB)
    (req : Request) : Outcome * DB :=
  match h with
  | HCommitSession => CommitSessionHandler sr w db req
  | _ => stageHandler h w db req
  end.

(** The method [GenerateResponse] of [Request]: the header preflight,
    then the routing. *)
Definition GenerateResponse (services : ServiceRegistry) (w : World) (db : DB)
    (req : Request) : Outcome * DB :=
  let clientGroup' := default "" (Headers req !! "X-Client-Group") in
  let forwarded :=
    if negb (String.eqb clientGroup' "") then
      let '(shouldHandle, redirectURL) := CheckShardAndRedirect services w clientGroup' in
      if negb shouldHandle then Some (ForwardToCorrectShard w req redirectURL) else None
    else None in
  match forwarded with
  | Some out => (out, db)
  | None =>
      match GetHandlerForPath services (visit w) (Method req) (Path req) with
      | None =>
          (Ok (mkResponse 404 defaultHeaders
                 (error_body ("Service not found for " +:+ Method req +:+ " "
                              +:+ Path req))), db)
      | Some handler => runHandler services handler w db req
      end
  end.

(** Whether the header preflight of [GenerateResponse] leaves the request
    to this shard: no [X-Client-Group] header, or a group that
    [CheckShardAndRedirect] lets this shard handle. *)
Definition handles_locally (services : ServiceRegistry) (w : World) (req : Request)
    : bool :=
  let clientGroup' := default "" (Headers req !! "X-Client-Group") in
  String.eqb clientGroup' "" || fst (CheckShardAndRedirect services w clientGroup').

End Router.

(** *** The operations on the session store

    Every way in which the shard changes its store: the repository
    operations, with any arguments, and the commit handler. *)
Inductive Op :=
| OpCreateSession (random operatorID : string)
| OpScanPackage (sessionID packageID : string)
| OpValidatePackage (signature packageID sessionID : string)
| OpQualityCheck (random sessionID : string) (passed : bool) (issuesJSON : string)
| OpLabelPackage (random1 random2 sessionID courierID : string)
| OpMarkSessionCommitted (commitTime : nat) (sessionID txHash : string) (blockHeight : Z)
| OpCommitSessionHandler (sr : ServiceRegistry) (w : World) (req : Request).

Definition apply_op (op : Op) (db : DB) : DB :=
  match op with
  | OpCreateSession random operatorID => snd (CreateSession random db operatorID)
  | OpScanPackage sessionID packageID => snd (ScanPackage db sessionID packageID)
  | OpValidatePackage signature packageID sessionID =>
      snd (ValidatePackage db signature packageID sessionID)
  | OpQualityCheck random sessionID passed issuesJSON =>
      snd (QualityCheck random db sessionID passed issuesJSON)
  | OpLabelPackage random1 random2 sessionID courierID =>
      snd (LabelPackage random1 random2 db sessionID courierID)
  | OpMarkSessionCommitted commitTime sessionID txHash blockHeight =>
      snd (MarkSessionCommitted commitTime db sessionID txHash blockHeight)
  | OpCommitSessionHandler sr w req => snd (CommitSessionHandler sr w db req)
  end.

(** The stores that the shard can reach: it starts without sessions (the
    seed creates suppliers, couriers, packages and items only) and then
    runs operations. *)
Inductive reachable : DB -> Prop :=
| reachable_start (db : DB) : sessions db = ∅ -> reachable db
| reachable_step (op : Op) (db : DB) : reachable db -> reachable (apply_op op db).

(** A committed session carries its L1 transaction hash and block
    height. *)
Definition committed_has_l1_info (db : DB) : Prop :=
  forall sessionID session,
    sessions db !! sessionID = Some session ->
    IsCommitted session = true ->
    is_Some (L1TxHash session) /\ is_Some (L1BlockHeight session).

(** What an update of a session row may do to the commit columns: leave
    them alone, or set the flag together with the hash and the height. *)
Definition keeps_or_commits (f : Session -> Session) : Prop :=
  forall s,
    (IsCommitted (f s) = IsCommitted s /\ L1TxHash (f s) = L1TxHash s
     /\ L1BlockHeight (f s) = L1BlockHeight s)
    \/ (is_Some (L1TxHash (f s)) /\ is_Some (L1BlockHeight (f s))).

(** The operations that write [is_committed]. *)
Definition writes_is_committed (op : Op) : bool :=
  match op with
  | OpMarkSessionCommitted _ _ _ _ | OpCommitSessionHandler _ _ _ => true
  | _ => false
  end.


(** *** Further notions for the properties of the session store *)

(** A sequence of operations, applied from the left. *)
Definition run (ops : list Op) (db : DB) : DB :=
  foldl (fun db op => apply_op op db) db ops.

(** The session has a label, a QC record. *)
Definition has_label (db : DB) (sessionID : string) : Prop :=
  exists i l, labels db !! i = Some l /\ lb_SessionID l = sessionID.

Definition has_qc_record (db : DB) (sessionID : string) : Prop :=
  exists i r, qc_records db !! i = Some r /\ qc_SessionID r = sessionID.

(** A text that a [varchar(n)] column stores as it is: at most [n]
    characters, all of them printable ASCII, so that bytes and
    characters are the same. *)
Definition printable (c : ascii) : bool :=
  let n := N_of_ascii c in ((32 <=? n) && (n <? 127))%N.

Definition fits (n : nat) (s : string) : bool :=
  (String.length s <=? n)%nat && all_chars printable s.

(** The session's row is marked committed, or is ready for the commit. *)
Definition completed_or_committed (s : Session) : Prop :=
  Status s = "completed" \/ IsCommitted s = true.

(** Two rows of one session with the same commit columns. *)
Definition same_receipt (s s' : Session) : Prop :=
  ID s' = ID s /\ IsCommitted s' = IsCommitted s /\ L1TxHash s' = L1TxHash s
  /\ L1BlockHeight s' = L1BlockHeight s /\ L1CommitTime s' = L1CommitTime s.

(** The body of the answer 409 of the commit handler. *)
Definition already_committed_body (txHash : string) : string :=
  "{" +:+ q "error" +:+ ":" +:+ q "Session already committed" +:+ ","
      +:+ q "tx_hash" +:+ ":" +:+ q txHash +:+ "}".

(** The operation that writes the commit columns without the checks of
    the commit handler. *)
Definition is_direct_mark (op : Op) : bool :=
  match op with
  | OpMarkSessionCommitted _ _ _ _ => true
  | _ => false
  end.

(** The routes of [RegisterDefaultServices], read as a table: the
    requests that each handler is registered for. *)
Definition default_route (h : HandlerName) (method path : string) : Prop :=
  match h with
  | HCreateSession => method = "POST" /\ path = "/session/start"
  | HScanPackage =>
      method = "GET" /\ exists id, Split path = [""; "session"; id; "scan"]
  | HValidatePackage =>
      method = "POST" /\ exists id, Split path = [""; "session"; id; "validate"]
  | HQualityCheck =>
      method = "POST" /\ exists id, Split path = [""; "session"; id; "qc"]
  | HLabelPackage =>
      method = "POST" /\ exists id, Split path = [""; "session"; id; "label"]
  | HCommitSession =>
      method = "POST" /\ exists id, Split path = [""; "session"; id; "commit"]
  | HInfo => method = "GET" /\ path = "/info"
  end.

End L2.

(** ** Layer 2: configuration (layer-2/config)

    The environment is the function from the name of a variable to its
    value; [os.Getenv] gives the empty string for a variable that is not
    set. *)

Module Config.

Record Config := mkConfig {
  ShardID : string;
  ClientGroup : string;
  L2NodeID : string;
  HTTPPort : string;
  DatabaseHost : string;
  DatabasePort : string;
  DatabaseUser : string;
  DatabasePass : string;
  DatabaseName : string;
  L1Endpoint : string }.

Definition getEnv (env : string -> string) (key defaultValue : string) : string :=
  let value := env key in
  if String.eqb value "" then defaultValue else value.

Definition LoadConfig (env : string -> string) : Config :=
  mkConfig (getEnv env "SHARD_ID" "shard-a")
           (getEnv env "CLIENT_GROUP" "group-a")
           (getEnv env "L2_NODE_ID" "l2-node-a")
           (getEnv env "HTTP_PORT" "6000")
           (getEnv env "DB_HOST" "localhost")
           (getEnv env "DB_PORT" "5433")
           (getEnv env "DB_USER" "postgres")
           (getEnv env "DB_PASS" "postgrespassword")
           (getEnv env "DB_NAME" "l2_shard_db")
           (getEnv env "L1_ENDPOINT" "http://localhost:5000").

(** [Validate]: the error, if any. *)
Definition Validate (c : Config) : option string :=
  if String.eqb (ShardID c) "" then Some "SHARD_ID is required"
  else if String.eqb (ClientGroup c) "" then Some "CLIENT_GROUP is required"
  else if String.eqb (L2NodeID c) "" then Some "L2_NODE_ID is required"
  else if String.eqb (L1Endpoint c) "" then Some "L1_ENDPOINT is required"
  else None.

End Config.

(** ** A JSON reader and printer

    An instance of [L1.Codec] to run the model on concrete transactions and
    request bodies: objects, arrays, strings with the escapes of quote and
    backslash, number literals, [true], [false] and [null]. *)

Module JSON.

Definition quote : ascii := ascii_of_nat 34.
Definition backslash : ascii := ascii_of_nat 92.

Definition is_ws (c : ascii) : bool :=
  let n := N_of_ascii c in ((n =? 32) || (n =? 9) || (n =? 10) || (n =? 13))%N.

(** The characters that stand for themselves in a JSON string: printable
    ASCII other than the double quote and the backslash. *)
Definition plain (c : ascii) : bool :=
  let n := N_of_ascii c in
  ((32 <=? n) && (n <? 127) && negb (n =? 34) && negb (n =? 92))%N.

Fixpoint skip_ws (s : list ascii) : list ascii :=
  match s with
  | c :: rest => if is_ws c then skip_ws rest else s
  | [] => []
  end.

(** The characters of a string up to its closing quote. *)
Fixpoint read_string (s : list ascii) : option (list ascii * list ascii) :=
  match s with
  | [] => None
  | c :: rest =>
      if Ascii.eqb c quote then Some ([], rest)
      else if Ascii.eqb c backslash then
        match rest with
        | e :: rest' =>
            if Ascii.eqb e quote || Ascii.eqb e backslash then
              match read_string rest' with
              | Some (cs, r) => Some (e :: cs, r)
              | None => None
              end
            else None
        | [] => None
        end
      else match read_string rest with
           | Some (cs, r) => Some (c :: cs, r)
           | None => None
           end
  end.

Definition is_num_char (c : ascii) : bool :=
  let n := N_of_ascii c in
  (((48 <=? n) && (n <=? 57)) || (n =? 45) || (n =? 43) || (n =? 46)
   || (n =? 101) || (n =? 69))%N.

Fixpoint read_number (s : list ascii) : list ascii * list ascii :=
  match s with
  | c :: rest =>
      if is_num_char c then let '(cs, r) := read_number rest in (c :: cs, r)
      else ([], s)
  | [] => ([], [])
  end.

Definition strip (word : string) (s : list ascii) : option (list ascii) :=
  let w := list_ascii_of_string word in
  if bool_decide (firstn (List.length w) s = w) then Some (skipn (List.length w) s)
  else None.

(** The reader, by recursive descent; [fuel] bounds the nesting and the
    number of members, the length of the text is always enough. *)
Fixpoint read_value (fuel : nat) (s : list ascii) : option (json * list ascii) :=
  match fuel with
  | O => None
  | S fuel' =>
      match skip_ws s with
      | [] => None
      | c :: rest =>
          if Ascii.eqb c quote then
            match read_string rest with
            | Some (cs, r) => Some (JString (string_of_list_ascii cs), r)
            | None => None
            end
          else if Ascii.eqb c "{"%char then
            match skip_ws rest with
            | c' :: rest' =>
                if Ascii.eqb c' "}"%char then Some (JObject [], rest')
                else match read_members fuel' (c' :: rest') with
                     | Some (ms, r) => Some (JObject ms, r)
                     | None => None
                     end
            | [] => None
            end
          else if Ascii.eqb c "["%char then
            match skip_ws rest with
            | c' :: rest' =>
                if Ascii.eqb c' "]"%char then Some (JArray [], rest')
                else match read_items fuel' (c' :: rest') with
                     | Some (xs, r) => Some (JArray xs, r)
                     | None => None
                     end
            | [] => None
            end
          else if is_num_char c then
            let '(cs, r) := read_number (c :: rest) in
            Some (JNumber (string_of_list_ascii cs), r)
          else
            match strip "true" (c :: rest), strip "false" (c :: rest),
                  strip "null" (c :: rest) with
            | Some r, _, _ => Some (JBool true, r)
            | _, Some r, _ => Some (JBool false, r)
            | _, _, Some r => Some (JNull, r)
            | _, _, _ => None
            end
      end
  end
with read_members (fuel : nat) (s : list ascii)
    : option (list (string * json) * list ascii) :=
  match fuel with
  | O => None
  | S fuel' =>
      match skip_ws s with
      | c :: rest =>
          if Ascii.eqb c quote then
            match read_string rest with
            | Some (key, r) =>
                match skip_ws r with
                | colon :: r' =>
                    if Ascii.eqb colon ":"%char then
                      match read_value fuel' r' with
                      | Some (v, r'') =>
                          match skip_ws r'' with
                          | d :: r3 =>
                              if Ascii.eqb d "}"%char then
                                Some ([(string_of_list_ascii key, v)], r3)
                              else if Ascii.eqb d ","%char then
                                match read_members fuel' r3 with
                                | Some (ms, r4) =>
                                    Some ((string_of_list_ascii key, v) :: ms, r4)
                                | None => None
                                end
                              else None
                          | [] => None
                          end
                      | None => None
                      end
                    else None
                | [] => None
                end
            | None => None
            end
          else None
      | [] => None
      end
  end
with read_items (fuel : nat) (s : list ascii) : option (list json * list ascii) :=
  match fuel with
  | O => None
  | S fuel' =>
      match read_value fuel' s with
      | Some (v, r) =>
          match skip_ws r with
          | d :: r' =>
              if Ascii.eqb d "]"%char then Some ([v], r')
              else if Ascii.eqb d ","%char then
                match read_items fuel' r' with
                | Some (vs, r'') => Some (v :: vs, r'')
                | None => None
                end
              else None
          | [] => None
          end
      | None => None
      end
  end.

(** A whole text: one value and nothing but white space after it. *)
Definition read (text : string) : option json :=
  let s := list_ascii_of_string text in
  match read_value (S (List.length s)) s with
  | Some (v, r) => match skip_ws r with [] => Some v | _ => None end
  | None => None
  end.

Fixpoint escape (s : string) : string :=
  match s with
  | EmptyString => EmptyString
  | String c rest =>
      if Ascii.eqb c quote || Ascii.eqb c backslash
      then String backslash (String c (escape rest))
      else String c (escape rest)
  end.

Definition print_string (s : string) : string := Text.q (escape s).

Fixpoint print (v : json) : string :=
  match v with
  | JNull => "null"
  | JBool true => "true"
  | JBool false => "false"
  | JNumber literal => literal
  | JString s => print_string s
  | JArray items =>
      "[" +:+ (fix go (xs : list json) : string :=
                 match xs with
                 | [] => ""
                 | [x] => print x
                 | x :: xs' => print x +:+ "," +:+ go xs'
                 end) items +:+ "]"
  | JObject members =>
      "{" +:+ (fix go (ms : list (string * json)) : string :=
                 match ms with
                 | [] => ""
                 | [(k, x)] => print_string k +:+ ":" +:+ print x
                 | (k, x) :: ms' => print_string k +:+ ":" +:+ print x +:+ "," +:+ go ms'
                 end) members +:+ "}"
  end.

(** The member of an object with the given key; the last one wins. *)
Fixpoint member (key : string) (ms : list (string * json)) : option json :=
  match ms with
  | [] => None
  | (k, v) :: rest =>
      match member key rest with
      | Some v' => Some v'
      | None => if String.eqb k key then Some v else None
      end
  end.

(** A string field of a struct: absent and [null] leave the zero value,
    any other type is an error. *)
Definition string_field (key : string) (ms : list (string * json)) : option string :=
  match member key ms with
  | None | Some JNull => Some ""
  | Some (JString s) => Some s
  | Some _ => None
  end.

Definition map_field (key : string) (ms : list (string * json)) : option json :=
  match member key ms with
  | None | Some JNull => Some JNull
  | Some (JObject o) => Some (JObject o)
  | Some _ => None
  end.

Definition unmarshal_commit (text : string) : L1.ShardedCommitRequest + string :=
  match read text with
  | None => inr "invalid character in JSON text"
  | Some JNull => inl (L1.mkCommitRequest "" "" "" "" JNull "" "")
  | Some (JObject ms) =>
      match string_field "shard_id" ms, string_field "client_group" ms,
            string_field "session_id" ms, string_field "operator_id" ms,
            map_field "session_data" ms, string_field "l2_node_id" ms,
            string_field "timestamp" ms with
      | Some sh, Some cg, Some se, Some op, Some sd, Some l2, Some ts =>
          inl (L1.mkCommitRequest sh cg se op sd l2 ts)
      | _, _, _, _, _, _, _ => inr "json: cannot unmarshal value into Go struct field"
      end
  | Some _ => inr "json: cannot unmarshal value into Go value of type ShardedCommitRequest"
  end.

Definition marshal_commit (r : L1.ShardedCommitRequest) : string :=
  print (JObject [ ("shard_id", JString (L1.ShardID r));
                   ("client_group", JString (L1.ClientGroup r));
                   ("session_id", JString (L1.SessionID r));
                   ("operator_id", JString (L1.OperatorID r));
                   ("session_data", L1.SessionData r);
                   ("l2_node_id", JString (L1.L2NodeID r));
                   ("timestamp", JString (L1.Timestamp r)) ]).

#[export] Instance codec : L1.Codec := {
  L1.Unmarshal := unmarshal_commit;
  L1.Marshal := marshal_commit;
  L1.MarshalData := print;
  L1.Compact := fun text => print <$> read text;
  L1.Decode := read }.

End JSON.

(** ** Concrete data: the seeded registry, sample requests, sample worlds *)

Module Scenario.
Import Go Text.

(** A ledger store that accepts every write and every commit. *)
Definition accepting_ledger : L1.Ledger :=
  {| L1.set_err := fun _ _ _ => None; L1.commit_err := fun _ _ => None |}.

(** A ledger store that accepts every write and refuses the commit, as
    badger does once its writes are blocked (the text of the error is
    only logged). *)
Definition refusing_commits : L1.Ledger :=
  {| L1.set_err := fun _ _ _ => None;
     L1.commit_err := fun _ _ =>
       Some "Writes are blocked, possibly due to DropAll or Close" |}.

(** A ledger store with badger's bound on keys: [Set] refuses a key of
    more than 65000 bytes (badger's error also gives the size and a dump
    of the key).  The other refusals of badger are left out. *)
Definition key_limited : L1.Ledger :=
  {| L1.set_err := fun _ key _ =>
       if (65000 <? N.of_nat (String.length key))%N
       then Some "Key exceeded 65000 limit" else None;
     L1.commit_err := fun _ _ => None |}.

(** A ledger store whose write transactions take fewer than
    [maxBatchCount] entries: badger's [Set] answers [ErrTxnTooBig] once
    the pending entries and the new one reach that bound (badger derives
    its own bound from the size of the memtable; the bound is a
    parameter here).  Commits are accepted. *)
Definition batch_limited (maxBatchCount : nat) : L1.Ledger :=
  {| L1.set_err := fun txn _ _ =>
       if (maxBatchCount <=? S (size txn))%nat
       then Some "Txn is too big to fit into one request" else None;
     L1.commit_err := fun _ _ => None |}.

(** The shards that [Seed] of layer 1 inserts. *)
Definition l1_seeded : L1.DB :=
  L1.mkDB {[ "shard-a" := L1.mkShardInfo "shard-a" "group-a" "l2-node-a" "active";
             "shard-b" := L1.mkShardInfo "shard-b" "group-b" "l2-node-b" "active" ]}
          ∅ ∅.

(** The commit of session [dup-1] by shard [shard-a]. *)
Definition dup1 : L1.ShardedCommitRequest :=
  L1.mkCommitRequest "shard-a" "group-a" "dup-1" "OPR-001"
    (JObject [("test", JString "data")]) "l2-node-a" "2024-01-01T12:00:00Z".

Definition dup1_body : string := JSON.marshal_commit dup1.

(** A commit of shard [shard-a] for another session. *)
Definition other : L1.ShardedCommitRequest :=
  L1.mkCommitRequest "shard-a" "group-a" "ses-2" "OPR-002" JNull "l2-node-a"
    "2024-01-01T12:00:01Z".

Definition other_body : string := JSON.marshal_commit other.

(** A commit of shard [shard-a] whose session id has 65000 characters. *)
Definition long_session : string := string_of_list_ascii (repeat "a"%char (650 * 100)).

Definition long_commit : L1.ShardedCommitRequest :=
  L1.mkCommitRequest "shard-a" "group-a" long_session "OPR-001"
    (JObject [("test", JString "data")]) "l2-node-a" "2024-01-01T12:00:00Z".

Definition long_body : string := JSON.marshal_commit long_commit.

(** A consensus engine that includes every transaction: the broadcast
    returns at instant [t] with the hash of the transaction bytes and the
    height 1. *)
Definition engine_accepts (t : nat) (tx : string) : L1.Broadcast :=
  L1.mkBroadcast (Some t) (inr (L1.mkBroadcastResult 0 (SHA256.Sum256 tx) 1)) false.

(** An engine whose broadcast fails. *)
Definition engine_fails (t : nat) (tx : string) : L1.Broadcast :=
  L1.mkBroadcast (Some t) (inl "broadcast failed") false.

(** An engine whose broadcast never returns. *)
Definition engine_stalls (tx : string) : L1.Broadcast :=
  L1.mkBroadcast None (inl "") false.

Definition l1_services : L1.ServiceRegistry :=
  L1.RegisterDefaultServices L1.NewServiceRegistry.

Definition l1_world (rpc : string -> L1.Broadcast) : L1.World :=
  L1.mkWorld L1.no_faults rpc [].

(** An order in which the runtime may enumerate the route map of the
    default registry, and a world whose router sees that order. *)
Definition l1_route_order : list L1.RouteKey :=
  [("GET", "/l1/transaction/:hash"); ("GET", "/l1/sessions/group/:group");
   ("POST", "/l1/commit"); ("GET", "/l1/shards"); ("GET", "/l1/status");
   ("GET", "/l1/sessions/shard/:shard")].

Definition l1_query_world : L1.World :=
  L1.mkWorld L1.no_faults engine_stalls l1_route_order.

(** Query handlers that answer 200 with an empty list; they stand for the
    handlers that the properties below do not involve. *)
Definition l1_queries (h : L1.HandlerName) (req : L1.Request) (db : L1.DB)
    : L1.Response * option string :=
  (L1.mkResponse 200 L1.defaultHeaders "[]", None).

(** [POST /l1/commit] with the given body and request context. *)
Definition post_commit (body : string) (ctx : L1.Context) : L1.HttpRequest :=
  L1.mkHttpRequest "POST" "/l1/commit"
    {[ "Content-Type" := ["application/json"] ]} body "10.0.0.7:41000" ctx.

Definition l1_serve (rpc : string -> L1.Broadcast) (db : L1.DB) (id : string)
    (r : L1.HttpRequest) : option L1.Written * L1.DB :=
  L1.handleL1API (H := JSON.codec) l1_queries l1_services (l1_world rpc) db (Some id) r.

(** The index between the admission of [dup-1] and the end of its
    consensus round: the row is there, without transaction hash. *)
Definition pending_dup1 : L1.DB :=
  L1.mkDB (L1.shards l1_seeded)
    {[ "dup-1" := L1.mkSession "dup-1" "shard-a" "group-a" "OPR-001" "committed" true
                    None (JSON.print (L1.SessionData dup1)) ]}
    ∅.

(** Layer 2: shard [shard-a] of group [group-a] with its default routes,
    a registry that knows shard [shard-b], a network on which shard B
    cannot be reached, and an L1 that accepts commits. *)
Definition l2_services : L2.ServiceRegistry :=
  L2.RegisterDefaultServices (L2.NewServiceRegistry "shard-a" "group-a").

Definition l2_world : L2.World :=
  L2.mkWorld
    [ "/session/start"; "/session/:id/validate"; "/session/:id/qc";
      "/session/:id/label"; "/session/:id/commit"; "/session/:id/scan"; "/info" ]
    (fun g => if String.eqb g "group-b"
              then Some (L2.mkShardInfo "shard-b" "group-b" "http://l2-shard-b:7001")
              else None)
    (fun method url body headers => inr "connection refused")
    (fun session group => inl (L2.mkCommitResponse "86261fc8" 7))
    1000.

(** The same shard with one more route, the pattern that the comment of
    [matchPath] gives as its example. *)
Definition l2_services_with_lookup : L2.ServiceRegistry :=
  L2.RegisterHandler l2_services "GET" "/session/:id" L2.HInfo.

(** Stage handlers that answer 200; they stand for the handlers that the
    properties below do not involve. *)
Definition l2_stages (h : L2.HandlerName) (w : L2.World) (db : L2.DB)
    (req : L2.Request) : L2.Outcome * L2.DB :=
  (L2.Ok (L2.mkResponse 200 L2.defaultHeaders "{}"), db).

(** The store after the seed: couriers and packages, no session. *)
Definition l2_seeded : L2.DB :=
  L2.mkDB ∅
    {[ "PKG-001" := L2.mkPackage "PKG-001" "sig_acme_electronics_001" "SUP-001"
                      "pending" false None ]}
    ∅ ∅
    {[ "CUR-001" := L2.mkCourier "CUR-001" "FastShip Express" ]}.

(** Sixteen bytes of the random source. *)
Definition random_a : string := "0123456789abcdef".
Definition random_b : string := "fedcba9876543210".

(** The commit request of a session. *)
Definition l2_commit_request (sessionID : string) : L2.Request :=
  L2.mkRequest "POST" ("/session/" +:+ sessionID +:+ "/commit") "" ∅.

(** The store when session [SES-1] has been labelled: the session is
    completed and not committed. *)
Definition l2_completed : L2.DB :=
  L2.mkDB
    {[ "SES-1" := L2.mkSession "SES-1" "OPR-001" "completed" false (Some "PKG-001")
                    None None None ]}
    {[ "PKG-001" := L2.mkPackage "PKG-001" "sig_acme_electronics_001" "SUP-001"
                      "labeled" true (Some "SES-1") ]}
    {[ "QC-1" := L2.mkQCRecord "QC-1" "SES-1" true "[]" ]}
    {[ "LBL-1" := L2.mkLabel "LBL-1" "SES-1" "CUR-001" "TRK-1" ]}
    {[ "CUR-001" := L2.mkCourier "CUR-001" "FastShip Express" ]}.

(** Operations that follow the commit of [SES-1]: the package is scanned
    again, a label is asked for again, the commit is asked for again. *)
Definition l2_later_ops : list L2.Op :=
  [ L2.OpScanPackage "SES-1" "PKG-001";
    L2.OpLabelPackage random_a random_b "SES-1" "CUR-001";
    L2.OpCommitSessionHandler l2_services l2_world (l2_commit_request "SES-1") ].

End Scenario.

(** * Properties *)

(** ** The height encoding *)

Module HeightFacts.
Import Go Height.

Lemma Z_of_byte_of_Z (z : Z) : Z_of_byte (byte_of_Z z) = z mod 256.
Proof.
  unfold Z_of_byte, byte_of_Z.
  assert (Hr : 0 <= z mod 256 < 256) by (apply Z.mod_pos_bound; lia).
  rewrite N_ascii_embedding.
  - apply Z2N.id. lia.
  - apply N2Z.inj_lt. rewrite Z2N.id by lia. simpl. lia.
Qed.

(** A value in range is left alone by the wrap-around, and so is any
    value congruent to it modulo [2^64]. *)
Lemma wrap_int64_congr (z z' : Z) :
  int64_range z' -> (z - z') mod 2 ^ 64 = 0 -> wrap_int64 z = z'.
Proof.
  unfold int64_range, wrap_int64. intros Hr Hc.
  apply Z.mod_divide in Hc; [| lia]. destruct Hc as [k Hk].
  replace (z + 2 ^ 63) with ((z' + 2 ^ 63) + k * 2 ^ 64) by lia.
  rewrite Z.mod_add by lia. rewrite Z.mod_small by lia. lia.
Qed.

(** Bitwise or of a multiple of [2^n] and a number below [2^n] is their
    sum. *)
Lemma lor_high_low (a b n : Z) :
  0 <= n -> 0 <= b < 2 ^ n -> Z.lor (a * 2 ^ n) b = a * 2 ^ n + b.
Proof.
  intros Hn Hb.
  assert (Hland : Z.land (a * 2 ^ n) b = 0).
  { apply Z.bits_inj'. intros m Hm. rewrite Z.land_spec, Z.bits_0.
    destruct (Z.lt_ge_cases m n) as [Hlt | Hge].
    - rewrite Z.mul_pow2_bits_low by lia. reflexivity.
    - replace b with (b mod 2 ^ n) by (apply Z.mod_small; lia).
      rewrite Z.mod_pow2_bits_high by lia. apply andb_false_r. }
  rewrite <- Z.lxor_lor by exact Hland.
  symmetry. apply Z.add_nocarry_lxor. exact Hland.
Qed.

(** One step of the reassembly: the bytes above position [s] joined with
    the byte at position [s]. *)
Lemma lor_step (i s : Z) :
  0 <= s ->
  Z.lor (i / 2 ^ (s + 8) * 2 ^ (s + 8)) ((i / 2 ^ s) mod 256 * 2 ^ s)
  = i / 2 ^ s * 2 ^ s.
Proof.
  intros Hs.
  assert (Hp : 0 < 2 ^ s) by (apply Z.pow_pos_nonneg; lia).
  assert (Hb : 0 <= (i / 2 ^ s) mod 256 < 256) by (apply Z.mod_pos_bound; lia).
  rewrite lor_high_low; [| lia |].
  - rewrite Z.pow_add_r by lia. change (2 ^ 8) with 256.
    rewrite <- Z.div_div by lia.
    pose proof (Z.div_mod (i / 2 ^ s) 256 ltac:(lia)) as Hdm. nia.
  - rewrite Z.pow_add_r by lia. change (2 ^ 8) with 256. nia.
Qed.

Lemma shl64_small (x s : Z) :
  0 <= x < 256 -> 0 <= s <= 48 -> shl64 x s = x * 2 ^ s.
Proof.
  intros Hx Hs. unfold shl64. rewrite Z.shiftl_mul_pow2 by lia.
  assert (Hp : 0 < 2 ^ s) by (apply Z.pow_pos_nonneg; lia).
  assert (Hle : 2 ^ s <= 2 ^ 48) by (apply Z.pow_le_mono_r; lia).
  apply wrap_int64_congr.
  - unfold int64_range. split; [nia |].
    apply Z.le_lt_trans with (255 * 2 ^ 48); [nia | reflexivity].
  - rewrite Z.sub_diag. reflexivity.
Qed.

Lemma shl64_top (i : Z) :
  int64_range i -> shl64 ((i / 2 ^ 56) mod 256) 56 = i / 2 ^ 56 * 2 ^ 56.
Proof.
  unfold int64_range. intros Hi. unfold shl64.
  rewrite Z.shiftl_mul_pow2 by lia.
  apply wrap_int64_congr.
  - unfold int64_range.
    pose proof (Z.div_mod i (2 ^ 56) ltac:(lia)) as Hdm.
    pose proof (Z.mod_pos_bound i (2 ^ 56) ltac:(lia)) as Hm.
    assert (-128 <= i / 2 ^ 56 < 128).
    { split.
      - apply Z.div_le_lower_bound; lia.
      - apply Z.div_lt_upper_bound; lia. }
    lia.
  - pose proof (Z.div_mod (i / 2 ^ 56) 256 ltac:(lia)) as Hdm.
    replace ((i / 2 ^ 56) mod 256 * 2 ^ 56 - i / 2 ^ 56 * 2 ^ 56)
      with (- (i / 2 ^ 56 / 256) * 2 ^ 64) by lia.
    apply Z.mod_mul. lia.
Qed.

(** C10. For every [int64] value [i], [bytesToInt64 (int64ToBytes i) = i]:
    the 8-byte big-endian encoding of the block height round-trips; and
    for every byte slice [buf] shorter than 8 bytes [bytesToInt64 buf] is
    0, it does not fail. *)
Theorem bytesToInt64_int64ToBytes (i : Z) (buf : string) :
  (int64_range i -> bytesToInt64 (int64ToBytes i) = i) /\
  ((String.length buf < 8)%nat -> bytesToInt64 buf = 0).
Proof.
  split.
  - intros Hi. unfold bytesToInt64, int64ToBytes.
    cbn [String.length Nat.ltb Nat.leb at64 String.get].
    rewrite !Z_of_byte_of_Z. unfold shr64. rewrite !Z.shiftr_div_pow2 by lia.
    rewrite (shl64_top i Hi).
    rewrite !shl64_small by (first [apply Z.mod_pos_bound; lia | lia]).
    change (2 ^ 56) with (2 ^ (48 + 8)). rewrite (lor_step i 48) by lia.
    change (2 ^ 48) with (2 ^ (40 + 8)). rewrite (lor_step i 40) by lia.
    change (2 ^ 40) with (2 ^ (32 + 8)). rewrite (lor_step i 32) by lia.
    change (2 ^ 32) with (2 ^ (24 + 8)). rewrite (lor_step i 24) by lia.
    change (2 ^ 24) with (2 ^ (16 + 8)). rewrite (lor_step i 16) by lia.
    change (2 ^ 16) with (2 ^ (8 + 8)). rewrite (lor_step i 8) by lia.
    replace (i mod 256) with ((i / 2 ^ 0) mod 256 * 2 ^ 0)
      by (change (2 ^ 0) with 1; rewrite Z.div_1_r; lia).
    change (2 ^ 8) with (2 ^ (0 + 8)). rewrite (lor_step i 0) by lia.
    change (2 ^ 0) with 1. rewrite Z.div_1_r. lia.
  - intros Hlen. unfold bytesToInt64.
    destruct (String.length buf <? 8)%nat eqn:E; [reflexivity |].
    apply Nat.ltb_ge in E. lia.
Qed.

Lemma bytesToInt64_int64ToBytes_witness :
  int64_range (- 2 ^ 63) /\ (String.length "1234567" < 8)%nat /\
  bytesToInt64 (int64ToBytes (- 2 ^ 63)) = - 2 ^ 63 /\ bytesToInt64 "1234567" = 0.
Proof.
  assert (Hr : int64_range (- 2 ^ 63)) by (unfold int64_range; lia).
  assert (Hl : (String.length "1234567" < 8)%nat) by (simpl; lia).
  destruct (bytesToInt64_int64ToBytes (- 2 ^ 63) "1234567") as [H1 H2].
  exact (conj Hr (conj Hl (conj (H1 Hr) (H2 Hl)))).
Defined.

End HeightFacts.

(** ** The ABCI application *)

Module AppFacts.
Import Go L1.

Lemma append_nil_r (s : string) : s +:+ "" = s.
Proof. induction s as [| c s IH]; [reflexivity |]. step_append. now rewrite IH. Qed.

Lemma append_assoc (a b c : string) : (a +:+ b) +:+ c = a +:+ (b +:+ c).
Proof. induction a as [| x a IH]; [reflexivity |]. step_append. now rewrite IH. Qed.

Lemma fold_left_data (rs : list ExecTxResult) (acc : string) :
  fold_left (fun acc result => acc +:+ tx_Data result) rs acc
  = acc +:+ concat_strings (map tx_Data rs).
Proof.
  revert acc. induction rs as [| r rs IH]; intros acc; simpl.
  - symmetry. apply append_nil_r.
  - rewrite IH. apply append_assoc.
Qed.

(** [calculateAppHash] is the digest of the concatenated [Data] fields. *)
Lemma calculateAppHash_concat (rs : list ExecTxResult) :
  calculateAppHash rs = SHA256.Sum256 (concat_strings (map tx_Data rs)).
Proof. unfold calculateAppHash. now rewrite fold_left_data. Qed.

Section WithLibraries.
Context `{Codec} `{Ledger}.

Lemma finalizeTxs_app (txn : Txn) (a b : list string) :
  finalizeTxs txn (a ++ b)
  = let '(t1, r1) := finalizeTxs txn a in
    let '(t2, r2) := finalizeTxs t1 b in
    (t2, (r1 ++ r2)%list).
Proof.
  revert txn. induction a as [| x a IH]; intros txn; simpl.
  - destruct (finalizeTxs txn b); reflexivity.
  - destruct (finalizeTx txn x) as [t1 r]. rewrite IH.
    destruct (finalizeTxs t1 a) as [t2 rs]. destruct (finalizeTxs t2 b). reflexivity.
Qed.

Lemma finalizeTxs_length (txn : Txn) (txs : list string) :
  List.length (snd (finalizeTxs txn txs)) = List.length txs.
Proof.
  revert txn. induction txs as [| x txs IH]; intros txn; simpl; [reflexivity |].
  destruct (finalizeTx txn x) as [t1 r]. specialize (IH t1).
  destruct (finalizeTxs t1 txs). simpl in *. now rewrite IH.
Qed.

(** The result at position [i] is the result of the transaction at
    position [i], run on the state that the earlier ones left. *)
Lemma finalizeTxs_lookup (txn : Txn) (txs : list string) (i : nat) (tx : string) :
  txs !! i = Some tx ->
  snd (finalizeTxs txn txs) !! i
  = Some (snd (finalizeTx (fst (finalizeTxs txn (take i txs))) tx)).
Proof.
  revert txn i. induction txs as [| x txs IH]; intros txn i Hi; [discriminate |].
  destruct i as [| i]; simpl in *.
  - injection Hi as ->. destruct (finalizeTx txn tx) as [t1 r].
    destruct (finalizeTxs t1 txs). reflexivity.
  - destruct (finalizeTx txn x) as [t1 r]. specialize (IH t1 i Hi).
    destruct (finalizeTxs t1 txs) as [t2 rs].
    destruct (finalizeTxs t1 (take i txs)) as [t3 rs3]. exact IH.
Qed.

(** The results of a block: one per transaction, at the position of
    the transaction in the request. *)
Lemma FinalizeBlock_results (app : Application) (req : FinalizeBlockRequest) :
  List.length (TxResults (fst (FinalizeBlock app req))) = List.length (Txs req)
  /\ forall i tx, Txs req !! i = Some tx ->
       TxResults (fst (FinalizeBlock app req)) !! i
       = Some (snd (finalizeTx (fst (finalizeTxs ∅ (take i (Txs req)))) tx)).
Proof.
  unfold FinalizeBlock.
  pose proof (finalizeTxs_length ∅ (Txs req)) as Hlen.
  pose proof (finalizeTxs_lookup ∅ (Txs req)) as Hlook.
  destruct (finalizeTxs ∅ (Txs req)) as [txn1 rs]. cbn [fst snd TxResults] in *.
  split; [exact Hlen | exact Hlook].
Qed.

(** The transactions of a block do not write the two block keys. *)
Lemma finalizeTx_block_key (txn : Txn) (tx key : string) :
  key = "last_block_height" \/ key = "last_block_app_hash" ->
  fst (finalizeTx txn tx) !! key = txn !! key.
Proof.
  intros Hkey. unfold finalizeTx. destruct (Unmarshal tx) as [c | e]; [| reflexivity].
  unfold storeShardCommit, Txn_Set.
  destruct (set_err txn _ tx); cbn [fst]; [reflexivity |].
  destruct (set_err _ _ tx); cbn [fst];
    destruct (set_err _ _ "accepted"); cbn [fst];
    rewrite ?lookup_insert_ne
      by (destruct Hkey as [-> | ->]; cbv [String.append]; discriminate);
    reflexivity.
Qed.

Lemma finalizeTxs_block_key (txs : list string) (txn : Txn) (key : string) :
  key = "last_block_height" \/ key = "last_block_app_hash" ->
  fst (finalizeTxs txn txs) !! key = txn !! key.
Proof.
  intros Hkey. revert txn. induction txs as [| tx txs IH]; intros txn;
    cbn [finalizeTxs]; [reflexivity |].
  pose proof (finalizeTx_block_key txn tx key Hkey) as Hstep.
  destruct (finalizeTx txn tx) as [txn1 r]. specialize (IH txn1).
  destruct (finalizeTxs txn1 txs) as [txn2 rs]. cbn [fst] in *. congruence.
Qed.


End WithLibraries.

(** *** Digests and their hexadecimal form *)

Lemma string_of_list_ascii_length (l : list ascii) :
  String.length (string_of_list_ascii l) = List.length l.
Proof. induction l as [| c l IH]; simpl; [reflexivity | now rewrite IH]. Qed.

(** A SHA-256 digest has 32 bytes. *)
Lemma Sum256_length (data : string) : String.length (SHA256.Sum256 data) = 32%nat.
Proof.
  unfold SHA256.Sum256, SHA256.string_of_bytes.
  rewrite string_of_list_ascii_length, length_map. reflexivity.
Qed.

Lemma EncodeToString_length (bs : string) :
  String.length (EncodeToString bs) = (2 * String.length bs)%nat.
Proof. induction bs as [| b bs IH]; simpl; [reflexivity | rewrite IH; lia]. Qed.

Lemma hex_digits_lower (b : ascii) :
  is_lower_hex (hex_digit (N_of_ascii b / 16)) = true
  /\ is_lower_hex (hex_digit (N_of_ascii b mod 16)) = true.
Proof. destruct b as [[] [] [] [] [] [] [] []]; split; reflexivity. Qed.

(** [hex.EncodeToString] prints lowercase hexadecimal digits only. *)
Lemma EncodeToString_lower_hex (bs : string) :
  all_chars is_lower_hex (EncodeToString bs) = true.
Proof.
  induction bs as [| b bs IH]; [reflexivity |].
  cbn [EncodeToString all_chars]. destruct (hex_digits_lower b) as [-> ->].
  exact IH.
Qed.

Lemma generateTxID_hex (sessionID shardID : string) :
  String.length (generateTxID sessionID shardID) = 64%nat
  /\ all_chars is_lower_hex (generateTxID sessionID shardID) = true.
Proof.
  unfold generateTxID. split.
  - rewrite EncodeToString_length, Sum256_length. reflexivity.
  - apply EncodeToString_lower_hex.
Qed.

Section Transactions.
Context `{Codec} `{Ledger}.

(** The state of the block's write transaction when the transaction at
    position [i] is reached, and when it has been processed. *)
Lemma finalizeTxs_take_S (txn : Txn) (txs : list string) (i : nat) (tx : string) :
  txs !! i = Some tx ->
  fst (finalizeTxs txn (take (S i) txs))
  = fst (finalizeTx (fst (finalizeTxs txn (take i txs))) tx).
Proof.
  intros Hi. rewrite (take_S_r _ _ _ Hi), finalizeTxs_app.
  destruct (finalizeTxs txn (take i txs)) as [t1 r1]. simpl.
  destruct (finalizeTx t1 tx) as [t2 r2]. reflexivity.
Qed.

Lemma finalizeTxs_split (txn : Txn) (txs : list string) (i : nat) :
  fst (finalizeTxs txn txs)
  = fst (finalizeTxs (fst (finalizeTxs txn (take i txs))) (drop i txs)).
Proof.
  rewrite <- (take_drop i txs) at 1. rewrite finalizeTxs_app.
  destruct (finalizeTxs txn (take i txs)) as [t1 r1]. simpl.
  destruct (finalizeTxs t1 (drop i txs)). reflexivity.
Qed.

(** The three keys of a shard commit differ from one another. *)
Lemma commit_keys_distinct (txID shard session : string) :
  "tx:" +:+ txID <> "shard:" +:+ shard +:+ ":session:" +:+ session
  /\ "tx:" +:+ txID <> "status:" +:+ txID
  /\ "shard:" +:+ shard +:+ ":session:" +:+ session <> "status:" +:+ txID.
Proof. repeat split; cbv [String.append]; discriminate. Qed.

(** The step of a transaction whose second write the store refuses: the
    refusal is only logged. *)
Lemma finalizeTx_second_write_refused (txn : Txn) (tx : string) (c : ShardedCommitRequest)
    (err : string) :
  Unmarshal tx = inl c ->
  let txID := EncodeToString (SHA256.Sum256 (SessionID c +:+ ShardID c)) in
  let txKey := "tx:" +:+ txID in
  let shardKey := "shard:" +:+ ShardID c +:+ ":session:" +:+ SessionID c in
  let statusKey := "status:" +:+ txID in
  set_err txn txKey tx = None ->
  set_err (<[txKey := tx]> txn) shardKey tx = Some err ->
  set_err (<[txKey := tx]> txn) statusKey "accepted" = None ->
  finalizeTx txn tx
  = (<[statusKey := "accepted"]> (<[txKey := tx]> txn),
     mkExecTxResult 0 txID "accepted"
       [ mkEvent "l1_shard_commit"
           [ mkAttr "session_id" (SessionID c) true;
             mkAttr "shard_id" (ShardID c) true;
             mkAttr "client_group" (ClientGroup c) true;
             mkAttr "tx_id" txID true;
             mkAttr "status" "accepted" true ] ]).
Proof.
  intros Hc txID txKey shardKey statusKey H1 H2 H3.
  unfold finalizeTx. rewrite Hc.
  unfold storeShardCommit, Txn_Set, generateTxID. cbv zeta.
  unfold txKey, shardKey, statusKey, txID in H1, H2, H3.
  rewrite H1. cbn [fst]. rewrite H2. cbn [fst]. rewrite H3. reflexivity.
Qed.

(** C3, as the code has it.  For every transaction of a block that
    decodes as a shard commit, the transaction id is the lowercase
    hexadecimal form (64 digits) of SHA-256(session_id ++ shard_id).
    When the ledger store accepts the three writes of the transaction,
    the result at the position of the transaction has code 0, the id as
    data and one event [l1_shard_commit] with the indexed attributes
    session_id, shard_id, client_group, tx_id, status; and in the
    block's write transaction the step made for this transaction
    writes exactly three keys: [tx:<tx_id>] and
    [shard:<shard_id>:session:<session_id>] with the raw bytes and
    [status:<tx_id>] with [accepted], every other key keeping its
    value.  When the store refuses the first of the writes, that of
    [tx:<tx_id>], the result has code 3 and the log
    [Database error: <error>], no data and no event, and the step
    writes nothing.  The transaction that [FinalizeBlock] leaves open
    is this one, continued by the later transactions of the block and
    the writes of the two block keys. *)
Theorem FinalizeBlock_stores_commit (app : Application) (req : FinalizeBlockRequest)
    (i : nat) (tx : string) (c : ShardedCommitRequest) :
  Txs req !! i = Some tx ->
  Unmarshal tx = inl c ->
  let txID := EncodeToString (SHA256.Sum256 (SessionID c +:+ ShardID c)) in
  let txKey := "tx:" +:+ txID in
  let shardKey := "shard:" +:+ ShardID c +:+ ":session:" +:+ SessionID c in
  let statusKey := "status:" +:+ txID in
  let before := fst (finalizeTxs ∅ (take i (Txs req))) in
  let after := fst (finalizeTxs ∅ (take (S i) (Txs req))) in
  let resp := fst (FinalizeBlock app req) in
  String.length txID = 64%nat
  /\ all_chars is_lower_hex txID = true
  /\ (set_err before txKey tx = None ->
      set_err (<[txKey := tx]> before) shardKey tx = None ->
      set_err (<[shardKey := tx]> (<[txKey := tx]> before)) statusKey "accepted" = None ->
      TxResults resp !! i
      = Some (mkExecTxResult 0 txID "accepted"
                [ mkEvent "l1_shard_commit"
                    [ mkAttr "session_id" (SessionID c) true;
                      mkAttr "shard_id" (ShardID c) true;
                      mkAttr "client_group" (ClientGroup c) true;
                      mkAttr "tx_id" txID true;
                      mkAttr "status" "accepted" true ] ])
      /\ after !! txKey = Some tx
      /\ after !! shardKey = Some tx
      /\ after !! statusKey = Some "accepted"
      /\ (forall key, key <> txKey -> key <> shardKey -> key <> statusKey ->
            after !! key = before !! key))
  /\ (forall err, set_err before txKey tx = Some err ->
        TxResults resp !! i
        = Some (mkExecTxResult 3 "" ("Database error: " +:+ err) [])
        /\ after = before)
  /\ onGoingBlock (snd (FinalizeBlock app req))
     = Some (fst (Txn_Set
                    (fst (Txn_Set (fst (finalizeTxs after (drop (S i) (Txs req))))
                            "last_block_height" (Height.int64ToBytes (Height req))))
                    "last_block_app_hash" (AppHash resp))).
Proof.
  intros Hi Hc txID txKey shardKey statusKey before after resp.
  destruct (generateTxID_hex (SessionID c) (ShardID c)) as [Hlen Hhex].
  destruct (commit_keys_distinct txID (ShardID c) (SessionID c)) as (D1 & D2 & D3).
  fold txKey shardKey statusKey in D1, D2, D3.
  assert (D1' : shardKey <> txKey) by (intros E; apply D1; now symmetry).
  assert (D2' : statusKey <> txKey) by (intros E; apply D2; now symmetry).
  assert (D3' : statusKey <> shardKey) by (intros E; apply D3; now symmetry).
  assert (Hafter : after = fst (finalizeTx before tx)).
  { unfold after, before. now rewrite (finalizeTxs_take_S _ _ _ _ Hi). }
  assert (Hres : TxResults resp !! i = Some (snd (finalizeTx before tx))).
  { unfold resp, before. now apply FinalizeBlock_results. }
  split_and!.
  - exact Hlen.
  - exact Hhex.
  - intros H1 H2 H3.
    assert (Hstep : finalizeTx before tx
                    = (<[statusKey := "accepted"]>
                         (<[shardKey := tx]> (<[txKey := tx]> before)),
                       mkExecTxResult 0 txID "accepted"
                         [ mkEvent "l1_shard_commit"
                             [ mkAttr "session_id" (SessionID c) true;
                               mkAttr "shard_id" (ShardID c) true;
                               mkAttr "client_group" (ClientGroup c) true;
                               mkAttr "tx_id" txID true;
                               mkAttr "status" "accepted" true ] ])).
    { unfold finalizeTx. rewrite Hc.
      unfold storeShardCommit, Txn_Set, generateTxID. cbv zeta.
      unfold txKey, shardKey, statusKey, txID in H1, H2, H3.
      rewrite H1. cbn [fst]. rewrite H2. cbn [fst]. rewrite H3. reflexivity. }
    rewrite Hres, Hafter, Hstep. cbn [fst snd]. split_and!.
    + reflexivity.
    + rewrite lookup_insert_ne by assumption.
      rewrite lookup_insert_ne by assumption. apply lookup_insert_eq.
    + rewrite lookup_insert_ne by assumption. apply lookup_insert_eq.
    + apply lookup_insert_eq.
    + intros key N1 N2 N3.
      rewrite !lookup_insert_ne by (intros E; symmetry in E; contradiction).
      reflexivity.
  - intros err H1.
    assert (Hstep : finalizeTx before tx
                    = (before, mkExecTxResult 3 "" ("Database error: " +:+ err) [])).
    { unfold finalizeTx. rewrite Hc.
      unfold storeShardCommit, Txn_Set, generateTxID. cbv zeta.
      unfold txKey, txID in H1. now rewrite H1. }
    rewrite Hres, Hafter, Hstep. split; reflexivity.
  - unfold resp, FinalizeBlock.
    rewrite (surjective_pairing (finalizeTxs ∅ (Txs req))). cbn [fst snd onGoingBlock].
    unfold after. rewrite <- (finalizeTxs_split ∅ (Txs req) (S i)). reflexivity.
Qed.

(** C8. [FinalizeBlock] is a total function of the block, whatever the
    bytes of its transactions.  A transaction whose bytes do not decode
    gets the result with code 1 and log [Invalid shard commit format];
    the response and the write transaction of the block are those of
    the block without that transaction, apart from this one result: no
    key is written for it, the app hash is unchanged by it (its [Data]
    is empty), and the other transactions are processed as they are
    without it. *)
Theorem FinalizeBlock_invalid_tx (app : Application) (pre post : list string)
    (tx err : string) (height : Z) :
  Unmarshal tx = inr err ->
  let resp := fst (FinalizeBlock app (mkFinalizeBlockRequest (pre ++ tx :: post) height)) in
  let app' := snd (FinalizeBlock app (mkFinalizeBlockRequest (pre ++ tx :: post) height)) in
  let resp0 := fst (FinalizeBlock app (mkFinalizeBlockRequest (pre ++ post) height)) in
  let app0 := snd (FinalizeBlock app (mkFinalizeBlockRequest (pre ++ post) height)) in
  TxResults resp !! List.length pre
    = Some (mkExecTxResult 1 "" "Invalid shard commit format" [])
  /\ TxResults resp
     = (take (List.length pre) (TxResults resp0)
        ++ mkExecTxResult 1 "" "Invalid shard commit format" []
           :: drop (List.length pre) (TxResults resp0))%list
  /\ List.length (TxResults resp) = List.length (pre ++ tx :: post)
  /\ fst (finalizeTxs ∅ (pre ++ [tx])) = fst (finalizeTxs ∅ pre)
  /\ AppHash resp = AppHash resp0
  /\ app' = app0.
Proof.
  intros Hbad.
  assert (Hstep : forall txn, finalizeTx txn tx
            = (txn, mkExecTxResult 1 "" "Invalid shard commit format" [])).
  { intros txn. unfold finalizeTx. now rewrite Hbad. }
  assert (Hlen : List.length (snd (finalizeTxs ∅ pre)) = List.length pre)
    by apply finalizeTxs_length.
  assert (Hall : finalizeTxs ∅ (pre ++ tx :: post)
            = (fst (finalizeTxs ∅ (pre ++ post)),
               (take (List.length pre) (snd (finalizeTxs ∅ (pre ++ post)))
                ++ mkExecTxResult 1 "" "Invalid shard commit format" []
                   :: drop (List.length pre) (snd (finalizeTxs ∅ (pre ++ post))))%list)).
  { rewrite !finalizeTxs_app. destruct (finalizeTxs ∅ pre) as [t1 r1]. simpl in Hlen.
    cbn [finalizeTxs]. rewrite Hstep.
    destruct (finalizeTxs t1 post) as [t2 r2]. cbn [fst snd].
    rewrite <- Hlen. rewrite take_app_length, drop_app_length. reflexivity. }
  assert (Hdata : forall rs,
            concat_strings (map tx_Data
              (take (List.length pre) rs
               ++ mkExecTxResult 1 "" "Invalid shard commit format" []
                  :: drop (List.length pre) rs)%list)
            = concat_strings (map tx_Data rs)).
  { intros rs. rewrite <- (take_drop (List.length pre) rs) at 3.
    rewrite !map_app. cbn [map tx_Data].
    generalize (map tx_Data (take (List.length pre) rs)) as l1.
    generalize (map tx_Data (drop (List.length pre) rs)) as l2.
    intros l2 l1. induction l1 as [| x l1 IH]; [reflexivity |].
    cbn [List.app concat_strings foldr]. f_equal. exact IH. }
  cbv zeta. unfold FinalizeBlock. cbn [Txs L1.Height]. rewrite Hall.
  destruct (finalizeTxs ∅ (pre ++ post)) as [t0 rs0] eqn:E0.
  cbn [fst snd TxResults AppHash].
  assert (Hlen0 : List.length rs0 = List.length (pre ++ post)).
  { pose proof (finalizeTxs_length ∅ (pre ++ post)) as L. now rewrite E0 in L. }
  assert (Hhash : calculateAppHash
            (take (List.length pre) rs0
             ++ mkExecTxResult 1 "" "Invalid shard commit format" []
                :: drop (List.length pre) rs0)%list = calculateAppHash rs0).
  { rewrite !calculateAppHash_concat. now rewrite Hdata. }
  rewrite !length_app in Hlen0.
  split_and!.
  - rewrite lookup_app_r by (rewrite length_take; lia).
    rewrite length_take. replace (_ - _)%nat with 0%nat by lia. reflexivity.
  - reflexivity.
  - rewrite length_app. cbn [List.length]. rewrite length_take, length_drop.
    rewrite !length_app. cbn [List.length]. lia.
  - rewrite finalizeTxs_app. destruct (finalizeTxs ∅ pre) as [t1 r1].
    cbn [finalizeTxs]. rewrite Hstep. reflexivity.
  - exact Hhash.
  - now rewrite Hhash.
Qed.

End Transactions.


End AppFacts.

(** ** The L1 commit pipeline *)

Module CommitFacts.
Import Go Text L1.

Section WithCodec.
Context `{Codec}.
Variable rpc : string -> Broadcast.

(** *** Admission *)

(** A successful admission inserts the row of the session, with the
    committed flag set and no transaction hash yet, and changes nothing
    else. *)
Lemma preInsert_inserts (faults : DbFaults) (db db1 : DB) (c : ShardedCommitRequest)
    (session : Session) :
  preInsert faults db c = inr (db1, session) ->
  sessions db !! SessionID c = None
  /\ is_Some (shards db !! ShardID c)
  /\ se_ID session = SessionID c
  /\ se_TxHash session = None
  /\ db1 = mkDB (shards db) (<[SessionID c := session]> (sessions db)) (transactions db).
Proof.
  unfold preInsert. intros Hadm.
  destruct (f_begin faults); [discriminate |].
  destruct (f_find_shard faults); [discriminate |].
  destruct (shards db !! ShardID c) eqn:Hs; [| discriminate].
  cbn [se_ID] in Hadm.
  destruct (sessions db !! SessionID c) eqn:Hrow; [discriminate |].
  destruct (f_create_session faults); [discriminate |].
  destruct (f_commit_first faults); [discriminate |].
  injection Hadm as <- <-. cbn [se_ID se_TxHash]. eauto 10.
Qed.

(** While the row of a session exists, the admission of a request for
    that session by a registered shard answers [SESSION_EXISTS] and leaves
    the index as it is. *)
Lemma preInsert_duplicate (faults : DbFaults) (db : DB) (c : ShardedCommitRequest) :
  f_begin faults = None -> f_find_shard faults = None ->
  is_Some (shards db !! ShardID c) ->
  is_Some (sessions db !! SessionID c) ->
  preInsert faults db c
  = inl (mkRepoError "SESSION_EXISTS" "Session already exists"
           ("Session " +:+ SessionID c +:+ " already committed")).
Proof.
  intros Hb Hf [sh Hs] [row Hrow]. unfold preInsert.
  rewrite Hb, Hf, Hs. cbn [se_ID]. now rewrite Hrow.
Qed.

Lemma ReceiveShardCommit_duplicate (faults : DbFaults) (db : DB)
    (c : ShardedCommitRequest) :
  f_begin faults = None -> f_find_shard faults = None ->
  is_Some (shards db !! ShardID c) ->
  is_Some (sessions db !! SessionID c) ->
  ReceiveShardCommit rpc faults db c
  = (Some (inr (mkRepoError "SESSION_EXISTS" "Session already exists"
                  ("Session " +:+ SessionID c +:+ " already committed"))), db).
Proof.
  intros Hb Hf Hs Hrow. unfold ReceiveShardCommit.
  now rewrite (preInsert_duplicate faults db c Hb Hf Hs Hrow).
Qed.

(** *** Consensus and the rollback *)

Lemma Delete_session_lookup (faults : DbFaults) (db : DB) (session : Session) :
  f_delete faults = None ->
  se_ID session <> "" ->
  sessions (Delete_session faults db session) !! se_ID session = None.
Proof.
  intros Hdel Hne. unfold Delete_session.
  rewrite Hdel, bool_decide_eq_false_2 by exact Hne.
  cbn [sessions]. apply lookup_delete_eq.
Qed.

(** A delete that fails leaves the index as it is. *)
Lemma Delete_session_failed (faults : DbFaults) (db : DB) (session : Session) :
  is_Some (f_delete faults) -> Delete_session faults db session = db.
Proof. intros [e He]. unfold Delete_session. now rewrite He. Qed.

(** The second transaction keeps the row of the session, whether it
    commits or rolls back. *)
Lemma record_tx_keeps_row (faults : DbFaults) (db : DB) (c : ShardedCommitRequest)
    (session : Session) (res : ConsensusResult) :
  is_Some (sessions db !! se_ID session) ->
  is_Some (sessions (snd (record_tx faults db c session res)) !! se_ID session).
Proof.
  intros Hrow. unfold record_tx.
  destruct (f_save_session faults); [exact Hrow |].
  cbn [tr_SessionID].
  destruct (transactions db !! SessionID c); [exact Hrow |].
  destruct (f_create_tx faults); [exact Hrow |].
  destruct (f_commit_final faults); [exact Hrow |].
  cbn [snd sessions se_ID]. rewrite lookup_insert_eq. eauto.
Qed.

(** The rollback when the delete statement does its work.  For every
    commit request with a non-empty session id that is admitted (the
    index row is pre-inserted and committed), and a delete that does
    not fail: if the consensus submission fails, [ReceiveShardCommit]
    returns that error together with an index from which the
    pre-inserted row has been deleted, so a later lookup of the session
    id finds no row; and for every call that returns, the row is absent
    afterwards if and only if consensus failed. *)
Theorem consensus_failure_deletes_row (faults : DbFaults) (db db1 : DB)
    (c : ShardedCommitRequest) (session : Session) :
  f_delete faults = None ->
  SessionID c <> "" ->
  preInsert faults db c = inr (db1, session) ->
  sessions db1 !! SessionID c = Some session
  /\ (forall repoErr,
        RunConsensus rpc Background c = Some (inr repoErr) ->
        ReceiveShardCommit rpc faults db c
        = (Some (inr repoErr), Delete_session faults db1 session)
        /\ sessions (Delete_session faults db1 session) !! SessionID c = None)
  /\ (forall result db',
        ReceiveShardCommit rpc faults db c = (Some result, db') ->
        (sessions db' !! SessionID c = None
         <-> exists repoErr, RunConsensus rpc Background c = Some (inr repoErr))).
Proof.
  intros Hdel Hne Hadm.
  destruct (preInsert_inserts faults db db1 c session Hadm) as (Hfresh & Hsh & Hid & Htx & ->).
  assert (Hrow : sessions (mkDB (shards db) (<[SessionID c := session]> (sessions db))
                             (transactions db)) !! SessionID c = Some session)
    by (cbn [sessions]; apply lookup_insert_eq).
  split_and!.
  - exact Hrow.
  - intros repoErr Hcons. unfold ReceiveShardCommit, settle.
    rewrite Hadm, Hcons. split; [reflexivity |].
    rewrite <- Hid. apply Delete_session_lookup; [exact Hdel | now rewrite Hid].
  - intros result db'. unfold ReceiveShardCommit, settle. rewrite Hadm.
    destruct (RunConsensus rpc Background c) as [[res | repoErr] |] eqn:Hcons.
    + pose proof (record_tx_keeps_row faults _ c session res
                    ltac:(rewrite Hid, Hrow; eauto)) as Hkeep.
      destruct (record_tx faults _ c session res) as [r dbf]. cbn [snd] in Hkeep.
      intros [= <- <-]. rewrite Hid in Hkeep. split.
      * intros Hnone. rewrite Hnone in Hkeep. destruct Hkeep as [? ?]. discriminate.
      * intros [e He]. discriminate.
    + intros [= <- <-]. split; [eauto |]. intros _.
      rewrite <- Hid. apply Delete_session_lookup; [exact Hdel | now rewrite Hid].
    + discriminate.
Qed.

(** *** The context of the consensus call *)

Lemma RunConsensus_timeout_iff_done (ctx : Context) (c : ShardedCommitRequest)
    (e : RepositoryError) :
  RunConsensus rpc ctx c = Some (inr e) -> Code e = "CONSENSUS_TIMEOUT" ->
  select ctx (rpc (Marshal c)) = SelDone.
Proof.
  unfold RunConsensus.
  destruct (select ctx (rpc (Marshal c))); [reflexivity | | discriminate].
  destruct (outcome (rpc (Marshal c))) as [err | result].
  - intros [= <-]. discriminate.
  - destruct (negb (CheckTx_Code result =? 0)%N).
    + intros [= <-]. discriminate.
    + discriminate.
Qed.

Lemma preInsert_error_code (faults : DbFaults) (db : DB) (c : ShardedCommitRequest)
    (e : RepositoryError) :
  preInsert faults db c = inl e ->
  Code e = "DATABASE_ERROR" \/ Code e = "SHARD_NOT_FOUND" \/ Code e = "SESSION_EXISTS".
Proof.
  unfold preInsert. intros Hadm.
  repeat match type of Hadm with
         | match ?x with _ => _ end = _ => destruct x
         end; simplify_eq/=; auto.
Qed.

Lemma record_tx_error_code (faults : DbFaults) (db : DB) (c : ShardedCommitRequest)
    (session : Session) (res : ConsensusResult) (e : RepositoryError) :
  fst (record_tx faults db c session res) = inr e -> Code e = "DATABASE_ERROR".
Proof.
  unfold record_tx. intros Hrec.
  repeat match type of Hrec with
         | context [match ?x with _ => _ end] => destruct x
         end; simplify_eq/=; auto.
Qed.

(** [RunConsensus] honors the context it is
    given: when that context is done before the broadcast returns (or
    the broadcast never returns), it stops waiting and returns
    [CONSENSUS_TIMEOUT].  [ReceiveShardCommit] gives it the background
    context, which is never done: no commit request is answered with
    [CONSENSUS_TIMEOUT], and the consensus call fails to return exactly
    when the broadcast never returns; the context of the HTTP request
    plays no part in what [handleL1API] does. *)
Theorem RunConsensus_honors_its_context (ctx : Context) (c : ShardedCommitRequest)
    (d : nat) :
  Done ctx = Some d ->
  (forall t, returns_at (rpc (Marshal c)) = Some t -> (d < t)%nat) ->
  (exists e, RunConsensus rpc ctx c = Some (inr e) /\ Code e = "CONSENSUS_TIMEOUT")
  /\ (forall faults db result db',
        ReceiveShardCommit rpc faults db c = (Some (inr result), db') ->
        Code result <> "CONSENSUS_TIMEOUT")
  /\ (RunConsensus rpc Background c = None
      <-> returns_at (rpc (Marshal c)) = None)
  /\ (forall queries services w db id (r : HttpRequest) ctx',
        handleL1API queries services w db id r
        = handleL1API queries services w db id
            (mkHttpRequest (hr_Method r) (hr_Path r) (hr_Header r) (hr_Body r)
                           (hr_RemoteAddr r) ctx')).
Proof.
  intros Hd Hlate. split_and!.
  - unfold RunConsensus, select. rewrite Hd.
    destruct (returns_at (rpc (Marshal c))) as [t |] eqn:Ht.
    + specialize (Hlate t eq_refl). apply Nat.ltb_lt in Hlate. rewrite Hlate.
      eexists. split; reflexivity.
    + eexists. split; reflexivity.
  - intros faults db result db' Hcall Hcode.
    unfold ReceiveShardCommit in Hcall.
    destruct (preInsert faults db c) as [repoErr | [db1 session]] eqn:Hadm.
    + injection Hcall as <- <-.
      destruct (preInsert_error_code _ _ _ _ Hadm) as [E | [E | E]];
        rewrite E in Hcode; discriminate.
    + unfold settle in Hcall.
      destruct (RunConsensus rpc Background c) as [[res | repoErr] |] eqn:Hcons.
      * pose proof (record_tx_error_code faults db1 c session res) as Hrec.
        destruct (record_tx faults db1 c session res) as [r dbf].
        injection Hcall as -> <-. rewrite (Hrec result eq_refl) in Hcode.
        discriminate.
      * injection Hcall as <- <-.
        pose proof (RunConsensus_timeout_iff_done Background c repoErr Hcons Hcode) as Hsel.
        unfold select in Hsel. cbn [Done] in Hsel.
        destruct (returns_at (rpc (Marshal c))); discriminate.
      * discriminate.
  - unfold RunConsensus, select. cbn [Done].
    destruct (returns_at (rpc (Marshal c))); [| tauto].
    destruct (outcome (rpc (Marshal c))) as [err | result];
      [| destruct (negb (CheckTx_Code result =? 0)%N)];
      split; discriminate.
  - intros. reflexivity.
Qed.

End WithCodec.

End CommitFacts.

(** ** The pipeline on concrete requests *)

Module CommitScenarios.
Import Go Text L1 Scenario.

(** The sample transaction decodes to the sample request. *)
Lemma dup1_decodes : Unmarshal (Codec := JSON.codec) dup1_body = inl dup1.
Proof. vm_compute. reflexivity. Qed.

Lemma FinalizeBlock_stores_commit_witness :
  TxResults (fst (FinalizeBlock (H := JSON.codec) (H0 := Scenario.accepting_ledger)
                    (mkApplication ∅ None)
                    (mkFinalizeBlockRequest [other_body; dup1_body] 1))) !! 1%nat
  = Some (mkExecTxResult 0
            (EncodeToString (SHA256.Sum256 (SessionID dup1 +:+ ShardID dup1)))
            "accepted"
            [ mkEvent "l1_shard_commit"
                [ mkAttr "session_id" (SessionID dup1) true;
                  mkAttr "shard_id" (ShardID dup1) true;
                  mkAttr "client_group" (ClientGroup dup1) true;
                  mkAttr "tx_id"
                    (EncodeToString (SHA256.Sum256 (SessionID dup1 +:+ ShardID dup1))) true;
                  mkAttr "status" "accepted" true ] ]).
Proof.
  pose proof (FinalizeBlock_stores_commit_aux := AppFacts.FinalizeBlock_stores_commit
                (H := JSON.codec) (H0 := Scenario.accepting_ledger) (mkApplication ∅ None)
                (mkFinalizeBlockRequest [other_body; dup1_body] 1) 1 dup1_body dup1
                eq_refl dup1_decodes).
  exact (proj1 (proj1 (proj2 (proj2 FinalizeBlock_stores_commit_aux))
                  eq_refl eq_refl eq_refl)).
Defined.

Lemma FinalizeBlock_invalid_tx_witness :
  Unmarshal (Codec := JSON.codec) "{not json" = inr "invalid character in JSON text"
  /\ TxResults (fst (FinalizeBlock (H := JSON.codec) (H0 := Scenario.accepting_ledger)
                       (mkApplication ∅ None)
                       (mkFinalizeBlockRequest ([dup1_body] ++ "{not json" :: [other_body]) 1)))
     !! 1%nat
     = Some (mkExecTxResult 1 "" "Invalid shard commit format" []).
Proof.
  assert (Hbad : Unmarshal (Codec := JSON.codec) "{not json"
                 = inr "invalid character in JSON text") by (vm_compute; reflexivity).
  split; [exact Hbad |].
  exact (proj1 (AppFacts.FinalizeBlock_invalid_tx (H := JSON.codec) (H0 := Scenario.accepting_ledger)
                  (mkApplication ∅ None) [dup1_body] [other_body] "{not json"
                  "invalid character in JSON text" 1 Hbad)).
Defined.

Lemma preInsert_dup1 :
  preInsert (H := JSON.codec) no_faults l1_seeded dup1
  = inr (pending_dup1,
         mkSession "dup-1" "shard-a" "group-a" "OPR-001" "committed" true None
           (JSON.print (SessionData dup1))).
Proof. vm_compute. reflexivity. Qed.

Lemma consensus_failure_deletes_row_witness :
  SessionID dup1 <> ""
  /\ RunConsensus (H := JSON.codec) (engine_fails 3) Background dup1
     = Some (inr (mkRepoError "CONSENSUS_ERROR" "Failed to commit to blockchain"
                    "broadcast failed"))
  /\ sessions (snd (ReceiveShardCommit (H := JSON.codec) (engine_fails 3) no_faults
                      l1_seeded dup1)) !! "dup-1" = None.
Proof.
  assert (Hne : SessionID dup1 <> "") by discriminate.
  assert (Hcons : RunConsensus (H := JSON.codec) (engine_fails 3) Background dup1
                  = Some (inr (mkRepoError "CONSENSUS_ERROR" "Failed to commit to blockchain"
                                 "broadcast failed"))) by (vm_compute; reflexivity).
  split_and!; [exact Hne | exact Hcons |].
  destruct (CommitFacts.consensus_failure_deletes_row (H := JSON.codec) (engine_fails 3)
              no_faults l1_seeded _ dup1 _ eq_refl Hne preInsert_dup1) as (_ & Hfail & _).
  destruct (Hfail _ Hcons) as [-> Hgone]. exact Hgone.
Defined.

(** C4.  The rollback when the delete statement fails.  The index
    loses its connection after the admission of [dup-1]; the broadcast
    fails: the caller is answered [CONSENSUS_ERROR], the pre-inserted
    row is still in the index, a query for the session finds it, and
    the same commit sent again is refused with [SESSION_EXISTS]. *)
Lemma failed_delete_keeps_row :
  let faults := mkDbFaults None None None None (Some "connection lost") None None None in
  let run := ReceiveShardCommit (H := JSON.codec) (engine_fails 3) faults l1_seeded dup1 in
  fst run = Some (inr (mkRepoError "CONSENSUS_ERROR" "Failed to commit to blockchain"
                         "broadcast failed"))
  /\ snd run = pending_dup1
  /\ is_Some (sessions (snd run) !! "dup-1")
  /\ match fst (ReceiveShardCommit (H := JSON.codec) (engine_accepts 10) no_faults
                  (snd run) dup1) with
     | Some (inr repoErr) => Code repoErr
     | _ => ""
     end = "SESSION_EXISTS".
Proof. vm_compute. split_and!; try reflexivity. eexists. reflexivity. Qed.


(** The same block on a store whose write transactions take fewer than
    five entries: the three keys of the transaction and the height are
    written, the write of the app hash is refused.  The response
    carries the hash all the same; the write transaction holds nothing
    under [last_block_app_hash], nor does the store after [Commit], and
    [Info] reads height 1 without a hash. *)
Lemma refused_app_hash_write :
  let app := mkApplication ∅ None in
  let req := mkFinalizeBlockRequest [dup1_body] 1 in
  let run := FinalizeBlock (H := JSON.codec) (H0 := batch_limited 5) app req in
  map tx_Code (TxResults (fst run)) = [0%N]
  /\ AppHash (fst run)
     = SHA256.Sum256 (EncodeToString (SHA256.Sum256 (SessionID dup1 +:+ ShardID dup1)))
  /\ (onGoingBlock (snd run) ≫= lookup "last_block_height")
     = Some (Height.int64ToBytes 1)
  /\ (onGoingBlock (snd run) ≫= lookup "last_block_app_hash") = None
  /\ (Commit (H0 := batch_limited 5) (snd run)
        ≫= fun app'' => badgerDB app'' !! "last_block_app_hash") = None
  /\ Info <$> Commit (H0 := batch_limited 5) (snd run) = Some (1%Z, None).
Proof. vm_compute. repeat split; reflexivity. Qed.

(** The guard of the first write.  A block with the transactions
    [dup-1] and [other] on a store whose write transactions take fewer
    than four entries: the three keys of the first transaction are
    written, the write of [tx:<tx_id>] of the second is refused.  The
    result of the second transaction has code 3, no data and no event,
    and none of its three keys is in the write transaction. *)
Lemma refused_write_answered_code_3 :
  let app := mkApplication ∅ None in
  let req := mkFinalizeBlockRequest [dup1_body; other_body] 1 in
  let run := FinalizeBlock (H := JSON.codec) (H0 := batch_limited 4) app req in
  let txID := EncodeToString (SHA256.Sum256 (SessionID other +:+ ShardID other)) in
  Unmarshal (Codec := JSON.codec) other_body = inl other
  /\ CheckTx (H := JSON.codec) other_body = 0%N
  /\ map tx_Code (TxResults (fst run)) = [0%N; 3%N]
  /\ TxResults (fst run) !! 1%nat
     = Some (mkExecTxResult 3 "" "Database error: Txn is too big to fit into one request" [])
  /\ (onGoingBlock (snd run) ≫= lookup ("tx:" +:+ txID)) = None
  /\ (onGoingBlock (snd run)
        ≫= lookup ("shard:" +:+ ShardID other +:+ ":session:" +:+ SessionID other)) = None
  /\ (onGoingBlock (snd run) ≫= lookup ("status:" +:+ txID)) = None.
Proof. vm_compute. repeat split; reflexivity. Qed.

(** The long commit is well formed: its bytes decode, with the ids it
    was printed from, and pass [CheckTx]. *)
Lemma long_body_decodes :
  exists c, Unmarshal (Codec := JSON.codec) long_body = inl c
            /\ SessionID c = long_session /\ ShardID c = "shard-a"
            /\ ClientGroup c = "group-a".
Proof.
  assert (Hf : match Unmarshal (Codec := JSON.codec) long_body with
               | inl c => String.eqb (SessionID c) long_session
                          && String.eqb (ShardID c) "shard-a"
                          && String.eqb (ClientGroup c) "group-a"
               | inr _ => false
               end = true) by (vm_compute; reflexivity).
  destruct (Unmarshal (Codec := JSON.codec) long_body) as [c | e]; [| discriminate].
  apply andb_prop in Hf as [Hf H3]. apply andb_prop in Hf as [H1 H2].
  apply String.eqb_eq in H1, H2, H3. eauto.
Qed.

Lemma long_key_length :
  N.of_nat (String.length ("shard:" +:+ "shard-a" +:+ ":session:" +:+ long_session))
  = 65022%N.
Proof. vm_compute. reflexivity. Qed.

#[local] Opaque long_session long_body.

(** C3, counterexample.  A block with one well-formed transaction whose
    session id has 65000 characters, on a store with badger's bound on
    keys.  The key [shard:<shard_id>:session:<session_id>] has 65022
    bytes and its write is refused; the refusal is only logged.  The
    result has code 0, the id as data and the event, and the write
    transaction holds [tx:<tx_id>] and [status:<tx_id>] and nothing
    under the shard key: two keys, not three. *)
Lemma long_key_leaves_two_keys :
  let run := FinalizeBlock (H := JSON.codec) (H0 := key_limited) (mkApplication ∅ None)
               (mkFinalizeBlockRequest [long_body] 1) in
  let txID := EncodeToString (SHA256.Sum256 (long_session +:+ "shard-a")) in
  (exists c, Unmarshal (Codec := JSON.codec) long_body = inl c
             /\ SessionID c = long_session /\ ShardID c = "shard-a"
             /\ ClientGroup c = "group-a")
  /\ CheckTx (H := JSON.codec) long_body = 0%N
  /\ N.of_nat (String.length ("shard:" +:+ "shard-a" +:+ ":session:" +:+ long_session))
     = 65022%N
  /\ TxResults (fst run)
     = [ mkExecTxResult 0 txID "accepted"
           [ mkEvent "l1_shard_commit"
               [ mkAttr "session_id" long_session true;
                 mkAttr "shard_id" "shard-a" true;
                 mkAttr "client_group" "group-a" true;
                 mkAttr "tx_id" txID true;
                 mkAttr "status" "accepted" true ] ] ]
  /\ (onGoingBlock (snd run) ≫= lookup ("tx:" +:+ txID)) = Some long_body
  /\ (onGoingBlock (snd run) ≫= lookup ("status:" +:+ txID)) = Some "accepted"
  /\ (onGoingBlock (snd run)
        ≫= lookup ("shard:" +:+ "shard-a" +:+ ":session:" +:+ long_session)) = None.
Proof.
  cbv zeta. split; [exact long_body_decodes |].
  split; [vm_compute; reflexivity |].
  split; [exact long_key_length |].
  destruct long_body_decodes as (c & Hc & Hse & Hsh & Hcg).
  pose proof (proj1 (AppFacts.generateTxID_hex long_session "shard-a")) as Hlen.
  unfold generateTxID in Hlen.
  remember (EncodeToString (SHA256.Sum256 (long_session +:+ "shard-a"))) as txID eqn:EtxID.
  assert (Hstep : finalizeTx (H := JSON.codec) (H0 := key_limited) ∅ long_body
                  = (<["status:" +:+ txID := "accepted"]> (<["tx:" +:+ txID := long_body]> ∅),
                     mkExecTxResult 0 txID "accepted"
                       [ mkEvent "l1_shard_commit"
                           [ mkAttr "session_id" long_session true;
                             mkAttr "shard_id" "shard-a" true;
                             mkAttr "client_group" "group-a" true;
                             mkAttr "tx_id" txID true;
                             mkAttr "status" "accepted" true ] ])).
  { rewrite (AppFacts.finalizeTx_second_write_refused (H := JSON.codec) (H0 := key_limited)
               ∅ long_body c "Key exceeded 65000 limit" Hc).
    - rewrite Hse, Hsh, Hcg, <- EtxID. reflexivity.
    - rewrite Hse, Hsh, <- EtxID. cbn [set_err key_limited].
      change (String.length ("tx:" +:+ txID)) with (3 + String.length txID)%nat.
      rewrite Hlen. reflexivity.
    - rewrite Hse, Hsh. cbn [set_err key_limited]. rewrite long_key_length. reflexivity.
    - rewrite Hse, Hsh, <- EtxID. cbn [set_err key_limited].
      change (String.length ("status:" +:+ txID)) with (7 + String.length txID)%nat.
      rewrite Hlen. reflexivity. }
  clear EtxID Hc Hse Hsh Hcg.
  unfold FinalizeBlock. cbn [Txs finalizeTxs]. rewrite Hstep.
  cbn [fst snd TxResults onGoingBlock mbind option_bind].
  unfold Txn_Set. cbn [set_err key_limited String.length N.of_nat].
  change (65000 <? N.of_nat 17)%N with false.
  change (65000 <? N.of_nat 19)%N with false.
  cbn [fst].
  split_and!.
  - reflexivity.
  - rewrite 3 lookup_insert_ne by (cbv [String.append]; discriminate).
    apply lookup_insert_eq.
  - rewrite 2 lookup_insert_ne by (cbv [String.append]; discriminate).
    apply lookup_insert_eq.
  - rewrite 4 lookup_insert_ne by (cbv [String.append]; discriminate).
    apply lookup_empty.
Qed.

Lemma RunConsensus_honors_its_context_witness :
  exists e, RunConsensus (H := JSON.codec) (engine_accepts 10) (DoneAt 5 DeadlineExceeded) dup1 = Some (inr e)
            /\ Code e = "CONSENSUS_TIMEOUT".
Proof.
  refine (proj1 (CommitFacts.RunConsensus_honors_its_context (H := JSON.codec)
                   (engine_accepts 10) (DoneAt 5 DeadlineExceeded) dup1 5 eq_refl _)).
  intros t [= <-]. lia.
Defined.

(** C5.  The deadline of the HTTP request does not reach the consensus
    adapter.  An HTTP request whose context is done at instant 5 while
    the broadcast returns at instant 10: the deadline expires before
    the transaction is finalized, yet the commit is answered 202 with
    the finalized transaction and not with [CONSENSUS_TIMEOUT]; and
    when the broadcast never returns, the request is never answered
    although its context is done. *)
Lemma request_deadline_not_honored :
  hr_ctx (post_commit dup1_body (DoneAt 5 DeadlineExceeded)) = DoneAt 5 DeadlineExceeded
  /\ returns_at (engine_accepts 10 (Marshal (Codec := JSON.codec) dup1)) = Some 10%nat
  /\ fst (ReceiveShardCommit (H := JSON.codec) (engine_accepts 10) no_faults l1_seeded dup1)
     = Some (inl (mkTransaction
                    "86261fc81058fed9f9685831b733f0c2c62e0dfb7a98475417773319f0e35465"
                    "dup-1" "shard-a" "group-a" 1 "confirmed"))
  /\ status_of <$> fst (l1_serve (engine_accepts 10) l1_seeded "req-1"
                          (post_commit dup1_body (DoneAt 5 DeadlineExceeded))) = Some 202%nat
  /\ fst (l1_serve engine_stalls l1_seeded "req-1" (post_commit dup1_body (DoneAt 5 DeadlineExceeded)))
     = None.
Proof. vm_compute. repeat split; reflexivity. Qed.

(** The handler's answer to a commit for a session whose row exists is the
    409 response together with an error, and [handleL1API] writes the
    status 422 for every handler error. *)
Lemma duplicate_commit_written_422 (queries : HandlerName -> Request -> DB -> Response * option string)
    (w : World) (db : DB) (id : string) (r : HttpRequest) (c : ShardedCommitRequest) :
  hr_Method r = "POST" -> hr_Path r = "/l1/commit" ->
  Unmarshal (Codec := JSON.codec) (compactJSON (H := JSON.codec) (TrimSpace (hr_Body r))) = inl c ->
  ShardID c <> "" -> SessionID c <> "" -> ClientGroup c <> "" ->
  f_begin (faults w) = None -> f_find_shard (faults w) = None ->
  is_Some (shards db !! ShardID c) ->
  is_Some (sessions db !! SessionID c) ->
  GenerateResponse (H := JSON.codec) queries l1_services w db
    (ConvertHttpRequestToConsensusRequest (H := JSON.codec) r id)
  = (Some (mkResponse 409 defaultHeaders
             (error_body ("Session " +:+ SessionID c +:+ " already committed")),
           Some ("session exists: " +:+ "Session " +:+ SessionID c +:+ " already committed")),
     db)
  /\ handleL1API (H := JSON.codec) queries l1_services w db (Some id) r
     = (Some (JSONError ("Failed to generate response: " +:+ "session exists: "
                         +:+ "Session " +:+ SessionID c +:+ " already committed") 422), db).
Proof.
  intros Hm Hp Hdec N1 N2 N3 Hb Hf Hs Hrow.
  assert (Hgen : GenerateResponse (H := JSON.codec) queries l1_services w db
                   (ConvertHttpRequestToConsensusRequest (H := JSON.codec) r id)
                 = (Some (mkResponse 409 defaultHeaders
                            (error_body ("Session " +:+ SessionID c +:+ " already committed")),
                          Some ("session exists: " +:+ "Session " +:+ SessionID c
                                +:+ " already committed")), db)).
  { unfold GenerateResponse, ConvertHttpRequestToConsensusRequest.
    cbn [Method Path Body]. rewrite Hm, Hp.
    replace (GetHandlerForPath l1_services (visit w) "POST" "/l1/commit")
      with (Some HReceiveShardCommit) by (vm_compute; reflexivity).
    cbn [runHandler]. unfold ReceiveShardCommitHandler. cbn [Body]. rewrite Hdec.
    rewrite bool_decide_eq_false_2 by tauto.
    rewrite (CommitFacts.ReceiveShardCommit_duplicate _ _ _ _ Hb Hf Hs Hrow).
    cbn [Code Detail]. reflexivity. }
  split; [exact Hgen |].
  unfold handleL1API. rewrite Hgen. reflexivity.
Qed.

(** C1, on the code.  Two [POST /l1/commit] requests for session [dup-1]
    of the registered shard [shard-a], all required fields non-empty.
    The first is admitted, goes through consensus and is answered 202;
    its index row exists from the admission on.  The second, whether it
    arrives after the first has finished or while the first is in its
    consensus round, is refused by the repository with [SESSION_EXISTS]
    and the handler builds the 409 response, but returns it together with
    an error: [handleL1API] then drops the response and writes the status
    422 with the error text.  The index is not changed by the second
    request. *)
Theorem duplicate_commit_answered_422 :
  let first := l1_serve (engine_accepts 3) l1_seeded "req-1"
                 (post_commit dup1_body Background) in
  let second := l1_serve (engine_accepts 3) (snd first) "req-2"
                 (post_commit dup1_body Background) in
  let racing := l1_serve (engine_accepts 3) pending_dup1 "req-2"
                 (post_commit dup1_body Background) in
  status_of <$> fst first = Some 202%nat
  /\ is_Some (sessions (snd first) !! "dup-1")
  /\ fst (ReceiveShardCommit (H := JSON.codec) (engine_accepts 3) no_faults (snd first) dup1)
     = Some (inr (mkRepoError "SESSION_EXISTS" "Session already exists"
                    "Session dup-1 already committed"))
  /\ (StatusCode ∘ fst) <$> fst (GenerateResponse (H := JSON.codec) l1_queries l1_services
              (l1_world (engine_accepts 3)) (snd first)
              (ConvertHttpRequestToConsensusRequest (H := JSON.codec)
                 (post_commit dup1_body Background) "req-2")) = Some 409%nat
  /\ fst second
     = Some (JSONError
               "Failed to generate response: session exists: Session dup-1 already committed"
               422)
  /\ snd second = snd first
  /\ fst racing
     = Some (JSONError
               "Failed to generate response: session exists: Session dup-1 already committed"
               422)
  /\ snd racing = pending_dup1.
Proof. vm_compute. repeat split; try reflexivity. eauto. Qed.

End CommitScenarios.

(** ** The L2 router *)

Module JSONFacts.
Import Go Text.
#[local] Open Scope list_scope.

Lemma plain_char (c : ascii) :
  JSON.plain c = true
  -> Ascii.eqb c JSON.quote = false /\ Ascii.eqb c JSON.backslash = false.
Proof.
  intros Hp. split; apply Ascii.eqb_neq; intros ->; vm_compute in Hp; discriminate.
Qed.

Lemma read_string_plain (s : string) (r : list ascii) :
  all_chars JSON.plain s = true ->
  JSON.read_string (list_ascii_of_string s ++ JSON.quote :: r)
  = Some (list_ascii_of_string s, r).
Proof.
  induction s as [| c s IH]; intros Hall.
  - reflexivity.
  - cbn [all_chars] in Hall. apply andb_prop in Hall as [Hc Hall].
    destruct (plain_char c Hc) as [Hq Hb].
    cbn [list_ascii_of_string app JSON.read_string]. rewrite Hq, Hb, (IH Hall). reflexivity.
Qed.

Lemma list_ascii_of_string_app (a b : string) :
  list_ascii_of_string (a +:+ b) = list_ascii_of_string a ++ list_ascii_of_string b.
Proof.
  induction a as [| c a IH]; [reflexivity |].
  change (String c a +:+ b) with (String c (a +:+ b)).
  cbn [list_ascii_of_string app]. now rewrite IH.
Qed.

Lemma all_chars_app (p : ascii -> bool) (a b : string) :
  all_chars p (a +:+ b) = all_chars p a && all_chars p b.
Proof.
  induction a as [| c a IH]; [reflexivity |].
  change (String c a +:+ b) with (String c (a +:+ b)).
  cbn [all_chars]. rewrite IH. now rewrite andb_assoc.
Qed.

Lemma read_members_one (f : nat) (key r r1 r3 : list ascii) (v : json) :
  JSON.read_string r = Some (key, ":"%char :: r1) ->
  JSON.read_value f r1 = Some (v, "}"%char :: r3) ->
  JSON.read_members (S f) (JSON.quote :: r) = Some ([(string_of_list_ascii key, v)], r3).
Proof. intros H1 H2. simpl. rewrite H1. simpl. rewrite H2. reflexivity. Qed.

Lemma read_value_string (f : nat) (r cs r1 : list ascii) :
  JSON.read_string r = Some (cs, r1) ->
  JSON.read_value (S f) (JSON.quote :: r) = Some (JString (string_of_list_ascii cs), r1).
Proof. intros H1. simpl. rewrite H1. reflexivity. Qed.

Lemma read_value_object (f : nat) (r r1 : list ascii) (ms : list (string * json)) :
  JSON.read_members f (JSON.quote :: r) = Some (ms, r1) ->
  JSON.read_value (S f) ("{"%char :: JSON.quote :: r) = Some (JObject ms, r1).
Proof. intros H1. simpl. simpl in H1. rewrite H1. reflexivity. Qed.

(** An error body whose message holds plain characters only reads as the
    JSON object with the one member [error]. *)
Lemma read_error_body (msg : string) :
  all_chars JSON.plain msg = true ->
  JSON.read (error_body msg) = Some (JObject [("error", JString msg)]).
Proof.
  intros Hall. unfold JSON.read, error_body, q.
  rewrite !list_ascii_of_string_app.
  set (fuel := List.length _).
  assert (Hfuel : fuel = S (S (fuel - 2))).
  { subst fuel. rewrite !length_app. cbn [List.length list_ascii_of_string dq]. lia. }
  rewrite Hfuel. generalize (fuel - 2)%nat. intros n. clear fuel Hfuel.
  rewrite <- !app_assoc.
  change (list_ascii_of_string "{") with ["{"%char].
  change (list_ascii_of_string dq) with [JSON.quote].
  change (list_ascii_of_string ":") with [":"%char].
  change (list_ascii_of_string "}") with ["}"%char].
  cbn [app].
  rewrite (read_value_object (S (S n)) _ [] [("error", JString msg)]); [reflexivity |].
  rewrite <- (string_of_list_ascii_of_string msg) at 2.
  change "error" with (string_of_list_ascii (list_ascii_of_string "error")) at 2.
  apply read_members_one
    with (r1 := JSON.quote :: list_ascii_of_string msg ++ [JSON.quote; "}"%char]).
  - apply read_string_plain. reflexivity.
  - apply read_value_string, read_string_plain, Hall.
Qed.

End JSONFacts.

Module RouterFacts.
Import Go Text L2.

Lemma matchParts_Forall2 (ps ss : list string) :
  List.length ps = List.length ss ->
  (matchParts ps ss = true <-> Forall2 segment_matches ps ss).
Proof.
  revert ss. induction ps as [| p ps IH]; intros [| s ss] Hlen; try discriminate.
  - split; [constructor | reflexivity].
  - injection Hlen as Hlen. specialize (IH ss Hlen). cbn [matchParts].
    unfold segment_matches at 1.
    destruct (HasPrefixColon p) eqn:Hp.
    + rewrite IH. split.
      * intros Hf. constructor; [now left | exact Hf].
      * intros Hf. now inversion Hf.
    + destruct (String.eqb p s) eqn:Heq; cbn [negb].
      * apply String.eqb_eq in Heq. rewrite IH. split.
        -- intros Hf. constructor; [now right | exact Hf].
        -- intros Hf. now inversion Hf.
      * apply String.eqb_neq in Heq. split; [discriminate |].
        intros Hf. inversion Hf as [| ? ? ? ? [Hc | He] ?]; subst; congruence.
  Qed.

(** [matchPath]: as many segments, and segment-wise agreement. *)
Lemma matchPath_Forall2 (pattern path : string) :
  matchPath pattern path = true
  <-> Forall2 segment_matches (Split pattern) (Split path).
Proof.
  unfold matchPath.
  destruct (List.length (Split pattern) =? List.length (Split path))%nat eqn:Hlen;
    cbn [negb].
  - apply Nat.eqb_eq in Hlen. now apply matchParts_Forall2.
  - apply Nat.eqb_neq in Hlen. split; [discriminate |].
    intros Hf. apply Forall2_length in Hf. contradiction.
Qed.

Lemma matchPath_refl (path : string) : matchPath path path = true.
Proof.
  apply matchPath_Forall2. induction (Split path) as [| s ss IH]; constructor;
    [now right | exact IH].
Qed.

Lemma matchPatterns_Some (mh : gmap string HandlerName) (visit : list string)
    (path : string) (h : HandlerName) :
  matchPatterns mh visit path = Some h ->
  exists pattern, pattern ∈ visit /\ mh !! pattern = Some h
                  /\ matchPath pattern path = true.
Proof.
  induction visit as [| p visit IH]; [discriminate |]. cbn [matchPatterns].
  destruct (mh !! p) as [h' |] eqn:Hp.
  - destruct (matchPath p path) eqn:Hm.
    + intros [= <-]. exists p. split_and!; [left | exact Hp | exact Hm].
    + intros Hrest. destruct (IH Hrest) as (q & Hin & Hq & Hmq).
      exists q. split_and!; [now right | exact Hq | exact Hmq].
  - intros Hrest. destruct (IH Hrest) as (q & Hin & Hq & Hmq).
    exists q. split_and!; [now right | exact Hq | exact Hmq].
Qed.

Lemma matchPatterns_None (mh : gmap string HandlerName) (visit : list string)
    (path : string) :
  matchPatterns mh visit path = None
  <-> (forall pattern, pattern ∈ visit -> is_Some (mh !! pattern) ->
         matchPath pattern path = false).
Proof.
  induction visit as [| p visit IH]; cbn [matchPatterns].
  - split; [| reflexivity]. intros _ pattern Hin. inversion Hin.
  - destruct (mh !! p) as [h' |] eqn:Hp.
    + destruct (matchPath p path) eqn:Hm.
      * split; [discriminate |]. intros Hall.
        rewrite (Hall p) in Hm; [discriminate | left | eauto].
      * rewrite IH. split.
        -- intros Hall pattern Hin Hsome. inversion Hin; subst; auto.
        -- intros Hall pattern Hin Hsome. apply Hall; [now right | exact Hsome].
    + rewrite IH. split.
      * intros Hall pattern Hin Hsome. inversion Hin; subst; auto.
        rewrite Hp in Hsome. destruct Hsome as [? ?]. discriminate.
      * intros Hall pattern Hin Hsome. apply Hall; [now right | exact Hsome].
Qed.

Lemma GetHandlerForPath_unfold (sr : ServiceRegistry) (visit : list string)
    (method path : string) :
  GetHandlerForPath sr visit method path
  = match default ∅ (handlers sr !! method) !! path with
    | Some handler => Some handler
    | None => matchPatterns (default ∅ (handlers sr !! method)) visit path
    end.
Proof.
  unfold GetHandlerForPath. destruct (handlers sr !! method) as [mh |]; cbn [default].
  - reflexivity.
  - rewrite lookup_empty. induction visit as [| p visit IH]; [reflexivity |].
    cbn [matchPatterns]. now rewrite lookup_empty.
Qed.

Section Routing.
Variable stage : HandlerName -> World -> DB -> Request -> Outcome * DB.

Lemma GenerateResponse_local (services : ServiceRegistry) (w : World) (db : DB)
    (req : Request) :
  handles_locally services w req = true ->
  GenerateResponse stage services w db req
  = match GetHandlerForPath services (visit w) (Method req) (Path req) with
    | None =>
        (Ok (mkResponse 404 defaultHeaders
               (error_body ("Service not found for " +:+ Method req +:+ " "
                            +:+ Path req))), db)
    | Some handler => runHandler stage services handler w db req
    end.
Proof.
  unfold handles_locally, GenerateResponse.
  destruct (String.eqb (default "" (Headers req !! "X-Client-Group")) "");
    cbn [negb orb]; [reflexivity |].
  destruct (CheckShardAndRedirect services w _) as [shouldHandle url].
  cbn [fst]. now intros ->.
Qed.


End Routing.

End RouterFacts.

(** ** Identifiers *)

Module IdentifierFacts.
Import Go Text L2.

Lemma substring_length (i n : nat) (s : string) :
  (i + n <= String.length s)%nat -> String.length (String.substring i n s) = n.
Proof.
  revert i n. induction s as [| c s IH]; intros i n Hle; cbn [String.length] in Hle.
  - assert (i = 0%nat /\ n = 0%nat) as [-> ->] by lia. reflexivity.
  - destruct i as [| i]; cbn [String.substring].
    + destruct n as [| n]; [reflexivity |]. cbn [String.length]. rewrite IH; lia.
    + apply IH. lia.
Qed.

(** The first characters of an append, when the cut falls into the
    first part, at its end, or into the second part. *)
Lemma take_str_app_l (k : nat) (a b : string) :
  (k <= String.length a)%nat -> take_str k (a +:+ b) = take_str k a.
Proof.
  unfold take_str. revert k. induction a as [| c a IH]; intros k Hk.
  - cbn [String.length] in Hk. assert (k = 0%nat) as -> by lia.
    step_append. destruct b; reflexivity.
  - step_append. destruct k as [| k]; [reflexivity |].
    cbn [String.substring]. rewrite IH; [reflexivity |]. cbn [String.length] in Hk. lia.
Qed.

Lemma take_str_all (a : string) : take_str (String.length a) a = a.
Proof.
  unfold take_str. induction a as [| c a IH]; [reflexivity |].
  cbn [String.length String.substring]. now rewrite IH.
Qed.

Lemma take_str_app_r (k : nat) (a b : string) :
  take_str (String.length a + k) (a +:+ b) = a +:+ take_str k b.
Proof.
  unfold take_str. induction a as [| c a IH]; [reflexivity |].
  step_append. cbn [String.length Nat.add String.substring]. now rewrite IH.
Qed.

Lemma take_str_length (k : nat) (a : string) :
  (k <= String.length a)%nat -> String.length (take_str k a) = k.
Proof. intros Hk. unfold take_str. apply substring_length. lia. Qed.

Lemma all_chars_take (p : ascii -> bool) (k : nat) (s : string) :
  all_chars p s = true -> all_chars p (take_str k s) = true.
Proof.
  unfold take_str. revert k. induction s as [| c s IH]; intros k Hall.
  - destruct k; reflexivity.
  - destruct k as [| k]; [reflexivity |]. cbn [String.substring all_chars] in *.
    apply andb_true_iff in Hall as [Hc Hs]. rewrite Hc. now apply IH.
Qed.

Lemma stamp_from_length (i : nat) (s : string) :
  String.length (UUID.stamp_from i s) = String.length s.
Proof.
  revert i. induction s as [| c s IH]; intros i; [reflexivity |].
  cbn [UUID.stamp_from String.length]. now rewrite IH.
Qed.

(** The first eight characters of the text of a UUID are the hexadecimal
    form of its first four bytes. *)
Lemma uuid_prefix_8 (random : string) :
  String.length random = 16%nat ->
  take_str 8 (UUID.String_ (UUID.New random))
  = EncodeToString (String.substring 0 4 (UUID.New random)).
Proof.
  intros Hlen. unfold UUID.String_.
  set (A := EncodeToString (String.substring 0 4 (UUID.New random))).
  assert (HA : String.length A = 8%nat).
  { unfold A. rewrite AppFacts.EncodeToString_length, substring_length; [reflexivity |].
    unfold UUID.New. rewrite stamp_from_length. lia. }
  rewrite take_str_app_l by lia. rewrite <- HA. apply take_str_all.
Qed.

(** The first twelve characters: those eight, the hyphen that separates
    the first two groups, and three digits of the second group. *)
Lemma uuid_prefix_12 (random : string) :
  String.length random = 16%nat ->
  take_str 12 (UUID.String_ (UUID.New random))
  = EncodeToString (String.substring 0 4 (UUID.New random)) +:+ "-"
    +:+ take_str 3 (EncodeToString (String.substring 4 2 (UUID.New random))).
Proof.
  intros Hlen. unfold UUID.String_.
  assert (Hu : String.length (UUID.New random) = 16%nat)
    by (unfold UUID.New; now rewrite stamp_from_length).
  set (A := EncodeToString (String.substring 0 4 (UUID.New random))).
  set (B := EncodeToString (String.substring 4 2 (UUID.New random))).
  assert (HA : String.length A = 8%nat).
  { unfold A. rewrite AppFacts.EncodeToString_length, substring_length; [reflexivity | lia]. }
  assert (HB : String.length B = 4%nat).
  { unfold B. rewrite AppFacts.EncodeToString_length, substring_length; [reflexivity | lia]. }
  change 12%nat with (8 + 4)%nat. rewrite <- HA at 1. rewrite take_str_app_r.
  change 4%nat with (String.length "-" + 3)%nat. rewrite take_str_app_r.
  rewrite take_str_app_l by lia. reflexivity.
Qed.

(** C7, as the code has it.  For all values of the random bytes of the
    UUIDs: session ids are [SES-], QC ids [QC-] and label ids [LBL-]
    followed by exactly 8 lowercase hexadecimal characters; a tracking
    number is [TRK-] followed by the first 12 characters of the text of
    a UUID, which are 8 hexadecimal characters, a hyphen and 3
    hexadecimal characters.  The operations give their rows these
    identifiers. *)
Theorem identifier_formats (random1 random2 : string) :
  String.length random1 = 16%nat ->
  String.length random2 = 16%nat ->
  (forall prefix, exists h,
      new_id prefix 8 random1 = prefix +:+ h
      /\ String.length h = 8%nat /\ all_chars is_lower_hex h = true)
  /\ (exists h8 h3,
        new_id "TRK-" 12 random2 = "TRK-" +:+ h8 +:+ "-" +:+ h3
        /\ String.length h8 = 8%nat /\ all_chars is_lower_hex h8 = true
        /\ String.length h3 = 3%nat /\ all_chars is_lower_hex h3 = true)
  /\ (forall db operatorID session db',
        CreateSession random1 db operatorID = (inl session, db') ->
        ID session = new_id "SES-" 8 random1)
  /\ (forall db sessionID passed issues pkg qcRecord db',
        QualityCheck random1 db sessionID passed issues = (inl (pkg, qcRecord), db') ->
        qc_ID qcRecord = new_id "QC-" 8 random1)
  /\ (forall db sessionID courierID label db',
        LabelPackage random1 random2 db sessionID courierID = (inl label, db') ->
        lb_ID label = new_id "LBL-" 8 random1
        /\ lb_TrackingNo label = new_id "TRK-" 12 random2).
Proof.
  intros H1 H2. split_and!.
  - intros prefix. unfold new_id. rewrite (uuid_prefix_8 random1 H1).
    eexists. split_and!; [reflexivity | |].
    + rewrite AppFacts.EncodeToString_length, substring_length; [reflexivity |].
      unfold UUID.New. rewrite stamp_from_length. lia.
    + apply AppFacts.EncodeToString_lower_hex.
  - unfold new_id. rewrite (uuid_prefix_12 random2 H2).
    assert (Hu : String.length (UUID.New random2) = 16%nat)
      by (unfold UUID.New; now rewrite stamp_from_length).
    eexists _, _. split_and!; [reflexivity | | | |].
    + rewrite AppFacts.EncodeToString_length, substring_length; [reflexivity | lia].
    + apply AppFacts.EncodeToString_lower_hex.
    + apply take_str_length.
      rewrite AppFacts.EncodeToString_length, substring_length; lia.
    + apply all_chars_take, AppFacts.EncodeToString_lower_hex.
  - intros db operatorID session db'. unfold CreateSession.
    destruct (sessions db !! _); intros [= <- <-]. reflexivity.
  - intros db sessionID passed issues pkg qcRecord db'. unfold QualityCheck.
    destruct (sessions db !! sessionID); [| discriminate].
    destruct (first_where _ (packages db)); [| discriminate].
    destruct (_ || _); [discriminate |]. intros [= <- <- <-]. reflexivity.
  - intros db sessionID courierID label db'. unfold LabelPackage.
    destruct (couriers db !! courierID); [| discriminate].
    destruct (_ || _); [discriminate |].
    destruct (sessions db !! sessionID); [| discriminate].
    intros [= <- <-]. split; reflexivity.
Qed.

Lemma identifier_formats_witness :
  String.length Scenario.random_a = 16%nat
  /\ String.length Scenario.random_b = 16%nat
  /\ exists h8 h3,
       new_id "TRK-" 12 Scenario.random_b = "TRK-" +:+ h8 +:+ "-" +:+ h3
       /\ String.length h8 = 8%nat /\ all_chars is_lower_hex h8 = true
       /\ String.length h3 = 3%nat /\ all_chars is_lower_hex h3 = true.
Proof.
  split_and!; [reflexivity | reflexivity |].
  exact (proj1 (proj2 (identifier_formats Scenario.random_a Scenario.random_b
                         eq_refl eq_refl))).
Defined.

(** C7, counterexample.  On the seeded store a session is created
    with the random bytes [random_a], which gives it the id
    [SES-30313233]; the label operation for that session, with the
    random bytes [random_b] for the label id and [random_a] for the
    tracking number, succeeds, and the tracking number is
    [TRK-30313233-343]: the 12 characters after the prefix are not 12
    hexadecimal characters, the ninth is a hyphen. *)
Lemma tracking_number_not_12_hex :
  let created := CreateSession Scenario.random_a Scenario.l2_seeded "OPR-001" in
  fst created
  = inl (mkSession "SES-30313233" "OPR-001" "active" false None None None None)
  /\ sessions (snd created) !! "SES-30313233"
     = Some (mkSession "SES-30313233" "OPR-001" "active" false None None None None)
  /\ fst (LabelPackage Scenario.random_b Scenario.random_a (snd created)
            "SES-30313233" "CUR-001")
     = inl (mkLabel "LBL-66656463" "SES-30313233" "CUR-001" "TRK-30313233-343")
  /\ String.length "30313233-343" = 12%nat
  /\ all_chars is_lower_hex "30313233-343" = false
  /\ String.get 8 "30313233-343" = Some "-"%char.
Proof. vm_compute. repeat split; reflexivity. Qed.

End IdentifierFacts.

(** ** The L2 session store *)

Module SessionFacts.
Import Go Text L2.

Lemma update_session_invariant (db : DB) (sessionID : string) (f : Session -> Session) :
  keeps_or_commits f ->
  committed_has_l1_info db ->
  committed_has_l1_info (update_session db sessionID f).
Proof.
  intros Hf Hinv id s. unfold update_session. cbn [sessions set_sessions].
  rewrite lookup_alter. case_decide as Hid.
  - subst id. destruct (sessions db !! sessionID) as [s0 |] eqn:Hs0; [| discriminate].
    cbn [fmap option_fmap option_map]. intros [= <-] Hc.
    destruct (Hf s0) as [(E1 & E2 & E3) | Hset]; [| exact Hset].
    rewrite E2, E3. apply (Hinv sessionID s0 Hs0). now rewrite <- E1.
  - apply Hinv.
Qed.

Lemma with_package_id_keeps (packageID : string) :
  keeps_or_commits (with_package_id packageID).
Proof. intros s. left. auto. Qed.

Lemma with_status_keeps (status : string) : keeps_or_commits (with_status status).
Proof. intros s. left. auto. Qed.

Lemma with_commit_commits (txHash : string) (blockHeight : Z) (commitTime : nat) :
  keeps_or_commits (with_commit txHash blockHeight commitTime).
Proof. intros s. right. cbn. eauto. Qed.

Lemma same_sessions_invariant (db db' : DB) :
  sessions db' = sessions db -> committed_has_l1_info db -> committed_has_l1_info db'.
Proof. intros E Hinv id s. rewrite E. apply Hinv. Qed.

(** The sessions after the commit handler: unchanged, or marked committed
    with a hash and a height. *)
Lemma CommitSessionHandler_store (sr : ServiceRegistry) (w : World) (db : DB)
    (req : Request) :
  snd (CommitSessionHandler sr w db req) = db
  \/ exists sessionID txHash blockHeight,
       snd (CommitSessionHandler sr w db req)
       = update_session db sessionID (with_commit txHash blockHeight (now w)).
Proof.
  unfold CommitSessionHandler.
  destruct (negb _); [now left |].
  destruct (GetSession db _) as [session | dbErr]; [| now left].
  destruct (IsCommitted session).
  - destruct (L1TxHash session); now left.
  - destruct (negb _); [now left |].
    destruct (CommitSession w session (clientGroup sr)) as [l1 | err]; [| now left].
    right. unfold MarkSessionCommitted. cbn [snd]. eauto.
Qed.

(** Every operation preserves the invariant. *)
Lemma apply_op_invariant (op : Op) (db : DB) :
  committed_has_l1_info db -> committed_has_l1_info (apply_op op db).
Proof.
  intros Hinv. destruct op; cbn [apply_op].
  - unfold CreateSession. destruct (sessions db !! _) eqn:Hfresh; [exact Hinv |].
    cbn [snd]. intros id s. cbn [sessions set_sessions].
    rewrite lookup_insert. case_decide.
    + intros [= <-]. discriminate.
    + apply Hinv.
  - unfold ScanPackage. destruct (packages db !! packageID); [| exact Hinv].
    cbn [snd]. apply update_session_invariant; [apply with_package_id_keeps |].
    now apply (same_sessions_invariant db).
  - unfold ValidatePackage. destruct (packages db !! packageID); [| exact Hinv].
    now apply (same_sessions_invariant db).
  - unfold QualityCheck. destruct (sessions db !! sessionID); [| exact Hinv].
    destruct (first_where _ (packages db)); [| exact Hinv].
    destruct (_ || _); [exact Hinv |]. now apply (same_sessions_invariant db).
  - unfold LabelPackage. destruct (couriers db !! courierID); [| exact Hinv].
    destruct (_ || _); [exact Hinv |].
    match goal with
    | |- context [match sessions db !! ?i with _ => _ end] =>
        destruct (sessions db !! i) eqn:Hfk
    end; [| exact Hinv]. cbn [snd].
    apply update_session_invariant; [apply with_status_keeps |].
    now apply (same_sessions_invariant db).
  - unfold MarkSessionCommitted. cbn [snd].
    apply update_session_invariant; [apply with_commit_commits | exact Hinv].
  - destruct (CommitSessionHandler_store sr w db req) as [-> | (id & h & b & ->)];
      [exact Hinv |].
    apply update_session_invariant; [apply with_commit_commits | exact Hinv].
Qed.

Lemma reachable_invariant (db : DB) : reachable db -> committed_has_l1_info db.
Proof.
  induction 1 as [db Hempty | op db Hreach IH].
  - intros id s. rewrite Hempty, lookup_empty. discriminate.
  - now apply apply_op_invariant.
Qed.

(** The operations other than the commit do not set [is_committed]: a
    session that is committed after one of them was committed before. *)
Lemma only_commit_writes_flag (op : Op) (db : DB) (sessionID : string)
    (session' : Session) :
  writes_is_committed op = false ->
  sessions (apply_op op db) !! sessionID = Some session' ->
  IsCommitted session' = true ->
  exists session, sessions db !! sessionID = Some session
                  /\ IsCommitted session = true.
Proof.
  assert (Hupd : forall db0 id f,
             (forall s, IsCommitted (f s) = IsCommitted s) ->
             sessions (update_session db0 id f) !! sessionID = Some session' ->
             IsCommitted session' = true ->
             exists session, sessions db0 !! sessionID = Some session
                             /\ IsCommitted session = true).
  { intros db0 id f Hf. unfold update_session. cbn [sessions set_sessions].
    rewrite lookup_alter. case_decide as Hid.
    - subst id. destruct (sessions db0 !! sessionID) as [s0 |]; [| discriminate].
      cbn. intros [= <-] Hc. exists s0. split; [reflexivity |]. now rewrite <- Hf.
    - eauto. }
  destruct op; cbn [writes_is_committed apply_op]; try discriminate; intros _.
  - unfold CreateSession. destruct (sessions db !! _); [eauto |].
    cbn [snd sessions set_sessions]. rewrite lookup_insert. case_decide.
    + intros [= <-]. discriminate.
    + eauto.
  - unfold ScanPackage. destruct (packages db !! packageID); [| eauto].
    cbn [snd]. intros Hl Hc.
    exact (Hupd _ _ (with_package_id packageID) (fun s => eq_refl) Hl Hc).
  - unfold ValidatePackage. destruct (packages db !! packageID); eauto.
  - unfold QualityCheck. destruct (sessions db !! sessionID0); [| eauto].
    destruct (first_where _ (packages db)); [| eauto].
    destruct (_ || _); eauto.
  - unfold LabelPackage. destruct (couriers db !! courierID); [| eauto].
    destruct (_ || _); [eauto |].
    match goal with
    | |- context [match sessions db !! ?i with _ => _ end] =>
        destruct (sessions db !! i) eqn:Hfk
    end; [| eauto]. cbn [snd]. intros Hl Hc.
    exact (Hupd _ _ (with_status "completed") (fun s => eq_refl) Hl Hc).
Qed.

(** C9. On every store that the L2 operations can reach, a session with
    [is_committed = true] has its [l1_tx_hash] and [l1_block_height] set;
    every operation preserves this; the operations other than
    [MarkSessionCommitted] (and the commit handler, which calls it) never
    set [is_committed]; and so the commit handler, whose 409 branch
    dereferences the stored [l1_tx_hash], never dereferences nil. *)
Theorem committed_session_has_tx_hash (db : DB) :
  reachable db ->
  committed_has_l1_info db
  /\ (forall op, committed_has_l1_info (apply_op op db))
  /\ (forall op sessionID session',
        writes_is_committed op = false ->
        sessions (apply_op op db) !! sessionID = Some session' ->
        IsCommitted session' = true ->
        exists session, sessions db !! sessionID = Some session
                        /\ IsCommitted session = true)
  /\ (forall sr w req, fst (CommitSessionHandler sr w db req) <> Panic).
Proof.
  intros Hreach. pose proof (reachable_invariant db Hreach) as Hinv. split_and!.
  - exact Hinv.
  - intros op. now apply apply_op_invariant.
  - intros op. apply only_commit_writes_flag.
  - intros sr w req. unfold CommitSessionHandler.
    destruct (negb _); [discriminate |].
    unfold GetSession.
    destruct (sessions db !! _) as [session |] eqn:Hs; [| discriminate].
    destruct (IsCommitted session) eqn:Hc.
    + destruct (Hinv _ _ Hs Hc) as [[h ->] _]. discriminate.
    + destruct (negb _); [discriminate |].
      destruct (CommitSession w session (clientGroup sr)); discriminate.
Qed.

(** A reachable store: a session is created, then marked committed. *)
Lemma committed_session_has_tx_hash_witness :
  fst (CommitSessionHandler Scenario.l2_services Scenario.l2_world
         (apply_op (OpMarkSessionCommitted 1000 "SES-30313233" "86261fc8" 7)
            (apply_op (OpCreateSession Scenario.random_a "OPR-001") Scenario.l2_seeded))
         (mkRequest "POST" "/session/SES-30313233/commit" "" ∅))
  <> Panic.
Proof.
  apply (committed_session_has_tx_hash _
           (reachable_step _ _
              (reachable_step _ _ (reachable_start Scenario.l2_seeded eq_refl)))).
Defined.

End SessionFacts.

(** ** The router on concrete requests *)

Module RouterScenarios.
Import Go Text L2 Scenario.



End RouterScenarios.

(** ** Strings: positions, prefixes, segments *)

Module StringFacts.
Import Go.

Lemma length_append (a b : string) :
  String.length (a +:+ b) = (String.length a + String.length b)%nat.
Proof. induction a as [| c a IH]; [reflexivity |]. step_append. simpl. now rewrite IH. Qed.

Lemma get_append_r (a b : string) (n : nat) :
  String.get (String.length a + n) (a +:+ b) = String.get n b.
Proof. induction a as [| c a IH]; [reflexivity |]. step_append. simpl. exact IH. Qed.

Lemma substring_all (b : string) : String.substring 0 (String.length b) b = b.
Proof. induction b as [| c b IH]; [reflexivity |]. simpl. now rewrite IH. Qed.

Lemma substring_append_skip (a b : string) (n m : nat) :
  String.substring (String.length a + n) m (a +:+ b) = String.substring n m b.
Proof. induction a as [| c a IH]; [reflexivity |]. step_append. simpl. exact IH. Qed.

Lemma substring_prefix (a b : string) :
  String.substring 0 (String.length a) (a +:+ b) = a.
Proof.
  induction a as [| c a IH].
  - destruct b; reflexivity.
  - step_append. simpl. now rewrite IH.
Qed.

Lemma all_chars_get (p : ascii -> bool) (s : string) (n : nat) (c : ascii) :
  all_chars p s = true -> String.get n s = Some c -> p c = true.
Proof.
  revert n. induction s as [| x s IH]; intros n Hall Hget; [discriminate |].
  simpl in Hall. apply andb_true_iff in Hall as [Hx Hs].
  destruct n as [| n]; simpl in Hget.
  - now injection Hget as <-.
  - eapply IH; eassumption.
Qed.

Lemma get_Some_lt (s : string) (n : nat) :
  (n < String.length s)%nat -> exists c, String.get n s = Some c.
Proof.
  revert n. induction s as [| x s IH]; intros n Hn; simpl in Hn; [lia |].
  destruct n as [| n]; [now exists x |]. simpl. apply IH. lia.
Qed.

Lemma append_inj_l (a b c : string) : a +:+ b = a +:+ c -> b = c.
Proof.
  induction a as [| x a IH]; [exact id |]. step_append. intros [= E]. now apply IH.
Qed.

Lemma prefix_append (a b : string) : String.prefix a (a +:+ b) = true.
Proof.
  induction a as [| x a IH]; [now destruct b |].
  step_append. simpl. destruct (ascii_dec x x); [exact IH | contradiction].
Qed.

Lemma Contains_unfold (s sub : string) :
  Contains s sub
  = if String.prefix sub s then true
    else match s with
         | EmptyString => false
         | String _ rest => Contains rest sub
         end.
Proof. destruct s; reflexivity. Qed.

(** [strings.Contains] finds a text that is there. *)
Lemma Contains_append (a sub b : string) : Contains (a +:+ sub +:+ b) sub = true.
Proof.
  induction a as [| x a IH].
  - change ("" +:+ sub +:+ b) with (sub +:+ b).
    rewrite Contains_unfold, prefix_append. reflexivity.
  - step_append. rewrite Contains_unfold.
    destruct (String.prefix sub (String x (a +:+ sub +:+ b))); [reflexivity | exact IH].
Qed.

(** *** [strings.Split] on the slash *)

Lemma Split_nonempty (s : string) : Split s <> [].
Proof.
  induction s as [| c s IH]; simpl; [discriminate |].
  destruct (Ascii.eqb c "/"); [discriminate |].
  destruct (Split s); [contradiction | discriminate].
Qed.

Lemma Split_cons (c : ascii) (s : string) :
  Split (String c s)
  = if Ascii.eqb c "/"%char then "" :: Split s
    else String c (hd "" (Split s)) :: tl (Split s).
Proof.
  simpl. destruct (Ascii.eqb c "/"); [reflexivity |].
  pose proof (Split_nonempty s). destruct (Split s); [contradiction | reflexivity].
Qed.

(** A text is determined by its segments. *)
Lemma Split_inj (s t : string) : Split s = Split t -> s = t.
Proof.
  revert t. induction s as [| c s IH]; intros t E.
  - destruct t as [| d t]; [reflexivity |]. rewrite Split_cons in E. simpl in E.
    destruct (Ascii.eqb d "/").
    + injection E as E. symmetry in E. now apply Split_nonempty in E.
    + discriminate.
  - destruct t as [| d t].
    + rewrite Split_cons in E. simpl in E. destruct (Ascii.eqb c "/").
      * injection E as E. now apply Split_nonempty in E.
      * discriminate.
    + rewrite !Split_cons in E.
      destruct (Ascii.eqb_spec c "/") as [-> | Hc], (Ascii.eqb_spec d "/") as [-> | Hd];
        try discriminate.
      * injection E as E. f_equal. now apply IH.
      * injection E as -> Eh Et. f_equal. apply IH.
        pose proof (Split_nonempty s). pose proof (Split_nonempty t).
        destruct (Split s), (Split t); try contradiction. simpl in *. congruence.
Qed.

(** A segment without slash in front of a slash is the first segment. *)
Lemma Split_segment (a b : string) :
  all_chars no_slash a = true -> Split (a +:+ String "/"%char b) = a :: Split b.
Proof.
  induction a as [| c a IH]; intros Hall.
  - reflexivity.
  - simpl in Hall. apply andb_true_iff in Hall as [Hc Ha].
    unfold no_slash in Hc. apply negb_true_iff in Hc.
    step_append. rewrite Split_cons, Hc, (IH Ha). reflexivity.
Qed.

Lemma Split_last (a : string) : all_chars no_slash a = true -> Split a = [a].
Proof.
  induction a as [| c a IH]; intros Hall; [reflexivity |].
  simpl in Hall. apply andb_true_iff in Hall as [Hc Ha].
  unfold no_slash in Hc. apply negb_true_iff in Hc.
  rewrite Split_cons, Hc, (IH Ha). reflexivity.
Qed.

End StringFacts.

(** ** The configuration of a shard *)

Module ConfigFacts.
Import Config.

Lemma getEnv_nonempty (env : string -> string) (key d : string) :
  d <> "" -> getEnv env key d <> "".
Proof.
  intros Hd. unfold getEnv. destruct (String.eqb_spec (env key) ""); assumption.
Qed.

(** X1. Whatever the environment holds, the configuration that
    [LoadConfig] builds passes [Validate], and none of its ten fields
    is empty (the four that [Validate] requires, the HTTP port and the
    host, port, user, password and name of the database): a variable
    that is not set or is set to the empty string gets its default,
    and no default is empty. *)
Theorem LoadConfig_validates (env : string -> string) :
  Validate (LoadConfig env) = None
  /\ ShardID (LoadConfig env) <> "" /\ ClientGroup (LoadConfig env) <> ""
  /\ L2NodeID (LoadConfig env) <> "" /\ L1Endpoint (LoadConfig env) <> ""
  /\ HTTPPort (LoadConfig env) <> ""
  /\ DatabaseHost (LoadConfig env) <> "" /\ DatabasePort (LoadConfig env) <> ""
  /\ DatabaseUser (LoadConfig env) <> "" /\ DatabasePass (LoadConfig env) <> ""
  /\ DatabaseName (LoadConfig env) <> "".
Proof.
  assert (H5 := getEnv_nonempty env "HTTP_PORT" "6000" ltac:(discriminate)).
  assert (H6 := getEnv_nonempty env "DB_HOST" "localhost" ltac:(discriminate)).
  assert (H7 := getEnv_nonempty env "DB_PORT" "5433" ltac:(discriminate)).
  assert (H8 := getEnv_nonempty env "DB_USER" "postgres" ltac:(discriminate)).
  assert (H9 := getEnv_nonempty env "DB_PASS" "postgrespassword" ltac:(discriminate)).
  assert (H10 := getEnv_nonempty env "DB_NAME" "l2_shard_db" ltac:(discriminate)).
  assert (H1 := getEnv_nonempty env "SHARD_ID" "shard-a" ltac:(discriminate)).
  assert (H2 := getEnv_nonempty env "CLIENT_GROUP" "group-a" ltac:(discriminate)).
  assert (H3 := getEnv_nonempty env "L2_NODE_ID" "l2-node-a" ltac:(discriminate)).
  assert (H4 := getEnv_nonempty env "L1_ENDPOINT" "http://localhost:5000"
                  ltac:(discriminate)).
  split_and!; try assumption.
  unfold Validate, LoadConfig. cbn [ShardID ClientGroup L2NodeID L1Endpoint].
  destruct (String.eqb_spec (getEnv env "SHARD_ID" "shard-a") ""); [contradiction |].
  destruct (String.eqb_spec (getEnv env "CLIENT_GROUP" "group-a") ""); [contradiction |].
  destruct (String.eqb_spec (getEnv env "L2_NODE_ID" "l2-node-a") ""); [contradiction |].
  destruct (String.eqb_spec (getEnv env "L1_ENDPOINT" "http://localhost:5000") "");
    [contradiction | reflexivity].
Qed.

End ConfigFacts.

(** ** The port of a listen address *)

Module AddressFacts.
Import Go L1 StringFacts.

Lemma get_append_l (a b : string) (n : nat) :
  (n < String.length a)%nat -> String.get n (a +:+ b) = String.get n a.
Proof.
  revert n. induction a as [| c a IH]; intros n Hn; simpl in Hn; [lia |].
  step_append. destruct n as [| n]; [reflexivity |]. simpl. apply IH. lia.
Qed.

Lemma scan_port_no_colon (s : string) (i : nat) :
  all_chars no_colon s = true -> (i <= String.length s)%nat -> scan_port s i = "".
Proof.
  intros Hall. induction i as [| j IH]; intros Hi; [reflexivity |].
  simpl. destruct (String.get j s) as [c |] eqn:E; [| apply IH; lia].
  pose proof (all_chars_get _ _ _ _ Hall E) as Hc. unfold no_colon in Hc.
  apply negb_true_iff in Hc. rewrite Hc. apply IH. lia.
Qed.

Lemma scan_port_suffix (host port : string) (k : nat) :
  all_chars no_colon port = true -> (k <= String.length port)%nat ->
  scan_port (host +:+ ":" +:+ port) (String.length host + 1 + k) = port.
Proof.
  intros Hall.
  assert (Hlen : String.length (host +:+ ":" +:+ port)
                 = (String.length host + S (String.length port))%nat).
  { rewrite length_append. reflexivity. }
  assert (Hget : forall n, String.get (String.length host + n) (host +:+ ":" +:+ port)
                           = String.get n (String ":"%char port)).
  { intros n. apply get_append_r. }
  assert (Hsub : String.substring (S (String.length host)) (String.length port)
                   (host +:+ ":" +:+ port) = port).
  { replace (S (String.length host)) with (String.length host + 1)%nat by lia.
    rewrite substring_append_skip. apply substring_all. }
  induction k as [| k IH]; intros Hk.
  - replace (String.length host + 1 + 0)%nat with (S (String.length host)) by lia.
    cbn [scan_port]. rewrite <- (Nat.add_0_r (String.length host)) at 1.
    rewrite Hget, Hlen. cbn [String.get Ascii.eqb]. simpl Ascii.eqb.
    replace (String.length host + S (String.length port) - S (String.length host))%nat
      with (String.length port) by lia.
    exact Hsub.
  - replace (String.length host + 1 + S k)%nat with (S (String.length host + S k)) by lia.
    cbn [scan_port]. rewrite Hget. cbn [String.get].
    destruct (get_Some_lt port k ltac:(lia)) as [c Hc]. rewrite Hc.
    pose proof (all_chars_get _ _ _ _ Hall Hc) as Hn. unfold no_colon in Hn.
    apply negb_true_iff in Hn. rewrite Hn.
    replace (String.length host + S k)%nat with (String.length host + 1 + k)%nat by lia.
    apply IH. lia.
Qed.

(** X2. [extractPortFromAddress] returns what follows the last colon of
    the address: for an address [host:port] whose port holds no colon it
    returns the port, whatever the host holds (colons included), and for
    an address without colon it returns the empty string. *)
Theorem extractPortFromAddress_last_colon (host port address : string) :
  (all_chars no_colon port = true ->
   extractPortFromAddress (host +:+ ":" +:+ port) = port)
  /\ (all_chars no_colon address = true ->
      extractPortFromAddress address = "").
Proof.
  split.
  - intros Hall. unfold extractPortFromAddress.
    replace (String.length (host +:+ ":" +:+ port))
      with (String.length host + 1 + String.length port)%nat.
    + apply scan_port_suffix; [exact Hall | lia].
    + rewrite length_append. change (":" +:+ port) with (String ":"%char port).
      simpl. lia.
  - intros Hall. apply scan_port_no_colon; [exact Hall | lia].
Qed.

Lemma extractPortFromAddress_last_colon_witness :
  extractPortFromAddress "tcp://0.0.0.0:9001" = "9001"
  /\ extractPortFromAddress "localhost" = "".
Proof.
  split.
  - apply (proj1 (extractPortFromAddress_last_colon "tcp://0.0.0.0" "9001" "")).
    reflexivity.
  - apply (proj2 (extractPortFromAddress_last_colon "" "" "localhost")).
    reflexivity.
Defined.

End AddressFacts.

(** ** The height encoding, from bytes to the integer and back *)

Module HeightDecoding.
Import Go Height.

Lemma Z_of_byte_range (a : ascii) : 0 <= Z_of_byte a < 256.
Proof.
  unfold Z_of_byte. pose proof (N_ascii_bounded a) as Hb. lia.
Qed.

Lemma byte_of_Z_of_byte (a : ascii) (q : Z) : byte_of_Z (q * 256 + Z_of_byte a) = a.
Proof.
  unfold byte_of_Z. pose proof (Z_of_byte_range a) as Hr.
  rewrite Z.add_comm, Z.mod_add by lia. rewrite Z.mod_small by exact Hr.
  unfold Z_of_byte. rewrite N2Z.id. apply ascii_N_embedding.
Qed.

(** The top byte shifted to bits 56..63 is the byte read as a signed
    number, times [2^56]. *)
Lemma shl64_56 (x : Z) :
  0 <= x < 256 ->
  shl64 x 56 = (if x <? 128 then x else x - 256) * 2 ^ 56.
Proof.
  intros Hx. unfold shl64. rewrite Z.shiftl_mul_pow2 by lia.
  apply HeightFacts.wrap_int64_congr.
  - unfold int64_range. destruct (Z.ltb_spec x 128); lia.
  - destruct (Z.ltb_spec x 128).
    + rewrite Z.sub_diag. reflexivity.
    + replace (x * 2 ^ 56 - (x - 256) * 2 ^ 56) with (1 * 2 ^ 64) by lia.
      apply Z.mod_mul. lia.
Qed.

Lemma lor_horner (a b s : Z) :
  0 <= s -> 0 <= b < 256 ->
  Z.lor (a * 2 ^ (s + 8)) (b * 2 ^ s) = (a * 256 + b) * 2 ^ s.
Proof.
  intros Hs Hb.
  assert (Hp : 0 < 2 ^ s) by (apply Z.pow_pos_nonneg; lia).
  rewrite HeightFacts.lor_high_low; [| lia |].
  - rewrite Z.pow_add_r by lia. change (2 ^ 8) with 256. lia.
  - rewrite Z.pow_add_r by lia. change (2 ^ 8) with 256. nia.
Qed.

Lemma div_horner (a b : Z) : 0 <= b < 256 -> (a * 256 + b) / 256 = a.
Proof.
  intros Hb. rewrite Z.add_comm, Z.div_add by lia. rewrite Z.div_small by lia. lia.
Qed.

(** X3. For every byte slice of at least 8 bytes, [bytesToInt64] gives
    an [int64] value whose encoding by [int64ToBytes] is the first 8 bytes
    of the slice: decoding loses nothing of them, whatever they are. *)
Theorem int64ToBytes_bytesToInt64 (buf : string) :
  (8 <= String.length buf)%nat ->
  int64_range (bytesToInt64 buf)
  /\ int64ToBytes (bytesToInt64 buf) = take_str 8 buf.
Proof.
  intros Hlen.
  destruct buf as [| b0 [| b1 [| b2 [| b3 [| b4 [| b5 [| b6 [| b7 rest]]]]]]]];
    simpl in Hlen; try lia.
  unfold bytesToInt64. 
  replace (String.length _ <? 8)%nat with false
    by (symmetry; apply Nat.ltb_ge; simpl; lia).
  cbn [at64 String.get].
  pose proof (Z_of_byte_range b0) as H0. pose proof (Z_of_byte_range b1) as H1.
  pose proof (Z_of_byte_range b2) as H2. pose proof (Z_of_byte_range b3) as H3.
  pose proof (Z_of_byte_range b4) as H4. pose proof (Z_of_byte_range b5) as H5.
  pose proof (Z_of_byte_range b6) as H6. pose proof (Z_of_byte_range b7) as H7.
  rewrite (shl64_56 _ H0). rewrite !HeightFacts.shl64_small by lia.
  set (A := if Z_of_byte b0 <? 128 then Z_of_byte b0 else Z_of_byte b0 - 256).
  assert (HA : -128 <= A < 128) by (unfold A; destruct (Z.ltb_spec (Z_of_byte b0) 128); lia).
  assert (HA0 : exists q, A = q * 256 + Z_of_byte b0).
  { unfold A. destruct (Z.ltb_spec (Z_of_byte b0) 128); [exists 0 | exists (-1)]; lia. }
  change (2 ^ 56) with (2 ^ (48 + 8)). rewrite (lor_horner A _ 48) by lia.
  change (2 ^ 48) with (2 ^ (40 + 8)). rewrite (lor_horner _ _ 40) by lia.
  change (2 ^ 40) with (2 ^ (32 + 8)). rewrite (lor_horner _ _ 32) by lia.
  change (2 ^ 32) with (2 ^ (24 + 8)). rewrite (lor_horner _ _ 24) by lia.
  change (2 ^ 24) with (2 ^ (16 + 8)). rewrite (lor_horner _ _ 16) by lia.
  change (2 ^ 16) with (2 ^ (8 + 8)). rewrite (lor_horner _ _ 8) by lia.
  rewrite HeightFacts.lor_high_low by lia. change (2 ^ 8) with 256.
  set (V1 := A * 256 + Z_of_byte b1). set (V2 := V1 * 256 + Z_of_byte b2).
  set (V3 := V2 * 256 + Z_of_byte b3). set (V4 := V3 * 256 + Z_of_byte b4).
  set (V5 := V4 * 256 + Z_of_byte b5). set (V6 := V5 * 256 + Z_of_byte b6).
  set (V7 := V6 * 256 + Z_of_byte b7).
  split.
  - unfold int64_range, V7, V6, V5, V4, V3, V2, V1. lia.
  - unfold int64ToBytes, shr64. rewrite !Z.shiftr_div_pow2 by lia.
    assert (E8 : V7 / 2 ^ 8 = V6) by (change (2 ^ 8) with 256; apply div_horner; lia).
    assert (E16 : V7 / 2 ^ 16 = V5).
    { change (2 ^ 16) with (2 ^ 8 * 256). rewrite <- Z.div_div by lia.
      rewrite E8. apply div_horner; lia. }
    assert (E24 : V7 / 2 ^ 24 = V4).
    { change (2 ^ 24) with (2 ^ 16 * 256). rewrite <- Z.div_div by lia.
      rewrite E16. apply div_horner; lia. }
    assert (E32 : V7 / 2 ^ 32 = V3).
    { change (2 ^ 32) with (2 ^ 24 * 256). rewrite <- Z.div_div by lia.
      rewrite E24. apply div_horner; lia. }
    assert (E40 : V7 / 2 ^ 40 = V2).
    { change (2 ^ 40) with (2 ^ 32 * 256). rewrite <- Z.div_div by lia.
      rewrite E32. apply div_horner; lia. }
    assert (E48 : V7 / 2 ^ 48 = V1).
    { change (2 ^ 48) with (2 ^ 40 * 256). rewrite <- Z.div_div by lia.
      rewrite E40. apply div_horner; lia. }
    assert (E56 : V7 / 2 ^ 56 = A).
    { change (2 ^ 56) with (2 ^ 48 * 256). rewrite <- Z.div_div by lia.
      rewrite E48. apply div_horner; lia. }
    rewrite E8, E16, E24, E32, E40, E48, E56.
    destruct HA0 as [q Hq]. rewrite Hq at 1.
    unfold V7, V6, V5, V4, V3, V2, V1.
    rewrite !byte_of_Z_of_byte. destruct rest; reflexivity.
Qed.

Lemma int64ToBytes_bytesToInt64_witness :
  int64_range (bytesToInt64 "ABCDEFGHtail")
  /\ int64ToBytes (bytesToInt64 "ABCDEFGHtail") = "ABCDEFGH".
Proof. apply (int64ToBytes_bytesToInt64 "ABCDEFGHtail"). simpl. lia. Defined.

End HeightDecoding.

(** ** Proposals and queries of the ABCI application *)

Module ProposalFacts.
Import Go L1.

Section WithCodec.
Context `{Codec}.

(** What [CheckTx] and [ProcessProposal] ask of one transaction. *)
Lemma CheckTx_accepts (tx : string) :
  CheckTx tx = 0%N
  <-> exists c, Unmarshal tx = inl c
                /\ ShardID c <> "" /\ SessionID c <> "" /\ ClientGroup c <> "".
Proof.
  unfold CheckTx. destruct (Unmarshal tx) as [c | e].
  - case_bool_decide as Hd.
    + split; [discriminate |]. intros (c' & [= <-] & ? & ? & ?). tauto.
    + split; [| reflexivity]. intros _. exists c.
      split; [reflexivity |]. split_and!; intros E; apply Hd; tauto.
  - split; [discriminate |]. intros (c & E & _). discriminate.
Qed.

Lemma ProcessProposal_accepts (txs : list string) :
  ProcessProposal txs = true
  <-> Forall (fun tx => exists c, Unmarshal tx = inl c
                                  /\ ShardID c <> "" /\ SessionID c <> "") txs.
Proof.
  induction txs as [| tx txs IH]; cbn [ProcessProposal].
  - split; [constructor | reflexivity].
  - destruct (Unmarshal tx) as [c | e] eqn:E.
    + case_bool_decide as Hd.
      * split; [discriminate |]. intros Hall. inversion Hall as [| ? ? Hx _]; subst.
        destruct Hx as (c' & Ec & ? & ?). rewrite E in Ec. injection Ec as <-. tauto.
      * rewrite IH. split.
        -- intros Hall. constructor; [| exact Hall].
           exists c. split; [exact E |]. split; intros E'; apply Hd; tauto.
        -- intros Hall. now inversion Hall.
    + split; [discriminate |]. intros Hall. inversion Hall as [| ? ? Hx _]; subst.
      destruct Hx as (c' & Ec & _). rewrite E in Ec. discriminate.
Qed.

(** X4. A proposal is accepted by [ProcessProposal] exactly when every
    transaction of it decodes as a shard commit with a shard id and a
    session id; [CheckTx] asks that and a client group, and
    [PrepareProposal] proposes the transactions it is given, so a proposal
    prepared from transactions that all passed [CheckTx] is accepted. *)
Theorem checked_transactions_are_accepted (txs : list string) :
  (ProcessProposal txs = true
   <-> Forall (fun tx => exists c, Unmarshal tx = inl c
                                   /\ ShardID c <> "" /\ SessionID c <> "") txs)
  /\ (Forall (fun tx => CheckTx tx = 0%N) txs ->
      ProcessProposal (PrepareProposal txs) = true).
Proof.
  split; [apply ProcessProposal_accepts |].
  intros Hall. unfold PrepareProposal. apply ProcessProposal_accepts.
  eapply Forall_impl; [exact Hall |]. intros tx Htx. cbn in Htx.
  apply CheckTx_accepts in Htx as (c & E & ? & ? & _). eauto.
Qed.

End WithCodec.

Lemma checked_transactions_are_accepted_witness :
  ProcessProposal (H := JSON.codec)
    (PrepareProposal [Scenario.dup1_body; Scenario.other_body]) = true.
Proof.
  apply (proj2 (checked_transactions_are_accepted (H := JSON.codec)
                  [Scenario.dup1_body; Scenario.other_body])).
  repeat constructor.
Defined.

End ProposalFacts.

Module QueryFacts.
Import Go L1 StringFacts.

(** X5. [Query] at the bounds of its slice expressions: empty data is
    answered with code 1; data of at least 7 bytes is always answered;
    data of 1 to 6 bytes whose capacity is below 7 makes the prefix test
    [req.Data[:7]] panic. *)
Theorem Query_bounds (rf : ReadFaults) (app : Application) (Data : Slice) :
  (len Data = 0%nat ->
   Query rf app Data = Some (mkQueryResponse 1 "Empty query data" "" ""))
  /\ ((7 <= len Data)%nat -> is_Some (Query rf app Data))
  /\ ((0 < len Data)%nat -> (cap Data < 7)%nat -> Query rf app Data = None).
Proof.
  unfold Query, slice_to, slice_from. split_and!.
  - intros ->. reflexivity.
  - intros Hlen. assert (Hcap : (7 <= cap Data)%nat) by (unfold cap, len in *; lia).
    destruct (Nat.eqb_spec (len Data) 0); [lia |].
    destruct (Nat.leb_spec 7 (cap Data)); [| lia].
    destruct (Nat.leb_spec 6 (cap Data)); [| lia].
    destruct (Nat.leb_spec 7 (len Data)); [| lia].
    destruct (Nat.leb_spec 6 (len Data)); [| lia].
    destruct (String.eqb _ "verify:"); [eauto |].
    destruct (String.eqb _ "shard:"); [eauto |].
    destruct (txn_Get rf (badgerDB app) (elems Data)); eauto.
    destruct (item_Value rf (elems Data) val); eauto.
  - intros Hlen Hcap.
    destruct (Nat.eqb_spec (len Data) 0); [lia |].
    destruct (Nat.leb_spec 7 (cap Data)); [lia | reflexivity].
Qed.

Lemma Query_bounds_witness :
  Query no_read_faults (mkApplication ∅ None) (mkSlice "" "")
  = Some (mkQueryResponse 1 "Empty query data" "" "")
  /\ is_Some (Query no_read_faults (mkApplication ∅ None) (mkSlice "last_block_height" ""))
  /\ Query no_read_faults (mkApplication ∅ None) (mkSlice "height" "") = None.
Proof.
  pose proof (Query_bounds no_read_faults (mkApplication ∅ None) (mkSlice "" ""))
    as (H1 & _ & _).
  pose proof (Query_bounds no_read_faults (mkApplication ∅ None)
                (mkSlice "last_block_height" "")) as (_ & H2 & _).
  pose proof (Query_bounds no_read_faults (mkApplication ∅ None) (mkSlice "height" ""))
    as (_ & _ & H3).
  split_and!.
  - apply H1. reflexivity.
  - apply H2. vm_compute. lia.
  - apply H3; vm_compute; lia.
Defined.

End QueryFacts.

(** ** What a committed block leaves for [Query] *)

Module LedgerFacts.
Import Go L1 StringFacts.

Lemma txKey_inj (a b : string) : txKey a = txKey b -> a = b.
Proof. apply append_inj_l. Qed.

Lemma statusKey_inj (a b : string) : statusKey a = statusKey b -> a = b.
Proof. apply append_inj_l. Qed.

(** The keys of the three kinds differ, and they differ from the two
    block keys. *)
Lemma key_kinds (id id' sh se : string) :
  txKey id <> statusKey id' /\ txKey id <> shardKey sh se
  /\ statusKey id <> shardKey sh se
  /\ txKey id <> "last_block_height" /\ txKey id <> "last_block_app_hash"
  /\ statusKey id <> "last_block_height" /\ statusKey id <> "last_block_app_hash"
  /\ shardKey sh se <> "last_block_height" /\ shardKey sh se <> "last_block_app_hash".
Proof. split_and!; cbv [txKey statusKey shardKey String.append]; discriminate. Qed.

Section Accepting.
Context `{Codec} `{Ledger}.
Hypothesis set_accepts : forall txn key value, set_err txn key value = None.

Lemma finalizeTx_writes (txn : Txn) (tx : string) :
  fst (finalizeTx txn tx)
  = match Unmarshal tx with
    | inl c =>
        let txID := generateTxID (SessionID c) (ShardID c) in
        <[statusKey txID := "accepted"]>
          (<[shardKey (ShardID c) (SessionID c) := tx]> (<[txKey txID := tx]> txn))
    | inr _ => txn
    end.
Proof.
  unfold finalizeTx. destruct (Unmarshal tx) as [c | e]; [| reflexivity].
  unfold storeShardCommit, Txn_Set. rewrite !set_accepts. reflexivity.
Qed.

(** The last transaction of a block that writes a key decides its
    value: [writes tx] is what one step writes under [key], if
    anything. *)
Section LastWriter.
Variable key : string.
Variable writes : string -> option string.
Hypothesis step : forall txn tx,
  fst (finalizeTx txn tx) !! key
  = match writes tx with Some v => Some v | None => txn !! key end.

Lemma finalizeTxs_snoc (txn : Txn) (txs : list string) (tx : string) :
  fst (finalizeTxs txn (txs ++ [tx])) = fst (finalizeTx (fst (finalizeTxs txn txs)) tx).
Proof.
  rewrite AppFacts.finalizeTxs_app.
  destruct (finalizeTxs txn txs) as [t1 r1]. cbn [finalizeTxs fst].
  destruct (finalizeTx t1 tx). reflexivity.
Qed.

Lemma last_writer (txn : Txn) (txs : list string) :
  (exists tx, tx ∈ txs /\ is_Some (writes tx)) ->
  exists tx v, tx ∈ txs /\ writes tx = Some v
               /\ fst (finalizeTxs txn txs) !! key = Some v.
Proof.
  induction txs as [| tx txs IH] using rev_ind; intros (tx0 & Hin & Hw).
  - now apply elem_of_nil in Hin.
  - rewrite finalizeTxs_snoc, step.
    destruct (writes tx) as [v |] eqn:E.
    + exists tx, v. split_and!; [| exact E | reflexivity].
      apply elem_of_app. right. now apply list_elem_of_singleton.
    + apply elem_of_app in Hin as [Hin | Hin].
      * destruct IH as (tx' & v & Hin' & Hw' & Hl); [eauto |].
        exists tx', v. split_and!; [| exact Hw' | exact Hl].
        apply elem_of_app. now left.
      * apply list_elem_of_singleton in Hin as ->. rewrite E in Hw.
        now destruct Hw.
Qed.

Lemma no_writer (txn : Txn) (txs : list string) :
  (forall tx, tx ∈ txs -> writes tx = None) ->
  fst (finalizeTxs txn txs) !! key = txn !! key.
Proof.
  induction txs as [| tx txs IH] using rev_ind; intros Hno; [reflexivity |].
  rewrite finalizeTxs_snoc, step, (Hno tx)
    by (apply elem_of_app; right; now apply list_elem_of_singleton).
  apply IH. intros tx' Hin. apply Hno. apply elem_of_app. now left.
Qed.

End LastWriter.

(** What one step writes under the key of a transaction id, under the
    status key of a transaction id, and under a shard key. *)
Lemma step_txKey (id : string) (txn : Txn) (tx : string) :
  fst (finalizeTx txn tx) !! txKey id
  = match (match Unmarshal tx with
           | inl c => if decide (generateTxID (SessionID c) (ShardID c) = id)
                      then Some tx else None
           | inr _ => None
           end) with
    | Some v => Some v
    | None => txn !! txKey id
    end.
Proof.
  rewrite finalizeTx_writes. destruct (Unmarshal tx) as [c | e]; [| reflexivity].
  cbn zeta.
  pose proof (key_kinds id (generateTxID (SessionID c) (ShardID c)) (ShardID c)
                (SessionID c)) as (N1 & N2 & _).
  rewrite lookup_insert_ne by (intros E; apply N1; now symmetry).
  rewrite lookup_insert_ne by (intros E; apply N2; now symmetry).
  destruct (decide _) as [<- | Hne].
  - apply lookup_insert_eq.
  - apply lookup_insert_ne. intros E. apply Hne. now apply txKey_inj.
Qed.

Lemma step_statusKey (id : string) (txn : Txn) (tx : string) :
  fst (finalizeTx txn tx) !! statusKey id
  = match (match Unmarshal tx with
           | inl c => if decide (generateTxID (SessionID c) (ShardID c) = id)
                      then Some "accepted" else None
           | inr _ => None
           end) with
    | Some v => Some v
    | None => txn !! statusKey id
    end.
Proof.
  rewrite finalizeTx_writes. destruct (Unmarshal tx) as [c | e]; [| reflexivity].
  cbn zeta.
  pose proof (key_kinds (generateTxID (SessionID c) (ShardID c)) id (ShardID c)
                (SessionID c)) as (N1 & _).
  pose proof (key_kinds id id (ShardID c) (SessionID c)) as (_ & _ & N3 & _).
  destruct (decide _) as [<- | Hne].
  - apply lookup_insert_eq.
  - rewrite lookup_insert_ne by (intros E; apply Hne; now apply statusKey_inj).
    rewrite lookup_insert_ne by (intros E; apply N3; now symmetry).
    apply lookup_insert_ne. exact N1.
Qed.

Lemma step_shardKey (k : string) (txn : Txn) (tx : string) :
  (exists sh se, k = shardKey sh se) ->
  fst (finalizeTx txn tx) !! k
  = match (match Unmarshal tx with
           | inl c => if decide (shardKey (ShardID c) (SessionID c) = k)
                      then Some tx else None
           | inr _ => None
           end) with
    | Some v => Some v
    | None => txn !! k
    end.
Proof.
  intros (sh & se & ->).
  rewrite finalizeTx_writes. destruct (Unmarshal tx) as [c | e]; [| reflexivity].
  cbn zeta.
  pose proof (key_kinds (generateTxID (SessionID c) (ShardID c))
                (generateTxID (SessionID c) (ShardID c)) sh se) as (_ & N2 & N3 & _).
  rewrite lookup_insert_ne by exact N3.
  destruct (decide _) as [-> | Hne].
  - apply lookup_insert_eq.
  - rewrite lookup_insert_ne by exact Hne. apply lookup_insert_ne. exact N2.
Qed.

End Accepting.

(** Slices that hold a query with its prefix. *)
Lemma slice_verify (txID room : string) :
  len (mkSlice ("verify:" +:+ txID) room) <> 0%nat
  /\ slice_to (mkSlice ("verify:" +:+ txID) room) 7 = Some "verify:"
  /\ slice_from (mkSlice ("verify:" +:+ txID) room) 7 = Some txID.
Proof.
  unfold len, slice_to, slice_from, cap, len. cbn [elems spare].
  rewrite !length_append. cbn [String.length].
  split_and!; [lia | |].
  - destruct (Nat.leb_spec 7 (7 + String.length txID + String.length room)); [| lia].
    f_equal. rewrite AppFacts.append_assoc. apply (substring_prefix "verify:").
  - destruct (Nat.leb_spec 7 (7 + String.length txID)); [| lia].
    f_equal. replace (7 + String.length txID - 7)%nat with (String.length txID) by lia.
    change 7%nat with (String.length "verify:" + 0)%nat at 1.
    rewrite substring_append_skip. apply substring_all.
Qed.

Lemma slice_shard (shardID room : string) :
  shardID <> "" ->
  len (mkSlice ("shard:" +:+ shardID) room) <> 0%nat
  /\ (exists head7, slice_to (mkSlice ("shard:" +:+ shardID) room) 7 = Some head7
                    /\ String.eqb head7 "verify:" = false)
  /\ slice_to (mkSlice ("shard:" +:+ shardID) room) 6 = Some "shard:"
  /\ slice_from (mkSlice ("shard:" +:+ shardID) room) 6 = Some shardID.
Proof.
  intros Hne. destruct shardID as [| c rest]; [contradiction |].
  unfold len, slice_to, slice_from, cap, len. cbn [elems spare].
  rewrite !length_append. cbn [String.length].
  split_and!; [lia | | |].
  - destruct (Nat.leb_spec 7 (6 + S (String.length rest) + String.length room)); [| lia].
    eexists. split; [reflexivity |].
    rewrite AppFacts.append_assoc. unfold take_str. step_append. reflexivity.
  - destruct (Nat.leb_spec 6 (6 + S (String.length rest) + String.length room)); [| lia].
    reflexivity.
  - destruct (Nat.leb_spec 6 (6 + S (String.length rest))); [| lia].
    f_equal.
    replace (6 + S (String.length rest) - 6)%nat with (String.length (String c rest))
      by (simpl; lia).
    change 6%nat with (String.length "shard:" + 0)%nat at 1.
    rewrite substring_append_skip. apply substring_all.
Qed.

Section RoundTrip.
Context `{Codec} `{Ledger}.


End RoundTrip.


(** *** The keys of the ledger *)

Section Keys.
Context `{Codec} `{Ledger}.

Lemma Txn_Set_keys (txn : Txn) (k v key : string) :
  is_Some (fst (Txn_Set txn k v) !! key) -> key = k \/ is_Some (txn !! key).
Proof.
  unfold Txn_Set. destruct (set_err txn k v); cbn [fst]; [now right |].
  destruct (decide (key = k)) as [-> | Hne]; [now left |].
  rewrite lookup_insert_ne by congruence. now right.
Qed.

Lemma finalizeTx_keys (txn : Txn) (tx key : string) :
  is_Some (fst (finalizeTx txn tx) !! key) -> ledger_key key \/ is_Some (txn !! key).
Proof.
  unfold finalizeTx. destruct (Unmarshal tx) as [c | e]; [| now right].
  unfold storeShardCommit.
  destruct (Txn_Set txn _ tx) as [txn1 [err |]] eqn:E1; cbn [fst]; [now right |].
  intros Hk.
  apply Txn_Set_keys in Hk as [-> | Hk].
  { left. unfold ledger_key. do 3 right. left. eauto. }
  apply Txn_Set_keys in Hk as [-> | Hk].
  { left. unfold ledger_key. do 4 right. eauto. }
  replace txn1 with (fst (Txn_Set txn ("tx:" +:+ generateTxID (SessionID c) (ShardID c)) tx))
    in Hk by now rewrite E1.
  apply Txn_Set_keys in Hk as [-> | Hk]; [| now right].
  left. unfold ledger_key. do 2 right. left. eauto.
Qed.

Lemma finalizeTxs_keys (txs : list string) (txn : Txn) (key : string) :
  is_Some (fst (finalizeTxs txn txs) !! key) -> ledger_key key \/ is_Some (txn !! key).
Proof.
  revert txn. induction txs as [| tx txs IH]; intros txn; cbn [finalizeTxs].
  - now right.
  - destruct (finalizeTx txn tx) as [txn1 r] eqn:E1.
    destruct (finalizeTxs txn1 txs) as [txn2 rs] eqn:E2. cbn [fst]. intros Hk.
    specialize (IH txn1). rewrite E2 in IH. destruct (IH Hk) as [? | Hk1]; [now left |].
    apply (finalizeTx_keys txn tx). now rewrite E1.
Qed.

Lemma reachable_keys (app : Application) :
  ledger_reachable app ->
  forall key, is_Some (badgerDB app !! key) -> ledger_key key.
Proof.
  induction 1 as [app Hempty | app app' req Hreach IH Hcommit]; intros key Hk.
  - rewrite Hempty, lookup_empty in Hk. now destruct Hk.
  - unfold FinalizeBlock, Commit in Hcommit.
    destruct (finalizeTxs ∅ (Txs req)) as [txn1 rs] eqn:E.
    cbn [snd onGoingBlock badgerDB] in Hcommit.
    destruct (commit_err _ _); injection Hcommit as <-; cbn [badgerDB] in Hk.
    + now apply IH.
    + apply lookup_union_is_Some in Hk as [Hk | Hk]; [| now apply IH].
      apply Txn_Set_keys in Hk as [-> | Hk]; [unfold ledger_key; tauto |].
      apply Txn_Set_keys in Hk as [-> | Hk]; [unfold ledger_key; tauto |].
      replace txn1 with (fst (finalizeTxs ∅ (Txs req))) in Hk by now rewrite E.
      apply finalizeTxs_keys in Hk as [? | Hk]; [assumption |].
      rewrite lookup_empty in Hk. now destruct Hk.
Qed.

(** X7. The application writes shard data only under the composite key
    [shard:<shard id>:session:<session id>].  So on every ledger that it
    can reach, whatever the blocks were and whatever the store did with
    the writes, the query [shard:<id>] for an id that does not contain
    the text [:session:] (a plain shard id) is answered with code 1 and
    the log [Shard not found]. *)
Theorem plain_shard_id_is_not_found (app : Application) (shardID room : string) :
  ledger_reachable app ->
  shardID <> "" ->
  Contains shardID ":session:" = false ->
  Query no_read_faults app (mkSlice ("shard:" +:+ shardID) room)
  = Some (mkQueryResponse 1 "Shard not found" "" "").
Proof.
  intros Hreach Hne Hplain.
  destruct (slice_shard shardID room Hne) as (L & (h7 & S7 & N7) & S6 & F6).
  unfold Query. destruct (Nat.eqb_spec (len (mkSlice ("shard:" +:+ shardID) room)) 0);
    [contradiction |].
  rewrite S7, N7, S6. cbn [String.eqb Ascii.eqb Bool.eqb]. rewrite F6.
  unfold queryShardData, txn_Get, item_Value, no_read_faults.
  cbn [get_fault value_fault].
  destruct (badgerDB app !! ("shard:" +:+ shardID)) as [v |] eqn:E; [| reflexivity].
  exfalso.
  destruct (reachable_keys app Hreach ("shard:" +:+ shardID)) as [K | [K | [K | [K | K]]]].
  - rewrite E. eauto.
  - cbv [String.append] in K. discriminate.
  - cbv [String.append] in K. discriminate.
  - destruct K as (id & K). cbv [String.append] in K. discriminate.
  - destruct K as (id & K). cbv [String.append] in K. discriminate.
  - destruct K as (sh & se & K). apply append_inj_l in K. subst shardID.
    now rewrite Contains_append in Hplain.
Qed.

End Keys.

(** The ledger after the block of the two commits of shard [shard-a]. *)
Lemma plain_shard_id_is_not_found_witness :
  match Commit (H0 := Scenario.accepting_ledger)
          (snd (FinalizeBlock (H := JSON.codec) (H0 := Scenario.accepting_ledger)
                  (mkApplication ∅ None)
                  (mkFinalizeBlockRequest [Scenario.dup1_body; Scenario.other_body] 1)))
  with
  | Some app' =>
      Query no_read_faults app' (mkSlice ("shard:" +:+ "shard-a") "")
      = Some (mkQueryResponse 1 "Shard not found" "" "")
  | None => False
  end.
Proof.
  destruct (Commit _) as [app' |] eqn:E.
  - apply (plain_shard_id_is_not_found (H := JSON.codec)
             (H0 := Scenario.accepting_ledger)).
    + eapply (ledger_block (mkApplication ∅ None)); [now apply ledger_start | exact E].
    + discriminate.
    + reflexivity.
  - unfold Commit, FinalizeBlock in E.
    destruct (finalizeTxs _ _) in E. discriminate E.
Defined.

End LedgerFacts.

(** ** The L1 index: frame, integrity, blocked sessions, queries *)

Module IndexFacts.
Import Go Text L1.

Section WithCodec.
Context `{Codec}.

Lemma preInsert_row (faults : DbFaults) (db db1 : DB) (c : ShardedCommitRequest)
    (session : Session) :
  preInsert faults db c = inr (db1, session) ->
  session = pending_row c
  /\ sessions db !! SessionID c = None
  /\ is_Some (shards db !! ShardID c)
  /\ db1 = mkDB (shards db) (<[SessionID c := pending_row c]> (sessions db))
                (transactions db).
Proof.
  unfold preInsert, pending_row. intros Hadm.
  destruct (f_begin faults); [discriminate |].
  destruct (f_find_shard faults); [discriminate |].
  destruct (shards db !! ShardID c) eqn:Hs; [| discriminate].
  cbn [se_ID] in Hadm.
  destruct (sessions db !! SessionID c) eqn:Hrow; [discriminate |].
  destruct (f_create_session faults); [discriminate |].
  destruct (f_commit_first faults); [discriminate |].
  injection Hadm as <- <-. eauto 10.
Qed.

(** The outcomes of the second transaction: it fails and leaves the
    index, or it writes the two rows of the session. *)
Lemma record_tx_cases (faults : DbFaults) (db : DB) (c : ShardedCommitRequest)
    (res : ConsensusResult) :
  (exists e, record_tx faults db c (pending_row c) res = (inr e, db)
             /\ Code e = "DATABASE_ERROR")
  \/ (transactions db !! SessionID c = None
      /\ record_tx faults db c (pending_row c) res
         = (inl (mkTransaction (cr_TxHash res) (SessionID c) (ShardID c) (ClientGroup c)
                   (cr_BlockHeight res) "confirmed"),
            mkDB (shards db)
              (<[SessionID c :=
                   mkSession (SessionID c) (ShardID c) (ClientGroup c) (OperatorID c)
                     "committed" true (Some (cr_TxHash res))
                     (MarshalData (SessionData c))]> (sessions db))
              (<[SessionID c :=
                   mkTransaction (cr_TxHash res) (SessionID c) (ShardID c)
                     (ClientGroup c) (cr_BlockHeight res) "confirmed"]>
                 (transactions db)))).
Proof.
  unfold record_tx, pending_row. cbn [tr_SessionID se_ID].
  destruct (f_save_session faults); [left; eauto |].
  destruct (transactions db !! SessionID c) eqn:Ht; [left; eauto |].
  destruct (f_create_tx faults); [left; eauto |].
  destruct (f_commit_final faults); [left; eauto |].
  right. split; reflexivity.
Qed.

(** The outcomes of a settlement. *)
Lemma settle_cases (rpc : string -> Broadcast) (faults : DbFaults) (db : DB)
    (c : ShardedCommitRequest) :
  snd (settle rpc faults db c (pending_row c)) = db
  \/ snd (settle rpc faults db c (pending_row c))
     = Delete_session faults db (pending_row c)
  \/ exists res,
       RunConsensus rpc Background c = Some (inl res)
       /\ settle rpc faults db c (pending_row c)
          = (Some (fst (record_tx faults db c (pending_row c) res)),
             snd (record_tx faults db c (pending_row c) res)).
Proof.
  unfold settle. destruct (RunConsensus rpc Background c) as [[res | e] |].
  - right. right. exists res. split; [reflexivity |].
    destruct (record_tx faults db c (pending_row c) res). reflexivity.
  - right. left. reflexivity.
  - left. reflexivity.
Qed.

Lemma Delete_session_frame (faults : DbFaults) (db : DB) (session : Session) :
  shards (Delete_session faults db session) = shards db
  /\ transactions (Delete_session faults db session) = transactions db
  /\ forall id, id <> se_ID session ->
       sessions (Delete_session faults db session) !! id = sessions db !! id.
Proof.
  unfold Delete_session. destruct (f_delete faults); [auto |].
  case_bool_decide; cbn [shards sessions transactions].
  - auto.
  - split_and!; [reflexivity | reflexivity |].
    intros id Hid. apply lookup_delete_ne. congruence.
Qed.

Lemma settle_frame (rpc : string -> Broadcast) (faults : DbFaults) (db : DB)
    (c : ShardedCommitRequest) :
  let db' := snd (settle rpc faults db c (pending_row c)) in
  shards db' = shards db
  /\ forall id, id <> SessionID c ->
       sessions db' !! id = sessions db !! id
       /\ transactions db' !! id = transactions db !! id.
Proof.
  cbn zeta. destruct (settle_cases rpc faults db c) as [-> | [-> | (res & _ & ->)]].
  - auto.
  - destruct (Delete_session_frame faults db (pending_row c)) as (Hs & Ht & Hrow).
    split; [exact Hs |]. intros id Hid. rewrite Ht. split; [| reflexivity].
    apply Hrow. exact Hid.
  - cbn [snd].
    destruct (record_tx_cases faults db c res) as [(e & -> & _) | (_ & ->)]; cbn [snd].
    + auto.
    + cbn [shards sessions transactions]. split; [reflexivity |].
      intros id Hid. rewrite !lookup_insert_ne by congruence. auto.
Qed.

(** X8. A call of [ReceiveShardCommit] works on one session only: it
    never changes the shard registry, and it leaves the rows of every
    other session and the transaction rows of every other session as they
    are, whatever its outcome. *)
Theorem ReceiveShardCommit_frame (rpc : string -> Broadcast) (faults : DbFaults)
    (db : DB) (c : ShardedCommitRequest) :
  let db' := snd (ReceiveShardCommit rpc faults db c) in
  shards db' = shards db
  /\ forall id, id <> SessionID c ->
       sessions db' !! id = sessions db !! id
       /\ transactions db' !! id = transactions db !! id.
Proof.
  cbn zeta. unfold ReceiveShardCommit.
  destruct (preInsert faults db c) as [e | [db1 session]] eqn:E; cbn [snd]; [auto |].
  apply preInsert_row in E as (-> & _ & _ & ->).
  pose proof (settle_frame rpc faults
                (mkDB (shards db) (<[SessionID c := pending_row c]> (sessions db))
                   (transactions db)) c) as [Hs Hrest].
  cbn zeta in Hs, Hrest. cbn [shards sessions transactions] in Hs, Hrest.
  split; [exact Hs |]. intros id Hid. destruct (Hrest id Hid) as [-> ->].
  rewrite lookup_insert_ne by congruence. auto.
Qed.

(** *** Referential integrity *)

Lemma consistent_admitted (db : DB) (c : ShardedCommitRequest) :
  consistent db ->
  sessions db !! SessionID c = None ->
  is_Some (shards db !! ShardID c) ->
  consistent (mkDB (shards db) (<[SessionID c := pending_row c]> (sessions db))
                (transactions db)).
Proof.
  intros (I1 & I2 & I3) Hnone Hshard. unfold consistent.
  cbn [shards sessions transactions]. split_and!.
  - intros id s Hs. destruct (decide (id = SessionID c)) as [-> | Hne].
    + rewrite lookup_insert_eq in Hs. injection Hs as <-.
      unfold pending_row. cbn. auto.
    + rewrite lookup_insert_ne in Hs by congruence. now apply I1.
  - intros id t Ht. destruct (I2 id t Ht) as (Hid & s & Hs & Hrest).
    split; [exact Hid |]. exists s. split; [| exact Hrest].
    rewrite lookup_insert_ne; [exact Hs |]. intros <-. congruence.
  - intros id s h Hs Hh. destruct (decide (id = SessionID c)) as [-> | Hne].
    + rewrite lookup_insert_eq in Hs. injection Hs as <-. discriminate.
    + rewrite lookup_insert_ne in Hs by congruence. eapply I3; eassumption.
Qed.

Lemma consistent_deleted (faults : DbFaults) (db : DB) (c : ShardedCommitRequest) :
  consistent db ->
  sessions db !! SessionID c = Some (pending_row c) ->
  consistent (Delete_session faults db (pending_row c)).
Proof.
  intros (I1 & I2 & I3) Hrow. unfold Delete_session.
  destruct (f_delete faults); [now split_and! |].
  case_bool_decide as Hempty; [now split_and! |].
  cbn [se_ID pending_row] in Hempty. unfold consistent.
  cbn [shards sessions transactions se_ID pending_row]. split_and!.
  - intros id s Hs. apply lookup_delete_Some in Hs as [_ Hs]. now apply I1.
  - intros id t Ht. destruct (I2 id t Ht) as (Hid & s & Hs & Hh & Hrest).
    split; [exact Hid |]. exists s. split; [| auto].
    apply lookup_delete_Some. split; [| exact Hs].
    intros <-. rewrite Hrow in Hs. injection Hs as <-. discriminate.
  - intros id s h Hs Hh. apply lookup_delete_Some in Hs as [_ Hs].
    eapply I3; eassumption.
Qed.

Lemma consistent_recorded (faults : DbFaults) (db : DB) (c : ShardedCommitRequest)
    (res : ConsensusResult) :
  consistent db ->
  sessions db !! SessionID c = Some (pending_row c) ->
  consistent (snd (record_tx faults db c (pending_row c) res)).
Proof.
  intros Hcons Hrow.
  destruct (record_tx_cases faults db c res) as [(e & -> & _) | (Hnone & ->)];
    cbn [snd]; [exact Hcons |].
  destruct Hcons as (I1 & I2 & I3). unfold consistent.
  cbn [shards sessions transactions]. split_and!.
  - intros id s Hs. destruct (decide (id = SessionID c)) as [-> | Hne].
    + rewrite lookup_insert_eq in Hs. injection Hs as <-. cbn.
      destruct (I1 _ _ Hrow) as (_ & Hshard & _). unfold pending_row in Hshard.
      cbn in Hshard. auto.
    + rewrite lookup_insert_ne in Hs by congruence. now apply I1.
  - intros id t Ht. destruct (decide (id = SessionID c)) as [-> | Hne].
    + rewrite lookup_insert_eq in Ht. injection Ht as <-. cbn.
      split; [reflexivity |]. eexists. rewrite lookup_insert_eq.
      split; [reflexivity |]. cbn. auto.
    + rewrite lookup_insert_ne in Ht by congruence.
      destruct (I2 id t Ht) as (Hid & s & Hs & Hrest).
      split; [exact Hid |]. exists s. split; [| exact Hrest].
      rewrite lookup_insert_ne by congruence. exact Hs.
  - intros id s h Hs Hh. destruct (decide (id = SessionID c)) as [-> | Hne].
    + rewrite lookup_insert_eq in Hs. injection Hs as <-. cbn in Hh.
      injection Hh as <-. eexists. rewrite lookup_insert_eq. split; reflexivity.
    + rewrite lookup_insert_ne in Hs by congruence.
      rewrite lookup_insert_ne by congruence. eapply I3; eassumption.
Qed.

(** A whole call of [ReceiveShardCommit] is an admission followed by its
    settlement, so it leads from a reachable index to a reachable one. *)
Lemma ReceiveShardCommit_reachable (rpc : string -> Broadcast) (faults : DbFaults)
    (db : DB) (c : ShardedCommitRequest) :
  reachable db -> reachable (snd (ReceiveShardCommit rpc faults db c)).
Proof.
  intros Hreach. unfold ReceiveShardCommit.
  destruct (preInsert faults db c) as [e | [db1 session]] eqn:E; cbn [snd];
    [exact Hreach |].
  pose proof (reachable_admitted faults db db1 c session Hreach E) as Hreach1.
  apply preInsert_row in E as (-> & _ & _ & ->).
  apply reachable_settled; [exact Hreach1 |].
  cbn [sessions]. apply lookup_insert_eq.
Qed.

(** X9. Whatever the commit requests were, however their admissions and
    settlements interleaved and whatever failed, the index keeps its
    referential integrity: every session row is stored under its id,
    belongs to a registered shard and is flagged committed; every
    transaction row belongs to a session row with the same hash, shard
    and group; and a session row carries a hash only when its transaction
    row exists. *)
Theorem reachable_index_is_consistent (db : DB) : reachable db -> consistent db.
Proof.
  induction 1 as [db Hs Ht | faults db db1 c session Hreach IH Hadm
                  | rpc faults db c Hreach IH Hrow].
  - unfold consistent. rewrite Hs, Ht. split_and!; intros *; rewrite lookup_empty;
      discriminate.
  - apply preInsert_row in Hadm as (-> & Hnone & Hshard & ->).
    now apply consistent_admitted.
  - destruct (settle_cases rpc faults db c) as [-> | [-> | (res & _ & ->)]].
    + exact IH.
    + now apply consistent_deleted.
    + cbn [snd]. now apply consistent_recorded.
Qed.


(** *** Queries *)

Lemma elem_of_rows {A} (t : gmap string A) (a : A) :
  a ∈ rows t <-> exists id, t !! id = Some a.
Proof.
  unfold rows. rewrite list_elem_of_fmap. split.
  - intros ([id a'] & -> & Hin). exists id. now apply elem_of_map_to_list.
  - intros (id & Hid). exists (id, a). split; [reflexivity |].
    now apply elem_of_map_to_list.
Qed.

Lemma head_filter_Some {A} (P : A -> Prop) `{forall a, Decision (P a)} (l : list A)
    (a : A) :
  a ∈ l -> P a -> exists b, head (filter P l) = Some b /\ b ∈ l /\ P b.
Proof.
  intros Hin HP.
  assert (Hf : a ∈ filter P l) by (apply list_elem_of_filter; auto).
  destruct (filter P l) as [| b l'] eqn:E; [now apply elem_of_nil in Hf |].
  exists b. split; [reflexivity |].
  assert (Hb : b ∈ filter P l) by (rewrite E; apply list_elem_of_here).
  apply list_elem_of_filter in Hb. tauto.
Qed.

(** X11. A commit that [ReceiveShardCommit] reports as successful can be
    found again: the queries by its shard and by its client group list the
    session, with the hash of the returned transaction and with that
    transaction and the shard preloaded, and the query by the hash of the
    returned transaction finds a transaction with that hash. *)
Theorem committed_session_is_found (rpc : string -> Broadcast) (faults : DbFaults)
    (db db' : DB) (c : ShardedCommitRequest) (t : Transaction) :
  ReceiveShardCommit rpc faults db c = (Some (inl t), db') ->
  let found (result : list SessionView + RepositoryError) :=
    exists views v,
      result = inl views /\ v ∈ views
      /\ se_ID (sv_Session v) = SessionID c
      /\ se_TxHash (sv_Session v) = Some (tr_TxHash t)
      /\ sv_Transaction v = Some t
      /\ is_Some (sv_Shard v) in
  found (GetSessionsByShard None db' (ShardID c))
  /\ found (GetSessionsByClientGroup None db' (ClientGroup c))
  /\ exists tv, GetTransactionByHash None db' (tr_TxHash t) = inl tv
                /\ tr_TxHash (tv_Transaction tv) = tr_TxHash t.
Proof.
  intros Hcall. cbn zeta. unfold ReceiveShardCommit in Hcall.
  destruct (preInsert faults db c) as [e | [db1 session]] eqn:E; [discriminate |].
  apply preInsert_row in E as (-> & Hnone & Hshard & ->).
  unfold settle in Hcall.
  destruct (RunConsensus rpc Background c) as [[res | e] |]; try discriminate.
  destruct (record_tx_cases faults
              (mkDB (shards db) (<[SessionID c := pending_row c]> (sessions db))
                 (transactions db)) c res) as [(e' & Hrec & _) | (_ & Hrec)];
    rewrite Hrec in Hcall; [discriminate |].
  injection Hcall as <- <-.
  set (row := mkSession (SessionID c) (ShardID c) (ClientGroup c) (OperatorID c)
                "committed" true (Some (cr_TxHash res)) (MarshalData (SessionData c))).
  set (t := mkTransaction (cr_TxHash res) (SessionID c) (ShardID c) (ClientGroup c)
              (cr_BlockHeight res) "confirmed").
  set (db' := mkDB _ _ _).
  assert (Hrow : sessions db' !! SessionID c = Some row) by apply lookup_insert_eq.
  assert (Htx : transactions db' !! SessionID c = Some t) by apply lookup_insert_eq.
  assert (Hin : row ∈ rows (sessions db')) by (apply elem_of_rows; eauto).
  assert (Hview : se_ID (sv_Session (preload_session db' row)) = SessionID c
                  /\ se_TxHash (sv_Session (preload_session db' row)) = Some (tr_TxHash t)
                  /\ sv_Transaction (preload_session db' row) = Some t
                  /\ is_Some (sv_Shard (preload_session db' row))).
  { unfold preload_session. cbn [sv_Session sv_Transaction sv_Shard].
    split_and!; [reflexivity | reflexivity | exact Htx | exact Hshard]. }
  split_and!.
  - eexists _, (preload_session db' row). split; [reflexivity |].
    split; [| exact Hview]. apply list_elem_of_fmap. exists row. split; [reflexivity |].
    apply list_elem_of_filter. split; [reflexivity | exact Hin].
  - eexists _, (preload_session db' row). split; [reflexivity |].
    split; [| exact Hview]. apply list_elem_of_fmap. exists row. split; [reflexivity |].
    apply list_elem_of_filter. split; [reflexivity | exact Hin].
  - unfold GetTransactionByHash.
    destruct (head_filter_Some (fun t' => tr_TxHash t' = tr_TxHash t)
                (rows (transactions db')) t) as (t' & -> & _ & Hhash);
      [apply elem_of_rows; eauto | reflexivity |].
    eexists. split; [reflexivity | exact Hhash].
Qed.

End WithCodec.

Lemma reachable_index_is_consistent_witness :
  consistent (snd (ReceiveShardCommit (H := JSON.codec) (Scenario.engine_accepts 3)
                     no_faults Scenario.l1_seeded Scenario.dup1)).
Proof.
  apply (reachable_index_is_consistent (H := JSON.codec)).
  apply ReceiveShardCommit_reachable. apply reachable_seeded; reflexivity.
Defined.


Lemma committed_session_is_found_witness :
  exists tv,
    GetTransactionByHash None
      (snd (ReceiveShardCommit (H := JSON.codec) (Scenario.engine_accepts 3) no_faults
              Scenario.l1_seeded Scenario.dup1))
      "86261fc81058fed9f9685831b733f0c2c62e0dfb7a98475417773319f0e35465"
    = inl tv
    /\ tr_TxHash (tv_Transaction tv)
       = "86261fc81058fed9f9685831b733f0c2c62e0dfb7a98475417773319f0e35465".
Proof.
  refine (proj2 (proj2 (committed_session_is_found (H := JSON.codec)
                          (Scenario.engine_accepts 3) no_faults Scenario.l1_seeded _
                          Scenario.dup1
                          (mkTransaction
                             "86261fc81058fed9f9685831b733f0c2c62e0dfb7a98475417773319f0e35465"
                             "dup-1" "shard-a" "group-a" 1 "confirmed") _))).
  vm_compute. reflexivity.
Defined.

End IndexFacts.

(** ** L1 routing *)

Module L1RouterFacts.
Import Go Text L1 StringFacts.

Lemma matchParts_segments (ps ss : list string) :
  List.length ps = List.length ss ->
  (matchParts ps ss = true
   <-> Forall2 (fun p s => HasPrefixColon p = true \/ p = s) ps ss).
Proof.
  revert ss. induction ps as [| p ps IH]; intros [| s ss] Hlen; simpl in Hlen;
    try discriminate.
  - split; [constructor | reflexivity].
  - injection Hlen as Hlen. cbn [matchParts].
    destruct (HasPrefixColon p) eqn:Hp.
    + rewrite (IH ss Hlen). split; [constructor; auto |]. now inversion 1.
    + destruct (String.eqb_spec p s) as [-> | Hne]; cbn [negb].
      * rewrite (IH ss Hlen). split; [constructor; auto |]. now inversion 1.
      * split; [discriminate |]. inversion 1 as [| ? ? ? ? [? | ?]]; subst; congruence.
Qed.

Lemma matchPath_segments (pattern path : string) :
  matchPath pattern path = true
  <-> Forall2 (fun p s => HasPrefixColon p = true \/ p = s) (Split pattern) (Split path).
Proof.
  unfold matchPath.
  destruct (Nat.eqb_spec (List.length (Split pattern)) (List.length (Split path)))
    as [Hlen | Hlen]; cbn [negb].
  - now apply matchParts_segments.
  - split; [discriminate |]. intros HF. apply Forall2_length in HF. contradiction.
Qed.

(** The three patterns of the default registry. *)
Lemma matchPath_group (path : string) :
  matchPath "/l1/sessions/group/:group" path = true
  <-> exists group, Split path = [""; "l1"; "sessions"; "group"; group].
Proof.
  rewrite matchPath_segments. cbn [Split Ascii.eqb Bool.eqb].
  split.
  - intros HF. do 4 literal_segment HF. parameter_segment HF.
    apply Forall2_nil_inv_l in HF as ->. eauto.
  - intros (g & ->). repeat (constructor; [now right |]).
    constructor; [now left | constructor].
Qed.

Lemma matchPath_shard (path : string) :
  matchPath "/l1/sessions/shard/:shard" path = true
  <-> exists shard, Split path = [""; "l1"; "sessions"; "shard"; shard].
Proof.
  rewrite matchPath_segments. cbn [Split Ascii.eqb Bool.eqb].
  split.
  - intros HF. do 4 literal_segment HF. parameter_segment HF.
    apply Forall2_nil_inv_l in HF as ->. eauto.
  - intros (g & ->). repeat (constructor; [now right |]).
    constructor; [now left | constructor].
Qed.

Lemma matchPath_transaction (path : string) :
  matchPath "/l1/transaction/:hash" path = true
  <-> exists hash, Split path = [""; "l1"; "transaction"; hash].
Proof.
  rewrite matchPath_segments. cbn [Split Ascii.eqb Bool.eqb].
  split.
  - intros HF. do 3 literal_segment HF. parameter_segment HF.
    apply Forall2_nil_inv_l in HF as ->. eauto.
  - intros (g & ->). repeat (constructor; [now right |]).
    constructor; [now left | constructor].
Qed.

(** *** The pattern loop *)

Lemma matchRoutes_Some (sr : ServiceRegistry) (visit : list RouteKey)
    (method path : string) (h : HandlerName) :
  matchRoutes sr visit method path = Some h ->
  exists key, key ∈ visit /\ pattern_route sr method path key h.
Proof.
  induction visit as [| key visit IH]; cbn [matchRoutes]; [discriminate |].
  intros Hm.
  assert (Hrest : matchRoutes sr visit method path = Some h ->
                  exists key', key' ∈ key :: visit /\ pattern_route sr method path key' h).
  { intros Hr. destruct (IH Hr) as (key' & Hin & Hp). exists key'.
    split; [now apply list_elem_of_further | exact Hp]. }
  destruct (handlers sr !! key) as [h' |] eqn:Hh; [| now apply Hrest].
  destruct (String.eqb_spec (fst key) (ToUpper method)) as [Hmeth | Hmeth];
    cbn [negb] in Hm; [| now apply Hrest].
  destruct (default false (exactRoutes sr !! key)) eqn:Hex; [now apply Hrest |].
  destruct (matchPath (snd key) path) eqn:Hpath; [| now apply Hrest].
  injection Hm as <-. exists key. split; [apply list_elem_of_here |].
  unfold pattern_route. auto.
Qed.

Lemma matchRoutes_first (sr : ServiceRegistry) (visit : list RouteKey)
    (method path : string) (key : RouteKey) (h : HandlerName) :
  key ∈ visit -> pattern_route sr method path key h ->
  exists key' h', matchRoutes sr visit method path = Some h'
                  /\ pattern_route sr method path key' h'.
Proof.
  intros Hin Hp. induction visit as [| k visit IH]; [now apply elem_of_nil in Hin |].
  cbn [matchRoutes].
  assert (Hrest : k <> key ->
                  exists key' h', matchRoutes sr visit method path = Some h'
                                  /\ pattern_route sr method path key' h').
  { intros Hne. apply IH. apply elem_of_cons in Hin as [-> | Hin];
      [contradiction | exact Hin]. }
  assert (Hskip : ~ pattern_route sr method path k (default HStatus (handlers sr !! k)) ->
                  k <> key).
  { intros Hnot ->. destruct Hp as (Hh & ?). rewrite Hh in Hnot. cbn in Hnot.
    apply Hnot. unfold pattern_route. auto. }
  destruct (handlers sr !! k) as [h' |] eqn:Hh.
  - destruct (String.eqb_spec (fst k) (ToUpper method)) as [Hmeth | Hmeth]; cbn [negb].
    + destruct (default false (exactRoutes sr !! k)) eqn:Hex.
      * apply Hrest, Hskip. unfold pattern_route. intros (_ & _ & ? & _). congruence.
      * destruct (matchPath (snd k) path) eqn:Hpath.
        -- exists k, h'. unfold pattern_route. auto.
        -- apply Hrest, Hskip. unfold pattern_route. intros (_ & _ & _ & ?). congruence.
    + apply Hrest, Hskip. unfold pattern_route. intros (_ & ? & _). congruence.
  - apply Hrest. intros ->. destruct Hp as (Hh' & _). congruence.
Qed.

(** *** The default registry *)

Local Abbreviation services := (RegisterDefaultServices NewServiceRegistry).

Lemma default_lookup (key : RouteKey) :
  (handlers services !! key, exactRoutes services !! key)
  = if decide (("GET", "/l1/shards") = key) then (Some HGetShards, Some true)
    else if decide (("GET", "/l1/status") = key) then (Some HStatus, Some true)
    else if decide (("GET", "/l1/transaction/:hash") = key)
         then (Some HGetTransaction, Some false)
    else if decide (("GET", "/l1/sessions/shard/:shard") = key)
         then (Some HGetSessionsByShard, Some false)
    else if decide (("GET", "/l1/sessions/group/:group") = key)
         then (Some HGetSessionsByGroup, Some false)
    else if decide (("POST", "/l1/commit") = key)
         then (Some HReceiveShardCommit, Some true)
    else (None, None).
Proof.
  unfold RegisterDefaultServices, RegisterHandler, NewServiceRegistry.
  cbn [handlers exactRoutes]. rewrite !lookup_insert, !lookup_empty.
  change (ToUpper "GET") with "GET". change (ToUpper "POST") with "POST".
  repeat (destruct (decide _); [reflexivity |]). reflexivity.
Qed.

(** The registered keys, with their handlers and exact marks. *)
Lemma default_keys (key : RouteKey) (h : HandlerName) :
  handlers services !! key = Some h ->
  (key = ("POST", "/l1/commit") /\ h = HReceiveShardCommit
   /\ exactRoutes services !! key = Some true)
  \/ (key = ("GET", "/l1/status") /\ h = HStatus
      /\ exactRoutes services !! key = Some true)
  \/ (key = ("GET", "/l1/shards") /\ h = HGetShards
      /\ exactRoutes services !! key = Some true)
  \/ (key = ("GET", "/l1/sessions/group/:group") /\ h = HGetSessionsByGroup
      /\ exactRoutes services !! key = Some false)
  \/ (key = ("GET", "/l1/sessions/shard/:shard") /\ h = HGetSessionsByShard
      /\ exactRoutes services !! key = Some false)
  \/ (key = ("GET", "/l1/transaction/:hash") /\ h = HGetTransaction
      /\ exactRoutes services !! key = Some false).
Proof.
  intros Hh. pose proof (default_lookup key) as Hl. rewrite Hh in Hl.
  repeat (destruct (decide _) as [<- | _] in Hl;
          [injection Hl as ->; clear;
           repeat first [ solve [split_and!; reflexivity]
                        | solve [left; split_and!; reflexivity]
                        | right ] |]).
  discriminate Hl.
Qed.

(** The pattern routes of the default registry. *)
Lemma default_pattern_route (method path : string) (key : RouteKey) (h : HandlerName) :
  pattern_route services method path key h
  <-> ToUpper method = "GET"
      /\ ((key = ("GET", "/l1/sessions/group/:group") /\ h = HGetSessionsByGroup
           /\ exists group, Split path = [""; "l1"; "sessions"; "group"; group])
          \/ (key = ("GET", "/l1/sessions/shard/:shard") /\ h = HGetSessionsByShard
              /\ exists shard, Split path = [""; "l1"; "sessions"; "shard"; shard])
          \/ (key = ("GET", "/l1/transaction/:hash") /\ h = HGetTransaction
              /\ exists hash, Split path = [""; "l1"; "transaction"; hash])).
Proof.
  unfold pattern_route.
  rewrite <- matchPath_group, <- matchPath_shard, <- matchPath_transaction.
  split.
  - intros (Hh & HM & Hex & Hpath).
    destruct (default_keys key h Hh)
      as [(-> & -> & He) | [(-> & -> & He) | [(-> & -> & He) |
          [(-> & -> & He) | [(-> & -> & He) | (-> & -> & He)]]]]];
      rewrite He in Hex; cbn [default] in Hex; try discriminate Hex;
      cbn [fst snd] in HM, Hpath; (split; [now symmetry |]); auto 8.
  - intros (HM & [(-> & -> & Hpath) | [(-> & -> & Hpath) | (-> & -> & Hpath)]]);
      cbn [fst snd]; split_and!; auto.
Qed.

Lemma pattern_route_unique (method path : string) (key key' : RouteKey)
    (h h' : HandlerName) :
  pattern_route services method path key h ->
  pattern_route services method path key' h' -> h = h'.
Proof.
  intros Hp Hp'. apply default_pattern_route in Hp as (_ & Hp).
  apply default_pattern_route in Hp' as (_ & Hp').
  destruct Hp as [(_ & -> & g & Eg) | [(_ & -> & g & Eg) | (_ & -> & g & Eg)]],
           Hp' as [(_ & -> & g' & Eg') | [(_ & -> & g' & Eg') | (_ & -> & g' & Eg')]];
    try reflexivity; rewrite Eg in Eg'; discriminate.
Qed.

(** The keys that the exact lookup of [GetHandlerForPath] returns. *)
Lemma default_exact_hit (key : RouteKey) (h : HandlerName) :
  handlers services !! key = Some h ->
  default false (exactRoutes services !! key) = true ->
  (key = ("POST", "/l1/commit") /\ h = HReceiveShardCommit)
  \/ (key = ("GET", "/l1/status") /\ h = HStatus)
  \/ (key = ("GET", "/l1/shards") /\ h = HGetShards).
Proof.
  intros Hh Hex.
  destruct (default_keys key h Hh)
    as [(-> & -> & He) | [(-> & -> & He) | [(-> & -> & He) |
        [(-> & -> & He) | [(-> & -> & He) | (-> & -> & He)]]]]];
    rewrite He in Hex; cbn [default] in Hex; try discriminate Hex; auto.
Qed.

Lemma default_routing_sound (visit : list RouteKey) (method path : string)
    (h : HandlerName) :
  GetHandlerForPath services visit method path = Some h ->
  default_route h method path.
Proof.
  unfold GetHandlerForPath. cbv zeta.
  assert (Hpat : matchRoutes services visit method path = Some h ->
                 default_route h method path).
  { intros Hm. apply matchRoutes_Some in Hm as (key & _ & Hp).
    apply default_pattern_route in Hp
      as (HM & [(_ & -> & Hs) | [(_ & -> & Hs) | (_ & -> & Hs)]]); cbn; auto. }
  match goal with
  | |- match ?found with Some _ => _ | None => _ end = _ -> _ =>
      destruct found as [h' |] eqn:Hh; [| exact Hpat]
  end.
  match goal with
  | |- (if ?exact then _ else _) = _ -> _ => destruct exact eqn:Hex; [| exact Hpat]
  end.
  intros [= <-].
  destruct (default_exact_hit _ _ Hh Hex) as [([= HM Hpath] & ->) |
                                              [([= HM Hpath] & ->) | ([= HM Hpath] & ->)]];
    cbn; auto.
Qed.

Lemma default_routing_complete (visit : list RouteKey) (method path : string)
    (h : HandlerName) :
  (forall key, is_Some (handlers services !! key) -> key ∈ visit) ->
  default_route h method path ->
  GetHandlerForPath services visit method path = Some h.
Proof.
  intros Hcover Hroute. unfold GetHandlerForPath. cbv zeta.
  assert (Hpat : forall key, pattern_route services method path key h ->
                 matchRoutes services visit method path = Some h).
  { intros key Hp.
    assert (Hin : key ∈ visit) by (apply Hcover; destruct Hp as (-> & _); eauto).
    destruct (matchRoutes_first _ _ _ _ _ _ Hin Hp) as (key' & h' & -> & Hp').
    f_equal. symmetry. eapply pattern_route_unique; eassumption. }
  assert (Hshape : forall key, pattern_route services method path key h ->
             match handlers services !! (ToUpper method, path) with
             | Some handler =>
                 if default false (exactRoutes services !! (ToUpper method, path))
                 then Some handler
                 else matchRoutes services visit method path
             | None => matchRoutes services visit method path
             end = Some h).
  { intros key Hp.
    match goal with
    | |- match ?found with Some _ => _ | None => _ end = _ =>
        destruct found as [h' |] eqn:Hh; [| now apply (Hpat key)]
    end.
    match goal with
    | |- (if ?exact then _ else _) = _ => destruct exact eqn:Hex; [| now apply (Hpat key)]
    end.
    exfalso. apply default_pattern_route in Hp as (_ & Hp).
    destruct (default_exact_hit _ _ Hh Hex) as [([= _ Hpath] & _) |
                                                [([= _ Hpath] & _) | ([= _ Hpath] & _)]];
      rewrite Hpath in Hp;
      destruct Hp as [(_ & _ & g & Eg) | [(_ & _ & g & Eg) | (_ & _ & g & Eg)]];
      discriminate Eg. }
  destruct h; cbn in Hroute; destruct Hroute as (HM & Hroute).
  - subst path. rewrite HM. reflexivity.
  - apply (Hshape ("GET", "/l1/sessions/group/:group")), default_pattern_route. auto 8.
  - apply (Hshape ("GET", "/l1/sessions/shard/:shard")), default_pattern_route. auto 8.
  - apply (Hshape ("GET", "/l1/transaction/:hash")), default_pattern_route. auto 8.
  - subst path. rewrite HM. reflexivity.
  - subst path. rewrite HM. reflexivity.
Qed.

(** X12. The routing of the default L1 registry does not depend on the
    order in which the runtime enumerates the route map: for every
    enumeration that covers the registered keys, [GetHandlerForPath] finds
    a handler exactly for the requests of the route table (the method is
    compared in upper case; [POST /l1/commit], [GET /l1/status] and
    [GET /l1/shards] match their path only; the three query routes
    match every path whose segments are those of the pattern, with any
    last segment, the empty one included), and no request belongs to two
    routes. *)
Theorem default_routing_table (visit : list RouteKey) (method path : string) :
  (forall key, is_Some (handlers services !! key) -> key ∈ visit) ->
  (forall h, GetHandlerForPath services visit method path = Some h
             <-> default_route h method path)
  /\ (forall h h', default_route h method path -> default_route h' method path -> h = h').
Proof.
  intros Hcover.
  assert (Hiff : forall h, GetHandlerForPath services visit method path = Some h
                           <-> default_route h method path).
  { intros h. split; [apply default_routing_sound | now apply default_routing_complete]. }
  split; [exact Hiff |].
  intros h h' Hr Hr'. apply Hiff in Hr, Hr'. congruence.
Qed.

Lemma default_routing_table_witness :
  GetHandlerForPath services
    [("GET", "/l1/transaction/:hash"); ("GET", "/l1/sessions/group/:group");
     ("POST", "/l1/commit"); ("GET", "/l1/shards"); ("GET", "/l1/status");
     ("GET", "/l1/sessions/shard/:shard")]
    "get" "/l1/sessions/shard/shard-a" = Some HGetSessionsByShard.
Proof.
  apply default_routing_table.
  - intros key [h Hkey].
    destruct (default_keys key h Hkey)
      as [(-> & _) | [(-> & _) | [(-> & _) | [(-> & _) | [(-> & _) | (-> & _)]]]]];
      repeat first [apply list_elem_of_here | apply list_elem_of_further].
  - cbn. split; [reflexivity |]. now exists "shard-a".
Defined.

(** *** From the router to the repository *)

Section QueryRoutes.
Context `{Codec}.
Variable MarshalSessions : list SessionView -> string + string.
Variable MarshalTransaction : TransactionView -> string + string.
Variable systemHandler : HandlerName -> Request -> DB -> Response * option string.
Variable fault : option string.

Local Abbreviation handlersOf :=
  (queryHandlers MarshalSessions MarshalTransaction systemHandler fault).

(** X13. For a request that the default registry routes to one of the
    three query handlers, the path check of the handler ([Invalid path
    format]) never fails: the handler takes the last segment of the path
    as the client group, the shard id or the transaction hash, queries
    the repository with it, and leaves the index as it is. *)
Theorem query_routes_reach_the_repository (w : World) (db : DB) (req : Request) :
  (forall key, is_Some (handlers services !! key) -> key ∈ visit w) ->
  ToUpper (Method req) = "GET" ->
  (forall group, Split (Path req) = [""; "l1"; "sessions"; "group"; group] ->
     GenerateResponse handlersOf services w db req
     = (Some (sessions_response MarshalSessions
                (GetSessionsByClientGroup fault db group)), db))
  /\ (forall shard, Split (Path req) = [""; "l1"; "sessions"; "shard"; shard] ->
        GenerateResponse handlersOf services w db req
        = (Some (sessions_response MarshalSessions
                   (GetSessionsByShard fault db shard)), db))
  /\ (forall hash, Split (Path req) = [""; "l1"; "transaction"; hash] ->
        GenerateResponse handlersOf services w db req
        = (Some (transaction_response MarshalTransaction
                   (GetTransactionByHash fault db hash)), db)).
Proof.
  intros Hcover HM. split_and!; intros x Hsplit; unfold GenerateResponse.
  - rewrite (default_routing_complete (visit w) (Method req) (Path req)
               HGetSessionsByGroup Hcover) by (cbn; eauto).
    cbn [runHandler queryHandlers]. unfold GetSessionsByGroupHandler.
    rewrite Hsplit. reflexivity.
  - rewrite (default_routing_complete (visit w) (Method req) (Path req)
               HGetSessionsByShard Hcover) by (cbn; eauto).
    cbn [runHandler queryHandlers]. unfold GetSessionsByShardHandler.
    rewrite Hsplit. reflexivity.
  - rewrite (default_routing_complete (visit w) (Method req) (Path req)
               HGetTransaction Hcover) by (cbn; eauto).
    cbn [runHandler queryHandlers]. unfold GetTransactionHandler.
    rewrite Hsplit. reflexivity.
Qed.

End QueryRoutes.

Lemma query_routes_reach_the_repository_witness :
  let printSessions := fun found : list SessionView =>
    inl (String.concat "," (map (fun v => se_ID (sv_Session v)) found)) : string + string in
  let printTransaction := fun found : TransactionView =>
    inl (tr_TxHash (tv_Transaction found)) : string + string in
  let req := mkRequest "get" "/l1/sessions/group/group-a" ∅ "" "10.0.0.7:41000" "r-1" in
  GenerateResponse (H := JSON.codec)
    (queryHandlers printSessions printTransaction Scenario.l1_queries None)
    services Scenario.l1_query_world Scenario.pending_dup1 req
  = (Some (sessions_response printSessions
             (GetSessionsByClientGroup None Scenario.pending_dup1 "group-a")),
     Scenario.pending_dup1).
Proof.
  intros printSessions printTransaction req.
  refine (proj1 (query_routes_reach_the_repository (H := JSON.codec)
                   printSessions printTransaction Scenario.l1_queries None
                   Scenario.l1_query_world Scenario.pending_dup1 req _ _)
                "group-a" _).
  - intros key [h Hkey].
    destruct (default_keys key h Hkey)
      as [(-> & _) | [(-> & _) | [(-> & _) | [(-> & _) | [(-> & _) | (-> & _)]]]]];
      repeat first [apply list_elem_of_here | apply list_elem_of_further].
  - reflexivity.
  - reflexivity.
Defined.

End L1RouterFacts.

(** ** L2 routing *)

Module L2RouterFacts.
Import Go Text L2 StringFacts.

Lemma matchPatterns_found (mh : gmap string HandlerName) (visit : list string)
    (path pattern : string) :
  pattern ∈ visit -> is_Some (mh !! pattern) -> matchPath pattern path = true ->
  is_Some (matchPatterns mh visit path).
Proof.
  intros Hin Hreg Hm.
  destruct (matchPatterns mh visit path) as [h |] eqn:E; [eauto |].
  rewrite RouterFacts.matchPatterns_None in E. rewrite (E pattern Hin Hreg) in Hm.
  discriminate.
Qed.

(** The route map of the default registry: the patterns of each method. *)
Lemma default_handlers (shard group : string) :
  handlers (RegisterDefaultServices (NewServiceRegistry shard group))
  = <["POST" := <["/session/:id/commit" := HCommitSession]>
                  (<["/session/:id/label" := HLabelPackage]>
                     (<["/session/:id/qc" := HQualityCheck]>
                        (<["/session/:id/validate" := HValidatePackage]>
                           (<["/session/start" := HCreateSession]> ∅))))]>
      (<["GET" := <["/info" := HInfo]> (<["/session/:id/scan" := HScanPackage]> ∅)]> ∅).
Proof. reflexivity. Qed.

Lemma default_patterns (shard group method pattern : string) (h : HandlerName) :
  default ∅ (handlers (RegisterDefaultServices (NewServiceRegistry shard group))
             !! method) !! pattern = Some h
  <-> (method = "POST"
       /\ ((pattern = "/session/start" /\ h = HCreateSession)
           \/ (pattern = "/session/:id/validate" /\ h = HValidatePackage)
           \/ (pattern = "/session/:id/qc" /\ h = HQualityCheck)
           \/ (pattern = "/session/:id/label" /\ h = HLabelPackage)
           \/ (pattern = "/session/:id/commit" /\ h = HCommitSession)))
      \/ (method = "GET"
          /\ ((pattern = "/session/:id/scan" /\ h = HScanPackage)
              \/ (pattern = "/info" /\ h = HInfo))).
Proof.
  rewrite default_handlers. rewrite !lookup_insert, lookup_empty.
  destruct (decide ("POST" = method)) as [<- | HP]; cbn [from_option id].
  - rewrite !lookup_insert, lookup_empty.
    repeat (destruct (decide _) as [<- | ?]); split;
      try (intros [= <-]; left; split; [reflexivity |]; tauto);
      try (intros [(_ & Hc) | ([= ] & _)]; intuition congruence);
      try discriminate.
  - destruct (decide ("GET" = method)) as [<- | HG]; cbn [from_option id].
    + rewrite !lookup_insert, lookup_empty.
      repeat (destruct (decide _) as [<- | ?]); split;
        try (intros [= <-]; right; split; [reflexivity |]; tauto);
        try (intros [([= ] & _) | (_ & Hc)]; intuition congruence);
        try discriminate.
    + rewrite lookup_empty. split; [discriminate |].
      intros [(-> & _) | (-> & _)]; contradiction.
Qed.

(** The patterns of the default registry, as conditions on the segments
    of the path. *)
Lemma matchPath_start (path : string) :
  matchPath "/session/start" path = true <-> path = "/session/start".
Proof.
  rewrite RouterFacts.matchPath_Forall2. cbn [Split Ascii.eqb Bool.eqb]. split.
  - intros HF. apply Split_inj. cbn [Split Ascii.eqb Bool.eqb].
    do 3 literal_segment HF. apply Forall2_nil_inv_l in HF as ->. reflexivity.
  - intros ->. cbn [Split Ascii.eqb Bool.eqb].
    repeat (constructor; [now right |]). constructor.
Qed.

Lemma matchPath_info (path : string) :
  matchPath "/info" path = true <-> path = "/info".
Proof.
  rewrite RouterFacts.matchPath_Forall2. cbn [Split Ascii.eqb Bool.eqb]. split.
  - intros HF. apply Split_inj. cbn [Split Ascii.eqb Bool.eqb].
    do 2 literal_segment HF. apply Forall2_nil_inv_l in HF as ->. reflexivity.
  - intros ->. cbn [Split Ascii.eqb Bool.eqb].
    repeat (constructor; [now right |]). constructor.
Qed.

(** A pattern [/session/:id/<stage>] matches the paths of four segments
    with [session] and the stage at their places. *)
Lemma matchPath_stage (stage path : string) :
  HasPrefixColon stage = false -> all_chars no_slash stage = true ->
  matchPath ("/session/:id/" +:+ stage) path = true
  <-> exists id, Split path = [""; "session"; id; stage].
Proof.
  intros Hlit Hseg. rewrite RouterFacts.matchPath_Forall2.
  assert (Hsplit : Split ("/session/:id/" +:+ stage) = [""; "session"; ":id"; stage]).
  { cbv [String.append]. cbn [Split Ascii.eqb Bool.eqb].
    rewrite (Split_last stage Hseg). reflexivity. }
  rewrite Hsplit. split.
  - intros HF. do 2 literal_segment HF. parameter_segment HF.
    apply Forall2_cons_inv_l in HF as (s & k & [Hc | <-] & HF & ->); [congruence |].
    apply Forall2_nil_inv_l in HF as ->. eauto.
  - intros (id & ->). constructor; [now right |]. constructor; [now right |].
    constructor; [now left |]. constructor; [now right |]. constructor.
Qed.

Section Default.
Variables shard group : string.

Local Abbreviation services := (RegisterDefaultServices (NewServiceRegistry shard group)).

(** A registered pattern that matches the path gives the route of the
    table. *)
Lemma registered_match (method pattern path : string) (h : HandlerName) :
  default ∅ (handlers services !! method) !! pattern = Some h ->
  matchPath pattern path = true ->
  default_route h method path.
Proof.
  intros Hreg Hm. apply default_patterns in Hreg
    as [(-> & [(-> & ->) | [(-> & ->) | [(-> & ->) | [(-> & ->) | (-> & ->)]]]])
       | (-> & [(-> & ->) | (-> & ->)])]; cbn.
  - apply matchPath_start in Hm. auto.
  - apply (matchPath_stage "validate") in Hm; auto.
  - apply (matchPath_stage "qc") in Hm; auto.
  - apply (matchPath_stage "label") in Hm; auto.
  - apply (matchPath_stage "commit") in Hm; auto.
  - apply (matchPath_stage "scan") in Hm; auto.
  - apply matchPath_info in Hm. auto.
Qed.

(** Each route of the table has its registered pattern. *)
Lemma route_registered (method path : string) (h : HandlerName) :
  default_route h method path ->
  exists pattern,
    default ∅ (handlers services !! method) !! pattern = Some h
    /\ matchPath pattern path = true.
Proof.
  intros Hroute. destruct h; cbn in Hroute; destruct Hroute as (-> & Hpath).
  - exists "/session/start". split; [apply default_patterns; tauto |].
    now apply matchPath_start.
  - exists "/session/:id/scan". split; [apply default_patterns; tauto |].
    now apply (matchPath_stage "scan").
  - exists "/session/:id/validate". split; [apply default_patterns; tauto |].
    now apply (matchPath_stage "validate").
  - exists "/session/:id/qc". split; [apply default_patterns; tauto |].
    now apply (matchPath_stage "qc").
  - exists "/session/:id/label". split; [apply default_patterns; tauto |].
    now apply (matchPath_stage "label").
  - exists "/session/:id/commit". split; [apply default_patterns; tauto |].
    now apply (matchPath_stage "commit").
  - exists "/info". split; [apply default_patterns; tauto |].
    now apply matchPath_info.
Qed.

Lemma default_route_unique (method path : string) (h h' : HandlerName) :
  default_route h method path -> default_route h' method path -> h = h'.
Proof.
  destruct h, h'; cbn; intros (HM & Hp) (HM' & Hp'); try reflexivity;
    try congruence;
    repeat match goal with
           | H : exists _, _ |- _ => destruct H as (? & H)
           end;
    subst; try discriminate; congruence.
Qed.

Lemma stage_routing_sound (visit : list string) (method path : string)
    (h : HandlerName) :
  GetHandlerForPath services visit method path = Some h -> default_route h method path.
Proof.
  rewrite RouterFacts.GetHandlerForPath_unfold.
  destruct (default ∅ (handlers services !! method) !! path) as [h' |] eqn:Hexact.
  - intros [= <-]. eapply registered_match; [exact Hexact |].
    apply RouterFacts.matchPath_refl.
  - intros Hm. apply RouterFacts.matchPatterns_Some in Hm as (pattern & _ & Hreg & Hmatch).
    eapply registered_match; eassumption.
Qed.

(** X14. The routing of the default L2 registry does not depend on the
    order in which the runtime enumerates the pattern map: for every
    enumeration that covers the patterns of the method,
    [GetHandlerForPath] finds a handler exactly for the requests of the
    route table (the method is compared as it is written; the stage
    routes match the paths [/session/<id>/<stage>] with any segment as
    id, the empty one included; [/session/start] and [/info] match
    their own path only), and no request belongs to two routes. *)
Theorem default_stage_routing_table (visit : list string) (method path : string) :
  (forall pattern,
     is_Some (default ∅ (handlers services !! method) !! pattern) -> pattern ∈ visit) ->
  (forall h, GetHandlerForPath services visit method path = Some h
             <-> default_route h method path)
  /\ (forall h h', default_route h method path -> default_route h' method path -> h = h').
Proof.
  intros Hcover. split; [| apply default_route_unique].
  intros h. split; [apply stage_routing_sound |].
  intros Hroute.
  destruct (route_registered method path h Hroute) as (pattern & Hreg & Hmatch).
  assert (Hfound : is_Some (GetHandlerForPath services visit method path)).
  { rewrite RouterFacts.GetHandlerForPath_unfold.
    destruct (default ∅ (handlers services !! method) !! path); [eauto |].
    eapply matchPatterns_found; [| | exact Hmatch]; [apply Hcover |]; rewrite Hreg; eauto. }
  destruct Hfound as [h' Hfound]. rewrite Hfound. f_equal.
  eapply default_route_unique; [| exact Hroute].
  now apply (stage_routing_sound visit).
Qed.

End Default.

Lemma default_stage_routing_table_witness :
  GetHandlerForPath Scenario.l2_services (visit Scenario.l2_world)
    "POST" "/session/SES-30313233/commit" = Some HCommitSession.
Proof.
  apply (default_stage_routing_table "shard-a" "group-a").
  - intros pattern [h Hreg]. apply default_patterns in Hreg
      as [(_ & [(-> & _) | [(-> & _) | [(-> & _) | [(-> & _) | (-> & _)]]]])
         | ([= ] & _)]; cbn [visit Scenario.l2_world];
      repeat first [apply list_elem_of_here | apply list_elem_of_further].
  - cbn. split; [reflexivity |]. now exists "SES-30313233".
Defined.

End L2RouterFacts.

(** ** The L2 workflow *)

Module WorkflowFacts.
Import Go Text L2.

(** *** Finding a row by a column that is not the key *)

Lemma first_where_Some {A} (p : A -> bool) (t : gmap string A) (a : A) :
  first_where p t = Some a -> p a = true /\ exists i, t !! i = Some a.
Proof.
  unfold first_where. intros Hhead. apply head_Some_elem_of in Hhead.
  apply list_elem_of_filter in Hhead as [Hp Hin]. split; [exact Hp |].
  apply list_elem_of_fmap in Hin as ([i a'] & -> & Hin).
  exists i. now apply elem_of_map_to_list.
Qed.

Lemma first_where_None {A} (p : A -> bool) (t : gmap string A) :
  first_where p t = None <-> forall i a, t !! i = Some a -> p a = false.
Proof.
  unfold first_where. rewrite head_None. split.
  - intros Hnil i a Hi. destruct (p a) eqn:Hp; [| reflexivity].
    assert (Hin : a ∈ filter (fun a => p a = true) (snd <$> map_to_list t)).
    { apply list_elem_of_filter. split; [exact Hp |].
      apply list_elem_of_fmap. exists (i, a). split; [reflexivity |].
      now apply elem_of_map_to_list. }
    rewrite Hnil in Hin. now apply elem_of_nil in Hin.
  - intros Hall. destruct (filter _ _) as [| a l] eqn:E; [reflexivity |].
    assert (Hin : a ∈ filter (fun a => p a = true) (snd <$> map_to_list t))
      by (rewrite E; apply list_elem_of_here).
    apply list_elem_of_filter in Hin as [Hp Hin].
    apply list_elem_of_fmap in Hin as ([i a'] & -> & Hin).
    apply elem_of_map_to_list in Hin. cbn [snd] in Hp.
    rewrite (Hall i a' Hin) in Hp. discriminate.
Qed.

Lemma first_where_found {A} (p : A -> bool) (t : gmap string A) (i : string) (a : A) :
  t !! i = Some a -> p a = true -> is_Some (first_where p t).
Proof.
  intros Hi Hp. destruct (first_where p t) eqn:E; [eauto |].
  rewrite first_where_None in E. rewrite (E i a Hi) in Hp. discriminate.
Qed.

(** The check of the unique index on [session_id] of the labels and of the
    QC records. *)
Lemma label_index_taken (db : DB) (sessionID : string) :
  is_Some (first_where (fun l => String.eqb (lb_SessionID l) sessionID) (labels db))
  <-> has_label db sessionID.
Proof.
  split.
  - intros [l Hl]. apply first_where_Some in Hl as (Hp & i & Hi).
    apply String.eqb_eq in Hp. now exists i, l.
  - intros (i & l & Hi & Hs). apply (first_where_found _ _ i l Hi).
    now apply String.eqb_eq.
Qed.

Lemma qc_index_taken (db : DB) (sessionID : string) :
  is_Some (first_where (fun r => String.eqb (qc_SessionID r) sessionID) (qc_records db))
  <-> has_qc_record db sessionID.
Proof.
  split.
  - intros [r Hr]. apply first_where_Some in Hr as (Hp & i & Hi).
    apply String.eqb_eq in Hp. now exists i, r.
  - intros (i & r & Hi & Hs). apply (first_where_found _ _ i r Hi).
    now apply String.eqb_eq.
Qed.

(** *** The commit handler *)

(** The two ways in which a call of the commit handler ends. *)
Lemma CommitSessionHandler_cases (sr : ServiceRegistry) (w : World) (db : DB)
    (req : Request) :
  (exists session l1Response body,
     List.length (Split (Path req)) = 4%nat
     /\ sessions db !! nth 2 (Split (Path req)) "" = Some session
     /\ IsCommitted session = false /\ Status session = "completed"
     /\ CommitSession w session (clientGroup sr) = inl l1Response
     /\ CommitSessionHandler sr w db req
        = (Ok (mkResponse 200 defaultHeaders body),
           update_session db (nth 2 (Split (Path req)) "")
             (with_commit (Data_TxHash l1Response) (Meta_BlockHeight l1Response)
                          (now w))))
  \/ (exists out, CommitSessionHandler sr w db req = (out, db)
                  /\ forall response, out = Ok response -> StatusCode response <> 200%nat).
Proof.
  unfold CommitSessionHandler, GetSession.
  destruct (List.length (Split (Path req)) =? 4)%nat eqn:Hlen; cbn [negb].
  2: { right. eexists. split; [reflexivity |]. intros response [= <-]. discriminate. }
  apply Nat.eqb_eq in Hlen.
  destruct (sessions db !! nth 2 (Split (Path req)) "") as [session |] eqn:Hs.
  2: { right. eexists. split; [reflexivity |]. intros response [= <-]. discriminate. }
  destruct (IsCommitted session) eqn:Hc.
  { right. destruct (L1TxHash session); eexists; (split; [reflexivity |]).
    - intros response [= <-]. discriminate.
    - discriminate. }
  destruct (String.eqb (Status session) "completed") eqn:Hst; cbn [negb].
  2: { right. eexists. split; [reflexivity |]. intros response [= <-]. discriminate. }
  apply String.eqb_eq in Hst.
  destruct (CommitSession w session (clientGroup sr)) as [l1Response | err] eqn:Hl1.
  2: { right. eexists. split; [reflexivity |]. intros response [= <-]. discriminate. }
  left. unfold MarkSessionCommitted.
  exists session, l1Response. eexists. split_and!; try reflexivity; assumption.
Qed.

(** X15. The commit handler answers 200 exactly when it has written: it
    then has found the session named by the third segment of the path
    completed and not committed, L1 has accepted that session, and the
    only change of the store is the update of that row with the hash and
    the height of the answer of L1 and the time of the call.  With every
    other answer the store is as before. *)
Theorem commit_handler_effect (sr : ServiceRegistry) (w : World) (db : DB)
    (req : Request) :
  let sessionID := nth 2 (Split (Path req)) "" in
  let out := fst (CommitSessionHandler sr w db req) in
  let db' := snd (CommitSessionHandler sr w db req) in
  (exists session l1Response body,
     List.length (Split (Path req)) = 4%nat
     /\ sessions db !! sessionID = Some session
     /\ IsCommitted session = false /\ Status session = "completed"
     /\ CommitSession w session (clientGroup sr) = inl l1Response
     /\ out = Ok (mkResponse 200 defaultHeaders body)
     /\ db' = update_session db sessionID
                (with_commit (Data_TxHash l1Response) (Meta_BlockHeight l1Response)
                             (now w)))
  \/ (db' = db /\ forall response, out = Ok response -> StatusCode response <> 200%nat).
Proof.
  cbv zeta.
  destruct (CommitSessionHandler_cases sr w db req)
    as [(session & l1Response & body & Hlen & Hs & Hc & Hst & Hl1 & ->)
       | (out & -> & Hout)].
  - left. exists session, l1Response, body. auto 10.
  - right. auto.
Qed.

(** *** What the operations keep *)

Lemma update_session_lookup (db : DB) (sessionID i : string) (f : Session -> Session) :
  sessions (update_session db sessionID f) !! i
  = if decide (sessionID = i) then f <$> sessions db !! sessionID
    else sessions db !! i.
Proof. unfold update_session. cbn [sessions set_sessions]. apply lookup_alter. Qed.

(** The labels and the QC records are only added to. *)
Lemma apply_op_labels (op : Op) (db : DB) (i : string) (l : Label) :
  labels db !! i = Some l -> labels (apply_op op db) !! i = Some l.
Proof.
  intros Hi. destruct op; cbn [apply_op].
  - unfold CreateSession. now destruct (sessions db !! _).
  - unfold ScanPackage. now destruct (packages db !! packageID).
  - unfold ValidatePackage. now destruct (packages db !! packageID).
  - unfold QualityCheck. destruct (sessions db !! sessionID); [| exact Hi].
    destruct (first_where _ (packages db)); [| exact Hi].
    now destruct (_ || _).
  - unfold LabelPackage. destruct (couriers db !! courierID); [| exact Hi].
    destruct (bool_decide (is_Some (labels db !! _))) eqn:Hkey; cbn [orb];
      [exact Hi |].
    destruct (bool_decide (is_Some (first_where _ (labels db)))); [exact Hi |].
    match goal with
    | |- context [match sessions db !! ?i with _ => _ end] =>
        destruct (sessions db !! i) eqn:Hfk
    end; [| exact Hi].
    cbn [snd update_session set_sessions set_packages set_labels labels].
    rewrite lookup_insert_ne; [exact Hi |].
    intros <-. apply bool_decide_eq_false in Hkey. apply Hkey. eauto.
  - exact Hi.
  - destruct (SessionFacts.CommitSessionHandler_store sr w db req)
      as [-> | (id & h & b & ->)]; exact Hi.
Qed.

Lemma apply_op_qc_records (op : Op) (db : DB) (i : string) (r : QCRecord) :
  qc_records db !! i = Some r -> qc_records (apply_op op db) !! i = Some r.
Proof.
  intros Hi. destruct op; cbn [apply_op].
  - unfold CreateSession. now destruct (sessions db !! _).
  - unfold ScanPackage. now destruct (packages db !! packageID).
  - unfold ValidatePackage. now destruct (packages db !! packageID).
  - unfold QualityCheck. destruct (sessions db !! sessionID); [| exact Hi].
    destruct (first_where _ (packages db)); [| exact Hi].
    destruct (bool_decide (is_Some (qc_records db !! _))) eqn:Hkey; cbn [orb];
      [exact Hi |].
    destruct (bool_decide (is_Some (first_where _ (qc_records db)))); [exact Hi |].
    cbn [snd set_packages set_qc_records qc_records].
    rewrite lookup_insert_ne; [exact Hi |].
    intros <-. apply bool_decide_eq_false in Hkey. apply Hkey. eauto.
  - unfold LabelPackage. destruct (couriers db !! courierID); [| exact Hi].
    destruct (_ || _); [exact Hi |]. now destruct (sessions db !! sessionID).
  - exact Hi.
  - destruct (SessionFacts.CommitSessionHandler_store sr w db req)
      as [-> | (id & h & b & ->)]; exact Hi.
Qed.

Lemma run_snoc (ops : list Op) (op : Op) (db : DB) :
  run (ops ++ [op]) db = apply_op op (run ops db).
Proof. unfold run. now rewrite foldl_app. Qed.

Lemma run_has_label (ops : list Op) (db : DB) (sessionID : string) :
  has_label db sessionID -> has_label (run ops db) sessionID.
Proof.
  induction ops as [| op ops IH] using rev_ind; [auto |].
  intros Hl. rewrite run_snoc. destruct (IH Hl) as (i & l & Hi & Hs).
  exists i, l. split; [now apply apply_op_labels | exact Hs].
Qed.

Lemma run_has_qc_record (ops : list Op) (db : DB) (sessionID : string) :
  has_qc_record db sessionID -> has_qc_record (run ops db) sessionID.
Proof.
  induction ops as [| op ops IH] using rev_ind; [auto |].
  intros Hl. rewrite run_snoc. destruct (IH Hl) as (i & l & Hi & Hs).
  exists i, l. split; [now apply apply_op_qc_records | exact Hs].
Qed.

Lemma LabelPackage_labels (random1 random2 : string) (db db1 : DB)
    (sessionID courierID : string) (label : Label) :
  LabelPackage random1 random2 db sessionID courierID = (inl label, db1) ->
  has_label db1 sessionID.
Proof.
  unfold LabelPackage. destruct (couriers db !! courierID); [| discriminate].
  destruct (_ || _); [discriminate |].
  destruct (sessions db !! sessionID); [| discriminate]. intros [= <- <-].
  eexists _, _. cbn [update_session set_sessions set_packages set_labels labels].
  split; [apply lookup_insert_eq | reflexivity].
Qed.

Lemma QualityCheck_records (random : string) (db db1 : DB) (sessionID : string)
    (passed : bool) (issuesJSON : string) (result : Package * QCRecord) :
  QualityCheck random db sessionID passed issuesJSON = (inl result, db1) ->
  has_qc_record db1 sessionID.
Proof.
  unfold QualityCheck. destruct (sessions db !! sessionID); [| discriminate].
  destruct (first_where _ (packages db)); [| discriminate].
  destruct (_ || _); [discriminate |]. intros [= <- <-].
  eexists _, _. cbn [set_packages set_qc_records qc_records].
  split; [apply lookup_insert_eq | reflexivity].
Qed.

(** X16. A session is labelled at most once: after a [LabelPackage] that
    succeeded for a session, and whatever operations the shard has run
    since, every [LabelPackage] for that session returns an error and
    leaves the store as it is. *)
Theorem label_is_final (random1 random2 : string) (db db1 : DB)
    (sessionID courierID : string) (label : Label) (ops : list Op)
    (random1' random2' courierID' : string) :
  LabelPackage random1 random2 db sessionID courierID = (inl label, db1) ->
  exists err,
    LabelPackage random1' random2' (run ops db1) sessionID courierID'
    = (inr err, run ops db1).
Proof.
  intros Hfirst. apply LabelPackage_labels in Hfirst.
  apply (run_has_label ops) in Hfirst. apply label_index_taken in Hfirst.
  unfold LabelPackage. destruct (couriers (run ops db1) !! courierID'); [| eauto].
  rewrite (bool_decide_eq_true_2 _ Hfirst), orb_true_r. eauto.
Qed.

Lemma label_is_final_witness :
  let db := snd (CreateSession Scenario.random_a Scenario.l2_seeded "OPR-001") in
  let first := LabelPackage Scenario.random_a Scenario.random_b db "SES-30313233"
                 "CUR-001" in
  let ops := [OpScanPackage "SES-30313233" "PKG-001"] in
  exists err,
    LabelPackage Scenario.random_b Scenario.random_a (run ops (snd first))
      "SES-30313233" "CUR-001"
    = (inr err, run ops (snd first)).
Proof.
  intros db first ops.
  apply (label_is_final Scenario.random_a Scenario.random_b db (snd first)
           "SES-30313233" "CUR-001"
           (mkLabel "LBL-30313233" "SES-30313233" "CUR-001" "TRK-66656463-626")).
  vm_compute. reflexivity.
Defined.

(** X17. The quality check of a session is recorded at most once: after
    a [QualityCheck] that succeeded for a session, and whatever operations
    the shard has run since, every [QualityCheck] for that session
    returns an error and leaves the store, and with it the recorded
    verdict, as it is. *)
Theorem quality_check_is_final (random : string) (db db1 : DB) (sessionID : string)
    (passed : bool) (issuesJSON : string) (result : Package * QCRecord)
    (ops : list Op) (random' : string) (passed' : bool) (issuesJSON' : string) :
  QualityCheck random db sessionID passed issuesJSON = (inl result, db1) ->
  exists err,
    QualityCheck random' (run ops db1) sessionID passed' issuesJSON'
    = (inr err, run ops db1).
Proof.
  intros Hfirst. apply QualityCheck_records in Hfirst.
  apply (run_has_qc_record ops) in Hfirst. apply qc_index_taken in Hfirst.
  unfold QualityCheck. destruct (sessions (run ops db1) !! sessionID); [| eauto].
  destruct (first_where _ (packages (run ops db1))); [| eauto].
  rewrite (bool_decide_eq_true_2 _ Hfirst), orb_true_r. eauto.
Qed.

Lemma quality_check_is_final_witness :
  let db := snd (ScanPackage
                   (snd (CreateSession Scenario.random_a Scenario.l2_seeded "OPR-001"))
                   "SES-30313233" "PKG-001") in
  let first := QualityCheck Scenario.random_b db "SES-30313233" false "[]" in
  let ops := [OpLabelPackage Scenario.random_a Scenario.random_b "SES-30313233"
                "CUR-001"] in
  exists err,
    QualityCheck Scenario.random_a (run ops (snd first)) "SES-30313233" true "[]"
    = (inr err, run ops (snd first)).
Proof.
  intros db first ops.
  apply (quality_check_is_final Scenario.random_b db (snd first) "SES-30313233"
           false "[]"
           (mkPackage "PKG-001" "sig_acme_electronics_001" "SUP-001" "qc_failed" false
              (Some "SES-30313233"),
            mkQCRecord "QC-66656463" "SES-30313233" false "[]")).
  vm_compute. reflexivity.
Defined.

(** *** The receipt of L1 *)

Lemma apply_op_receipt (op : Op) (db : DB) (sessionID : string) (s : Session) :
  is_direct_mark op = false ->
  sessions db !! sessionID = Some s -> IsCommitted s = true ->
  exists s', sessions (apply_op op db) !! sessionID = Some s' /\ same_receipt s s'.
Proof.
  intros Hop Hs Hc.
  assert (Hsame : exists s', sessions db !! sessionID = Some s' /\ same_receipt s s').
  { exists s. unfold same_receipt. auto 10. }
  assert (Hupd : forall db0 id f,
             sessions db0 = sessions db -> (forall x, same_receipt x (f x)) ->
             exists s', sessions (update_session db0 id f) !! sessionID = Some s'
                        /\ same_receipt s s').
  { intros db0 id f E Hf. rewrite update_session_lookup, E.
    case_decide as Hid; [subst id; rewrite Hs; cbn; eauto | exact Hsame]. }
  destruct op; cbn [apply_op]; try discriminate Hop.
  - unfold CreateSession. destruct (sessions db !! new_id _ _ _) eqn:Hfresh;
      [exact Hsame |].
    cbn [snd sessions set_sessions]. rewrite lookup_insert_ne; [exact Hsame |].
    intros <-. congruence.
  - unfold ScanPackage. destruct (packages db !! packageID); [| exact Hsame].
    cbn [snd]. apply Hupd; [reflexivity |]. intros x. unfold same_receipt. auto 10.
  - unfold ValidatePackage. now destruct (packages db !! packageID).
  - unfold QualityCheck. destruct (sessions db !! sessionID0); [| exact Hsame].
    destruct (first_where _ (packages db)); [| exact Hsame].
    now destruct (_ || _).
  - unfold LabelPackage. destruct (couriers db !! courierID); [| exact Hsame].
    destruct (_ || _); [exact Hsame |].
    destruct (sessions db !! sessionID0); [| exact Hsame].
    cbn [snd]. apply Hupd; [reflexivity |]. intros x. unfold same_receipt. auto 10.
  - destruct (CommitSessionHandler_cases sr w db req)
      as [(session & l1Response & body & Hlen & Hs' & Hc' & Hst & Hl1 & ->)
         | (out & -> & Hout)]; [| exact Hsame].
    cbn [snd]. rewrite update_session_lookup. case_decide as Hid; [| exact Hsame].
    rewrite Hid, Hs in Hs'. injection Hs' as <-. congruence.
Qed.

Lemma same_receipt_trans (s1 s2 s3 : Session) :
  same_receipt s1 s2 -> same_receipt s2 s3 -> same_receipt s1 s3.
Proof. unfold same_receipt. intuition congruence. Qed.

Lemma run_receipt (ops : list Op) (db : DB) (sessionID : string) (s : Session) :
  Forall (fun op => is_direct_mark op = false) ops ->
  sessions db !! sessionID = Some s -> IsCommitted s = true ->
  exists s', sessions (run ops db) !! sessionID = Some s' /\ same_receipt s s'.
Proof.
  induction ops as [| op ops IH] using rev_ind; intros Hops Hs Hc.
  - exists s. unfold same_receipt. auto 10.
  - apply Forall_app in Hops as [Hops Hop]. apply Forall_cons in Hop as [Hop _].
    destruct (IH Hops Hs Hc) as (s1 & Hs1 & Hr1). rewrite run_snoc.
    assert (Hc1 : IsCommitted s1 = true).
    { destruct Hr1 as (_ & -> & _). exact Hc. }
    destruct (apply_op_receipt op _ sessionID s1 Hop Hs1 Hc1) as (s2 & Hs2 & Hr2).
    exists s2. split; [exact Hs2 |]. now apply (same_receipt_trans s s1).
Qed.

(** X18. The receipt of L1 is never overwritten by the workflow: the row
    of a committed session stays in the store, committed and with the
    transaction hash, the block height and the commit time that it has,
    through every sequence of repository operations and commit requests
    (the calls of [MarkSessionCommitted] are those of the commit
    handler). *)
Theorem l1_receipt_is_kept (ops : list Op) (db : DB) (sessionID : string)
    (s : Session) :
  Forall (fun op => is_direct_mark op = false) ops ->
  sessions db !! sessionID = Some s -> IsCommitted s = true ->
  exists s', sessions (run ops db) !! sessionID = Some s'
             /\ IsCommitted s' = true /\ L1TxHash s' = L1TxHash s
             /\ L1BlockHeight s' = L1BlockHeight s
             /\ L1CommitTime s' = L1CommitTime s.
Proof.
  intros Hops Hs Hc. destruct (run_receipt ops db sessionID s Hops Hs Hc)
    as (s' & Hs' & _ & Hc' & Hh & Hb & Ht).
  exists s'. rewrite Hc in Hc'. auto.
Qed.

Lemma l1_receipt_is_kept_witness :
  let committed :=
    snd (CommitSessionHandler Scenario.l2_services Scenario.l2_world
           Scenario.l2_completed (Scenario.l2_commit_request "SES-1")) in
  exists s', sessions (run Scenario.l2_later_ops committed) !! "SES-1" = Some s'
             /\ IsCommitted s' = true /\ L1TxHash s' = Some "86261fc8"
             /\ L1BlockHeight s' = Some 7%Z /\ L1CommitTime s' = Some 1000%nat.
Proof.
  intros committed.
  apply (l1_receipt_is_kept Scenario.l2_later_ops committed "SES-1"
           (mkSession "SES-1" "OPR-001" "committed" true (Some "PKG-001")
              (Some "86261fc8") (Some 7%Z) (Some 1000%nat))).
  - repeat constructor.
  - vm_compute. reflexivity.
  - reflexivity.
Defined.

(** X19. A session is committed to L1 once: when the commit handler has
    answered 200 for a session, every later commit request for that
    session, of any registry and world and after any sequence of
    repository operations and commit requests, is answered 409 with the
    transaction hash of the first commit, and leaves the store as it
    is. *)
Theorem second_commit_is_refused (sr sr' : ServiceRegistry) (w w' : World)
    (db db1 : DB) (req req' : Request) (body : string) (ops : list Op) :
  CommitSessionHandler sr w db req = (Ok (mkResponse 200 defaultHeaders body), db1) ->
  Forall (fun op => is_direct_mark op = false) ops ->
  List.length (Split (Path req')) = 4%nat ->
  nth 2 (Split (Path req')) "" = nth 2 (Split (Path req)) "" ->
  exists l1Response session,
    sessions db !! nth 2 (Split (Path req)) "" = Some session
    /\ CommitSession w session (clientGroup sr) = inl l1Response
    /\ CommitSessionHandler sr' w' (run ops db1) req'
       = (Ok (mkResponse 409 defaultHeaders
                (already_committed_body (Data_TxHash l1Response))),
          run ops db1).
Proof.
  intros Hfirst Hops Hlen' Hsame.
  destruct (CommitSessionHandler_cases sr w db req)
    as [(session & l1Response & body0 & Hlen & Hs & Hc & Hst & Hl1 & E)
       | (out & E & Hout)]; rewrite E in Hfirst.
  2: { injection Hfirst as -> _. now destruct (Hout _ eq_refl). }
  injection Hfirst as _ <-.
  exists l1Response, session. split_and!; [exact Hs | exact Hl1 |].
  set (sessionID := nth 2 (Split (Path req)) "") in *.
  set (committed := with_commit (Data_TxHash l1Response) (Meta_BlockHeight l1Response)
                      (now w) session).
  assert (Hrow : sessions (update_session db sessionID
                   (with_commit (Data_TxHash l1Response) (Meta_BlockHeight l1Response)
                      (now w))) !! sessionID = Some committed).
  { rewrite update_session_lookup, decide_True by reflexivity. now rewrite Hs. }
  destruct (run_receipt ops _ sessionID committed Hops Hrow eq_refl)
    as (s' & Hs' & _ & Hc' & Hh & _).
  unfold CommitSessionHandler, GetSession.
  rewrite Hlen', Hsame. cbn [Nat.eqb negb]. fold sessionID. rewrite Hs', Hc', Hh.
  reflexivity.
Qed.

Lemma second_commit_is_refused_witness :
  let req := Scenario.l2_commit_request "SES-1" in
  let first := CommitSessionHandler Scenario.l2_services Scenario.l2_world
                 Scenario.l2_completed req in
  exists l1Response session,
    sessions Scenario.l2_completed !! nth 2 (Split (Path req)) "" = Some session
    /\ CommitSession Scenario.l2_world session (clientGroup Scenario.l2_services)
       = inl l1Response
    /\ CommitSessionHandler Scenario.l2_services_with_lookup Scenario.l2_world
         (run Scenario.l2_later_ops (snd first)) req
       = (Ok (mkResponse 409 defaultHeaders
                (already_committed_body (Data_TxHash l1Response))),
          run Scenario.l2_later_ops (snd first)).
Proof.
  intros req first.
  apply (second_commit_is_refused Scenario.l2_services Scenario.l2_services_with_lookup
           Scenario.l2_world Scenario.l2_world Scenario.l2_completed (snd first) req req
           (match fst first with Ok response => rs_Body response | _ => "" end)).
  - vm_compute. reflexivity.
  - repeat constructor.
  - reflexivity.
  - reflexivity.
Defined.

(** *** Nothing is committed without a label *)

Lemma apply_op_labelled (op : Op) (db : DB) :
  is_direct_mark op = false ->
  (forall sessionID s, sessions db !! sessionID = Some s ->
                       completed_or_committed s -> has_label db sessionID) ->
  forall sessionID s, sessions (apply_op op db) !! sessionID = Some s ->
                      completed_or_committed s -> has_label (apply_op op db) sessionID.
Proof.
  intros Hop Hinv i s Hs Hcc.
  assert (Hkept : forall i0 s0, sessions db !! i0 = Some s0 ->
                    completed_or_committed s0 -> has_label (apply_op op db) i0).
  { intros i0 s0 Hs0 Hcc0. destruct (Hinv i0 s0 Hs0 Hcc0) as (k & l & Hk & Hl).
    exists k, l. split; [now apply apply_op_labels | exact Hl]. }
  destruct op; cbn [apply_op] in *; try discriminate Hop.
  - unfold CreateSession in *. destruct (sessions db !! new_id _ _ _) eqn:Hfresh;
      [now apply (Hkept i s) |].
    cbn [snd sessions set_sessions] in *. rewrite lookup_insert in Hs.
    case_decide; [| now apply (Hkept i s)].
    injection Hs as <-. now destruct Hcc.
  - unfold ScanPackage in *. destruct (packages db !! packageID);
      [| now apply (Hkept i s)].
    cbn [snd] in *. rewrite update_session_lookup in Hs.
    cbn [sessions set_packages] in Hs.
    case_decide; [| now apply (Hkept i s)]. subst sessionID.
    destruct (sessions db !! i) as [s0 |] eqn:Hs0; cbn in Hs; [| discriminate].
    injection Hs as <-. apply (Hkept i s0 Hs0). exact Hcc.
  - unfold ValidatePackage in *. destruct (packages db !! packageID);
      now apply (Hkept i s).
  - unfold QualityCheck in *. destruct (sessions db !! sessionID);
      [| now apply (Hkept i s)].
    destruct (first_where _ (packages db)); [| now apply (Hkept i s)].
    destruct (_ || _); now apply (Hkept i s).
  - destruct (LabelPackage random1 random2 db sessionID courierID)
      as [[label | err] db1] eqn:E.
    + pose proof (LabelPackage_labels _ _ _ _ _ _ _ E) as Hlabel.
      cbn [snd] in *. destruct (decide (sessionID = i)) as [<- | Hne];
        [exact Hlabel |].
      apply (Hkept i s); [| exact Hcc].
      unfold LabelPackage in E. destruct (couriers db !! courierID); [| discriminate].
      destruct (_ || _); [discriminate |].
      destruct (sessions db !! sessionID); [| discriminate]. injection E as _ <-.
      rewrite update_session_lookup, decide_False in Hs by exact Hne. exact Hs.
    + assert (db1 = db) as ->.
      { unfold LabelPackage in E. destruct (couriers db !! courierID);
          [destruct (_ || _); [| destruct (sessions db !! sessionID)] |]; congruence. }
      cbn [snd] in *. now apply (Hkept i s).
  - destruct (CommitSessionHandler_cases sr w db req)
      as [(session & l1Response & body & Hlen & Hs' & Hc' & Hst & Hl1 & E)
         | (out & E & Hout)]; rewrite E in *; cbn [snd] in *;
      [| now apply (Hkept i s)].
    rewrite update_session_lookup in Hs. case_decide as Hid; [| now apply (Hkept i s)].
    subst i. apply (Hkept _ session Hs'). now left.
Qed.

(** X20. No session is completed or committed without a label: on every
    store that the shard reaches from one without sessions, by
    repository operations and commit requests in any order, a session
    with status [completed] or with [is_committed] set has a label.  (The
    other stages are not required: scan, validation and quality check
    can be left out.) *)
Theorem committed_session_has_label (ops : list Op) (db : DB) (sessionID : string)
    (s : Session) :
  sessions db = ∅ ->
  Forall (fun op => is_direct_mark op = false) ops ->
  sessions (run ops db) !! sessionID = Some s ->
  Status s = "completed" \/ IsCommitted s = true ->
  has_label (run ops db) sessionID.
Proof.
  intros Hempty Hops. revert sessionID s.
  induction ops as [| op ops IH] using rev_ind.
  - intros i s. cbn. rewrite Hempty, lookup_empty. discriminate.
  - apply Forall_app in Hops as [Hops Hop]. apply Forall_cons in Hop as [Hop _].
    rewrite run_snoc. apply apply_op_labelled; [exact Hop |]. now apply IH.
Qed.

Lemma committed_session_has_label_witness :
  let ops :=
    [ OpCreateSession Scenario.random_a "OPR-001";
      OpLabelPackage Scenario.random_a Scenario.random_b "SES-30313233" "CUR-001";
      OpCommitSessionHandler Scenario.l2_services Scenario.l2_world
        (Scenario.l2_commit_request "SES-30313233") ] in
  has_label (run ops Scenario.l2_seeded) "SES-30313233".
Proof.
  intros ops.
  apply (committed_session_has_label ops Scenario.l2_seeded "SES-30313233"
           (mkSession "SES-30313233" "OPR-001" "committed" true None
              (Some "86261fc8") (Some 7%Z) (Some 1000%nat))).
  - reflexivity.
  - repeat constructor.
  - vm_compute. reflexivity.
  - right. reflexivity.
Defined.

(** *** The stages in their order *)

Lemma first_where_unique {A} (p : A -> bool) (t : gmap string A) (i : string) (a : A) :
  t !! i = Some a -> p a = true ->
  (forall j b, t !! j = Some b -> p b = true -> b = a) ->
  first_where p t = Some a.
Proof.
  intros Hi Hp Hall. destruct (first_where_found p t i a Hi Hp) as [b Hb].
  rewrite Hb. apply first_where_Some in Hb as (Hpb & j & Hj).
  f_equal. now apply (Hall j).
Qed.

(** The commit handler on a session that is not completed. *)
Lemma commit_before_completion (sr : ServiceRegistry) (w : World) (db : DB)
    (req : Request) (session : Session) :
  List.length (Split (Path req)) = 4%nat ->
  sessions db !! nth 2 (Split (Path req)) "" = Some session ->
  IsCommitted session = false -> Status session = "active" ->
  exists body, CommitSessionHandler sr w db req
               = (Ok (mkResponse 400 defaultHeaders body), db).
Proof.
  intros Hlen Hs Hc Hst. unfold CommitSessionHandler, GetSession.
  rewrite Hlen, Hs, Hc, Hst. cbn. eauto.
Qed.

(** X21. The stages compose, for texts that their columns take: an
    operator id of at most 50 printable ASCII characters
    ([varchar(50)]), an L1 transaction hash of at most 66
    ([varchar(66)]) and an issues text in printable ASCII ([text]).  On
    a store where the new session id and the ids of
    the QC record and of the label are free, the package and the courier
    exist and no package is linked to the new session, [CreateSession],
    [ScanPackage], [ValidatePackage], [QualityCheck] (with either
    verdict) and [LabelPackage] succeed in this order; a commit request
    for the session is answered 400 after each of the first four and
    changes nothing; after the label, and when L1 accepts the completed
    session, it is answered 200, the session row carries the receipt of
    L1 and the package is labelled, trusted and linked to the
    session. *)
Theorem workflow_ends_committed
    (random randomQC randomLabel randomTracking : string)
    (operatorID packageID signature issuesJSON courierID : string) (passed : bool)
    (db : DB) (pkg : Package) (courier : Courier)
    (sr : ServiceRegistry) (w : World) (req : Request) (l1Response : CommitResponse) :
  let sessionID := new_id "SES-" 8 random in
  let completed :=
    mkSession sessionID operatorID "completed" false (Some packageID) None None None in
  let created := CreateSession random db operatorID in
  let scanned := ScanPackage (snd created) sessionID packageID in
  let validated := ValidatePackage (snd scanned) signature packageID sessionID in
  let checked := QualityCheck randomQC (snd validated) sessionID passed issuesJSON in
  let labelled :=
    LabelPackage randomLabel randomTracking (snd checked) sessionID courierID in
  let committed := CommitSessionHandler sr w (snd labelled) req in
  fits 50 operatorID = true -> fits 66 (Data_TxHash l1Response) = true ->
  all_chars printable issuesJSON = true ->
  sessions db !! sessionID = None ->
  packages db !! packageID = Some pkg -> pk_ID pkg = packageID ->
  (forall i p, packages db !! i = Some p -> pk_SessionID p <> Some sessionID) ->
  qc_records db !! new_id "QC-" 8 randomQC = None -> ~ has_qc_record db sessionID ->
  labels db !! new_id "LBL-" 8 randomLabel = None -> ~ has_label db sessionID ->
  couriers db !! courierID = Some courier ->
  List.length (Split (Path req)) = 4%nat -> nth 2 (Split (Path req)) "" = sessionID ->
  CommitSession w completed (clientGroup sr) = inl l1Response ->
  (exists session, fst created = inl session /\ ID session = sessionID)
  /\ (exists p, fst scanned = inl p)
  /\ (exists p, fst validated = inl p)
  /\ (exists p qcRecord, fst checked = inl (p, qcRecord) /\ qc_Passed qcRecord = passed)
  /\ (exists label, fst labelled = inl label /\ lb_SessionID label = sessionID)
  /\ Forall (fun dbi => exists body,
                CommitSessionHandler sr w dbi req
                = (Ok (mkResponse 400 defaultHeaders body), dbi))
            [snd created; snd scanned; snd validated; snd checked]
  /\ (exists body, fst committed = Ok (mkResponse 200 defaultHeaders body))
  /\ sessions (snd committed) !! sessionID
     = Some (mkSession sessionID operatorID "committed" true (Some packageID)
               (Some (Data_TxHash l1Response)) (Some (Meta_BlockHeight l1Response))
               (Some (now w)))
  /\ packages (snd committed) !! packageID
     = Some (mkPackage packageID (pk_Signature pkg) (pk_SupplierID pkg) "labeled" true
               (Some sessionID)).
Proof.
  intros sessionID completed created scanned validated checked labelled committed
    _ _ _ Hfresh Hpkg Hid Hlinked Hqcid Hqc Hlabelid Hlabel Hcourier Hlen Hnth Hl1.
  set (active := mkSession sessionID operatorID "active" false None None None None).
  set (db1 := set_sessions db (<[sessionID := active]> (sessions db))).
  assert (E1 : created = (inl active, db1)).
  { unfold created, CreateSession. fold sessionID. now rewrite Hfresh. }
  set (pkg1 := mkPackage packageID (pk_Signature pkg) (pk_SupplierID pkg)
                 "pending_validation" (pk_IsTrusted pkg) (Some sessionID)).
  set (db2 := update_session (set_packages db1 (<[packageID := pkg1]> (packages db1)))
                sessionID (with_package_id packageID)).
  assert (E2 : scanned = (inl pkg1, db2)).
  { unfold scanned, ScanPackage. rewrite E1. cbn [snd packages db1 set_sessions].
    rewrite Hpkg. cbn [pk_ID]. rewrite Hid. reflexivity. }
  set (pkg2 := mkPackage packageID (pk_Signature pkg) (pk_SupplierID pkg)
                 "validated" true (Some sessionID)).
  set (db3 := set_packages db2 (<[packageID := pkg2]> (packages db2))).
  assert (E3 : validated = (inl pkg2, db3)).
  { unfold validated, ValidatePackage. rewrite E2.
    cbn [snd packages db2 update_session set_sessions set_packages].
    rewrite lookup_insert_eq. reflexivity. }
  assert (Hs3 : sessions db3 !! sessionID = Some (with_package_id packageID active)).
  { cbn [db3 db2 db1 sessions set_packages update_session set_sessions].
    rewrite lookup_alter_eq, lookup_insert_eq. reflexivity. }
  assert (Hp3 : forall j b, packages db3 !! j = Some b ->
                  pk_SessionID b = Some sessionID -> b = pkg2).
  { intros j b. cbn [db3 db2 db1 packages set_packages update_session set_sessions].
    rewrite !lookup_insert. repeat case_decide; try congruence.
    intros Hj Hb. now destruct (Hlinked j b Hj). }
  set (qcRecord := mkQCRecord (new_id "QC-" 8 randomQC) sessionID passed issuesJSON).
  set (pkg3 := mkPackage packageID (pk_Signature pkg) (pk_SupplierID pkg)
                 (if passed then "qc_passed" else "qc_failed") true (Some sessionID)).
  set (db4 := set_packages
                (set_qc_records db3 (<[qc_ID qcRecord := qcRecord]> (qc_records db3)))
                (<[packageID := pkg3]> (packages db3))).
  assert (E4 : checked = (inl (pkg3, qcRecord), db4)).
  { unfold checked, QualityCheck. rewrite E3. cbn [snd]. rewrite Hs3.
    rewrite (first_where_unique _ (packages db3) packageID pkg2).
    - cbn [qc_ID]. fold qcRecord.
      replace (qc_records db3) with (qc_records db) by reflexivity.
      rewrite Hqcid.
      destruct (first_where _ (qc_records db)) as [r |] eqn:Hr.
      + destruct Hqc. apply qc_index_taken. rewrite Hr. eauto.
      + rewrite !bool_decide_eq_false_2 by (intros [? [=]]). reflexivity.
    - cbn [db3 packages set_packages]. apply lookup_insert_eq.
    - now apply bool_decide_eq_true.
    - intros j b Hj Hb. apply bool_decide_eq_true in Hb. now apply (Hp3 j). }
  set (label := mkLabel (new_id "LBL-" 8 randomLabel) sessionID courierID
                  (new_id "TRK-" 12 randomTracking)).
  set (db5 := update_session
                (set_packages (set_labels db4 (<[lb_ID label := label]> (labels db4)))
                   (label_package sessionID <$> packages db4))
                sessionID (with_status "completed")).
  assert (E5 : labelled = (inl label, db5)).
  { unfold labelled, LabelPackage. rewrite E4. cbn [snd].
    replace (couriers db4) with (couriers db) by reflexivity. rewrite Hcourier.
    cbn [lb_ID]. fold label.
    replace (labels db4) with (labels db) by reflexivity. rewrite Hlabelid.
    destruct (first_where _ (labels db)) as [l |] eqn:Hl.
    - destruct Hlabel. apply label_index_taken. rewrite Hl. eauto.
    - rewrite !bool_decide_eq_false_2 by (intros [? [=]]). cbn [orb].
      replace (sessions db4) with (sessions db3) by reflexivity.
      rewrite Hs3. reflexivity. }
  assert (Hs5 : sessions db5 !! sessionID = Some completed).
  { unfold db5. rewrite update_session_lookup, decide_True by reflexivity.
    replace (sessions _) with (sessions db3) by reflexivity. now rewrite Hs3. }
  assert (Hp5 : packages db5 !! packageID
                = Some (mkPackage packageID (pk_Signature pkg) (pk_SupplierID pkg)
                          "labeled" true (Some sessionID))).
  { cbn [db5 db4 packages update_session set_sessions set_packages set_labels
         set_qc_records].
    rewrite lookup_fmap, lookup_insert_eq. cbn. unfold label_package.
    cbn [pk_SessionID pkg3]. now rewrite bool_decide_eq_true_2. }
  assert (E6 : exists body,
             committed
             = (Ok (mkResponse 200 defaultHeaders body),
                update_session db5 sessionID
                  (with_commit (Data_TxHash l1Response) (Meta_BlockHeight l1Response)
                               (now w)))).
  { unfold committed, CommitSessionHandler, GetSession. rewrite E5. cbn [snd].
    rewrite Hlen, Hnth. cbn [Nat.eqb negb]. rewrite Hs5.
    cbn [IsCommitted Status completed String.eqb Ascii.eqb Bool.eqb negb].
    rewrite Hl1. eexists. reflexivity. }
  destruct E6 as [body E6].
  rewrite E1, E2, E3, E4, E5, E6. cbn [fst snd].
  split_and!; eauto.
  - repeat constructor.
    + apply (commit_before_completion sr w db1 req active); rewrite ?Hnth; auto.
      cbn [db1 sessions set_sessions]. apply lookup_insert_eq.
    + apply (commit_before_completion sr w db2 req (with_package_id packageID active));
        rewrite ?Hnth; auto.
    + apply (commit_before_completion sr w db3 req (with_package_id packageID active));
        rewrite ?Hnth; auto.
    + apply (commit_before_completion sr w db4 req (with_package_id packageID active));
        rewrite ?Hnth; auto.
  - rewrite update_session_lookup, decide_True by reflexivity. now rewrite Hs5.
Qed.

Lemma workflow_ends_committed_witness :
  let sessionID := new_id "SES-" 8 Scenario.random_a in
  let created := CreateSession Scenario.random_a Scenario.l2_seeded "OPR-001" in
  let scanned := ScanPackage (snd created) sessionID "PKG-001" in
  let validated :=
    ValidatePackage (snd scanned) "sig_acme_electronics_001" "PKG-001" sessionID in
  let checked := QualityCheck Scenario.random_b (snd validated) sessionID true "[]" in
  let labelled :=
    LabelPackage Scenario.random_a Scenario.random_b (snd checked) sessionID "CUR-001" in
  let committed :=
    CommitSessionHandler Scenario.l2_services Scenario.l2_world (snd labelled)
      (Scenario.l2_commit_request "SES-30313233") in
  sessions (snd committed) !! sessionID
  = Some (mkSession sessionID "OPR-001" "committed" true (Some "PKG-001")
            (Some "86261fc8") (Some 7%Z) (Some 1000%nat))
  /\ packages (snd committed) !! "PKG-001"
     = Some (mkPackage "PKG-001" "sig_acme_electronics_001" "SUP-001" "labeled" true
               (Some sessionID)).
Proof.
  intros sessionID created scanned validated checked labelled committed.
  refine (let H := workflow_ends_committed Scenario.random_a Scenario.random_b
                     Scenario.random_a Scenario.random_b "OPR-001" "PKG-001"
                     "sig_acme_electronics_001" "[]" "CUR-001" true Scenario.l2_seeded
                     (mkPackage "PKG-001" "sig_acme_electronics_001" "SUP-001"
                        "pending" false None)
                     (mkCourier "CUR-001" "FastShip Express")
                     Scenario.l2_services Scenario.l2_world
                     (Scenario.l2_commit_request "SES-30313233")
                     (mkCommitResponse "86261fc8" 7) _ _ _ _ _ _ _ _ _ _ _ _ _ _ _ in
          conj (proj1 (proj2 (proj2 (proj2 (proj2 (proj2 (proj2 (proj2 H))))))))
               (proj2 (proj2 (proj2 (proj2 (proj2 (proj2 (proj2 (proj2 H))))))))).
  - reflexivity.
  - reflexivity.
  - reflexivity.
  - reflexivity.
  - reflexivity.
  - reflexivity.
  - intros i p Hi. unfold Scenario.l2_seeded in Hi. cbn [packages] in Hi.
    apply lookup_singleton_Some in Hi as [_ <-]. discriminate.
  - reflexivity.
  - intros (i & r & Hi & _). discriminate Hi.
  - reflexivity.
  - intros (i & l & Hi & _). discriminate Hi.
  - reflexivity.
  - reflexivity.
  - reflexivity.
  - reflexivity.
Defined.

End WorkflowFacts.
